(** * TunnelDronePCL: the scan-stitching pipeline, embedded and checked

    A shallow embedding of the two programs of the repository,
    [point_cloud_cleanup.cpp] (the parallel "cleanup" variant) and
    [source/main.cpp] with [source/stitched_cloud.cpp] (the sequential
    "stitching" variant), followed by the properties of the specification
    that were checked against it.

    Conventions of the embedding:
    - a C++ call either returns, throws, or has undefined behaviour; the
      three are the constructors of [outcome];
    - [std::size_t] is a 64-bit unsigned integer: a [Z] reduced modulo
      [2^64], with [npos = 2^64 - 1];
    - [std::vector<T>] is a [list T]; [v[i]] outside the vector is
      undefined behaviour, and so is [erase] at or past [end()];
    - [double] is the kernel's binary64 [float];
    - the PCL and Eigen primitives the programs call are fields of a record
      of operations: the programs are functions of them. *)

From Stdlib Require Import ZArith Lia Bool Ascii String List.
From Stdlib Require Import Permutation Sorted.
From Stdlib Require Import Floats.
From stdpp Require Import base tactics option list.

Import ListNotations.
Open Scope Z_scope.

(** ** Outcomes of a C++ call *)

Module Cxx.

(** The exceptions the programs can raise (all derive from [std::exception]). *)
Inductive exception : Type :=
| out_of_range
| invalid_argument
| domain_error.

(** Undefined behaviour the embedding tracks. *)
Inductive undefined : Type :=
| vector_index_out_of_bounds
| vector_erase_at_end
| signed_overflow
| no_forward_progress.

Inductive outcome (A : Type) : Type :=
| Ret (a : A)
| Throw (e : exception)
| UB (u : undefined).

Arguments Ret {A} a.
Arguments Throw {A} e.
Arguments UB {A} u.

Definition bind {A B : Type} (m : outcome A) (k : A -> outcome B) : outcome B :=
  match m with
  | Ret a => k a
  | Throw e => Throw e
  | UB u => UB u
  end.


(** [std::size_t] on the 64-bit targets the project builds for. *)
Definition size_max : Z := 2 ^ 64.
Definition npos : Z := size_max - 1.
Definition size_t_add (a b : Z) : Z := (a + b) mod size_max.
Definition size_t_sub (a b : Z) : Z := (a - b) mod size_max.

(** [int] is 32 bits wide. *)
Definition INT_MIN : Z := - 2 ^ 31.
Definition INT_MAX : Z := 2 ^ 31 - 1.

(** An [int] converted to [std::size_t], and back. *)
Definition to_size_t (n : Z) : Z := n mod size_max.
Definition to_int (n : Z) : Z := (n + 2 ^ 31) mod 2 ^ 32 - 2 ^ 31.

(** [a + b] on [int]: an overflow is undefined. *)
Definition int_add (a b : Z) : outcome Z :=
  let r := a + b in
  if (INT_MIN <=? r) && (r <=? INT_MAX) then Ret r else UB signed_overflow.

(** An [int] converted to [double] (exact below [2^53]). *)
Definition double_of_int (n : Z) : float :=
  if n <? 0 then PrimFloat.opp (PrimFloat.of_uint63 (Uint63.of_Z (- n)))
  else PrimFloat.of_uint63 (Uint63.of_Z n).

(** [v.size()]. *)
Definition vsize {A : Type} (v : list A) : Z := Z.of_nat (List.length v).

(** [v[i]]: no bounds check in the library, so any index outside
    [0 .. size - 1] is undefined behaviour. *)
Definition vget {A : Type} (v : list A) (i : Z) : outcome A :=
  if (0 <=? i) && (i <? vsize v) then
    match v !! Z.to_nat i with
    | Some a => Ret a
    | None => UB vector_index_out_of_bounds
    end
  else UB vector_index_out_of_bounds.

(** [v[i] = a]. *)
Definition vset {A : Type} (v : list A) (i : Z) (a : A) : outcome (list A) :=
  if (0 <=? i) && (i <? vsize v) then Ret (<[Z.to_nat i := a]> v)
  else UB vector_index_out_of_bounds.

(** [v.erase(v.begin() + i)]: the iterator has to point at an element. *)
Definition verase {A : Type} (v : list A) (i : Z) : outcome (list A) :=
  if (0 <=? i) && (i <? vsize v) then Ret (delete (Z.to_nat i) v)
  else UB vector_erase_at_end.

(** A [for] loop whose counter takes the values of [js] in turn. *)
Fixpoint for_each {S J : Type} (js : list J) (body : J -> S -> outcome S) (s : S)
  : outcome S :=
  match js with
  | [] => Ret s
  | j :: js' => bind (body j s) (for_each js' body)
  end.

(** The integers [lo, lo + 1, ..., hi - 1]. *)
Definition range (lo hi : Z) : list Z :=
  map (fun k => lo + Z.of_nat k) (seq 0 (Z.to_nat (hi - lo))).

End Cxx.

Export Cxx.

(** [let* x := m in k] sequences two calls: [k] runs when [m] returns. *)
Notation "'let*' x := m 'in' k" := (bind m (fun x => k))
  (at level 10, x name, m at level 100, k at level 200, only parsing).

(** ** [std::string] *)

Module Str.

Definition size (s : string) : Z := Z.of_nat (String.length s).

(** Position of the first occurrence of [needle] in [s], counted from [pos]. *)
Fixpoint find_at (needle s : string) (pos : nat) : option nat :=
  if String.prefix needle s then Some pos
  else match s with
       | EmptyString => None
       | String _ s' => find_at needle s' (S pos)
       end.

(** [s.find(needle)]: the position, or [npos]. *)
Definition find (s needle : string) : Z :=
  match find_at needle s 0 with
  | Some i => Z.of_nat i
  | None => npos
  end.

Fixpoint mem_char (c : ascii) (set : string) : bool :=
  match set with
  | EmptyString => false
  | String d set' => Ascii.eqb c d || mem_char c set'
  end.

(** Position of the last character of [s] that belongs to [set]. *)
Fixpoint find_last_of_at (set s : string) (pos : nat) : option nat :=
  match s with
  | EmptyString => None
  | String c s' =>
      match find_last_of_at set s' (S pos) with
      | Some i => Some i
      | None => if mem_char c set then Some pos else None
      end
  end.

(** [s.find_last_of(set)]: the position, or [npos]. *)
Definition find_last_of (s set : string) : Z :=
  match find_last_of_at set s 0 with
  | Some i => Z.of_nat i
  | None => npos
  end.

(** [s.substr(pos, n)]: throws [std::out_of_range] when [pos > size()],
    otherwise the [min(n, size() - pos)] characters from [pos] on. *)
Definition substr (s : string) (pos n : Z) : outcome string :=
  if size s <? pos then Throw out_of_range
  else Ret (String.substring (Z.to_nat pos) (Z.to_nat (Z.min n (size s - pos))) s).

(** [s.compare(t)]: negative, zero or positive; only the sign is specified. *)
Definition compare (s t : string) : Z :=
  match String.compare s t with
  | Eq => 0
  | Lt => -1
  | Gt => 1
  end.

(** A C++ [int] used as a condition. *)
Definition truthy (n : Z) : bool := negb (n =? 0).

(** [isspace] in the C locale: space, and the controls 9 to 13. *)
Definition is_space (c : ascii) : bool :=
  let n := Z.of_nat (nat_of_ascii c) in
  (n =? 32) || ((9 <=? n) && (n <=? 13)).

Definition digit_of (c : ascii) : option Z :=
  let n := Z.of_nat (nat_of_ascii c) in
  if (48 <=? n) && (n <=? 57) then Some (n - 48) else None.

Fixpoint skip_space (s : string) : string :=
  match s with
  | String c s' => if is_space c then skip_space s' else s
  | EmptyString => s
  end.

(** The longest run of decimal digits at the head of [s], read in base 10
    on top of [acc]; [None] when [s] starts with no digit and [seen] says
    that none was read before. *)
Fixpoint read_digits (s : string) (acc : Z) (seen : bool) : option Z :=
  match s with
  | String c s' =>
      match digit_of c with
      | Some d => read_digits s' (10 * acc + d) true
      | None => if seen then Some acc else None
      end
  | EmptyString => if seen then Some acc else None
  end.

(** [std::stoi(s)]: [strtol] in base 10 (white space, an optional sign, the
    digits, whatever follows is ignored); [std::invalid_argument] when no
    digit was read, [std::out_of_range] when the value is no [int]. *)
Definition stoi (s : string) : outcome Z :=
  let s1 := skip_space s in
  let '(negative, s2) :=
    match s1 with
    | String "-"%char r => (true, r)
    | String "+"%char r => (false, r)
    | _ => (false, s1)
    end in
  match read_digits s2 0 false with
  | None => Throw invalid_argument
  | Some n =>
      let v := if negative then - n else n in
      if (INT_MIN <=? v) && (v <=? INT_MAX) then Ret v else Throw out_of_range
  end.

End Str.

(** ** Selecting the frame files *)

Module FileFilter.

(** [filePredicate] of both programs (the two definitions are the same text):
    [true] asks [std::remove_if] to drop the entry.  The operands of [||]
    are evaluated left to right and the first true one ends the evaluation. *)
Definition filePredicate (s : string) : outcome bool :=
  let i := Str.find s "." in
  if negb (Str.truthy (Str.compare s ".")) then Ret true
  else if negb (Str.truthy (Str.compare s "..")) then Ret true
  else if negb (Str.truthy (Str.compare s "filtered.pcd")) then Ret true
  else let* ext := Str.substr s i 4 in
       Ret (Str.truthy (Str.compare ext ".pcd")).

(** [files.erase(std::remove_if(files.begin(), files.end(), filePredicate),
    files.end())]: the entries the predicate rejects are dropped, the order
    of the others is kept; an exception of the predicate leaves the call. *)
Fixpoint remove_non_pcd (files : list string) : outcome (list string) :=
  match files with
  | [] => Ret []
  | f :: rest =>
      let* rejected := filePredicate f in
      let* kept := remove_non_pcd rest in
      Ret (if rejected then kept else f :: kept)
  end.

(** The entry is kept as a frame file. *)
Definition eligible (s : string) : bool :=
  match filePredicate s with
  | Ret false => true
  | _ => false
  end.

(** The entry has a ['.'] somewhere. *)
Definition has_dot (s : string) : bool := Str.mem_char "."%char s.

End FileFilter.


(** ** The order in which the stitching program visits the frames *)

Module FrameOrder.

(** The number [compareFileNamesStruct::operator()] reads off one name
    (the operator holds this text twice, for [a] and then for [b]):
    the characters after the last ['D'] and before the first ['.']. *)
Definition extracted_index (a : string) : outcome Z :=
  let a_idx_start := size_t_add (Str.find_last_of a "D") 1 in
  let a_idx_end := Str.find a "." in
  let* digits := Str.substr a a_idx_start (size_t_sub a_idx_end a_idx_start) in
  Str.stoi digits.





(** [compareFilenames(a, b)]. *)
Definition compareFilenames (a b : string) : outcome bool :=
  let* a_int := extracted_index a in
  let* b_int := extracted_index b in
  Ret (a_int <? b_int).

(** One step of the insertion sort [std::sort] runs on a short range:
    [val] moves left past every element it compares less than. The
    sorted part is held last element first. *)
Fixpoint linear_insert (val : string) (sorted_rev : list string)
  : outcome (list string) :=
  match sorted_rev with
  | [] => Ret [val]
  | y :: rest =>
      let* less := compareFilenames val y in
      if less then
        let* rest' := linear_insert val rest in Ret (y :: rest')
      else Ret (val :: y :: rest)
  end.

Fixpoint insertion_sort (sorted_rev todo : list string) : outcome (list string) :=
  match todo with
  | [] => Ret (rev sorted_rev)
  | val :: todo' =>
      let* sorted_rev' := linear_insert val sorted_rev in
      insertion_sort sorted_rev' todo'
  end.

(** [std::sort(files_to_process.begin(), files_to_process.end(),
    compareFilenames)]; an exception of the comparator leaves the call. *)
Definition sort_files (files_to_process : list string) : outcome (list string) :=
  insertion_sort [] files_to_process.

(** The frames in the order [main] reads them: [files_to_process[0]] seeds
    the stitched cloud, the loop then visits [1 .. size - 1]. [None] is the
    early [return -1] on an empty list. *)
Definition frames_visited (listing : list string) : outcome (option (list string)) :=
  let* files_to_process := FileFilter.remove_non_pcd listing in
  if vsize files_to_process =? 0 then Ret None
  else let* sorted := sort_files files_to_process in Ret (Some sorted).

End FrameOrder.


(** ** The transform record store of the stitching program *)

Module TransformStore.

(** Modelled from the spec: the struct [TransformData] is declared in
    [stitched_cloud.h], which is not among the sources.  The spec gives its
    fields, [{dx, dy, dz, rotx, roty, rotz, confidence}], and the value of a
    record nothing was assigned to: zero pose and zero confidence. *)
Record TransformData : Type := mkTransformData {
  dx : float;
  dy : float;
  dz : float;
  rotx : float;
  roty : float;
  rotz : float;
  confidence : float
}.

Definition TransformData_default : TransformData :=
  mkTransformData 0 0 0 0 0 0 0.

(** *** Reading the file *)

(** The pieces [while (std::getline(iss, val, delim))] yields on a line:
    the text between the delimiters, without a last empty piece (at the
    end of the line the extraction reads nothing and fails). *)
Fixpoint getline_pieces (delim : ascii) (line : string) : list string :=
  match line with
  | EmptyString => []
  | String c rest =>
      if Ascii.eqb c delim then EmptyString :: getline_pieces delim rest
      else match getline_pieces delim rest with
           | [] => [String c EmptyString]
           | piece :: pieces => String c piece :: pieces
           end
  end.

Definition rows_to_skip : Z := 1.
Definition cols_to_skip : Z := 1.

Definition no_confidence_warning : string :=
  "WARNING: No confidence value given for transformation data.".

(** What [getTransformationData] has done when it is left: the records
    pushed to the caller's vector, the lines written to [std::cout]. *)
Record reader_state : Type := mkReaderState {
  translation_and_rotation_raw : list TransformData;
  cout : list string
}.

Section Reading.

(** [std::stod], the C library's conversion of decimal text to [double]:
    it throws [std::invalid_argument] or [std::out_of_range]. *)
Variable stod : string -> outcome float.

(** The inner [while]: the cells after the skipped columns, converted in
    order; the first conversion that throws ends the row. *)
Fixpoint convert_cells (col : Z) (pieces : list string) : outcome (list float) :=
  match pieces with
  | [] => Ret []
  | val :: pieces' =>
      if cols_to_skip >? col then convert_cells (col + 1) pieces'
      else
        let* d := stod val in
        let* ds := convert_cells (col + 1) pieces' in
        Ret (d :: ds)
  end.

(** From [TransformData t_data;] to the [push_back]: the record of one row
    and whether the warning was printed. *)
Definition record_of_row (transformVec : list float) : outcome (TransformData * bool) :=
  let t_data := TransformData_default in
  if vsize transformVec <? 6 then Throw domain_error
  else
    let* v0 := vget transformVec 0 in
    let* v1 := vget transformVec 1 in
    let* v2 := vget transformVec 2 in
    let* v3 := vget transformVec 3 in
    let* v4 := vget transformVec 4 in
    let* v5 := vget transformVec 5 in
    let t_data :=
      mkTransformData v3 v4 v5 v0 v1 v2 (confidence t_data) in
    if vsize transformVec >? 6 then
      let* v6 := vget transformVec 6 in
      Ret (mkTransformData (dx t_data) (dy t_data) (dz t_data)
             (rotx t_data) (roty t_data) (rotz t_data) v6, false)
    else Ret (t_data, true).

(** One data row of the file. *)
Definition parse_row (delim : ascii) (line : string) : outcome (TransformData * bool) :=
  let* transformVec := convert_cells 0 (getline_pieces delim line) in
  record_of_row transformVec.

(** The outer [while] from line number [row + 1] on.  An exception leaves
    the function with the records pushed so far in the caller's vector. *)
Fixpoint read_rows (delim : ascii) (lines : list string) (row : Z) (st : reader_state)
  : reader_state * outcome unit :=
  match lines with
  | [] => (st, Ret tt)
  | line :: lines' =>
      let row := row + 1 in
      if rows_to_skip >? row then read_rows delim lines' row st
      else
        match parse_row delim line with
        | Ret (t_data, warned) =>
            read_rows delim lines' row
              (mkReaderState (translation_and_rotation_raw st ++ [t_data])
                 (if warned then cout st ++ [no_confidence_warning] else cout st))
        | Throw e => (st, Throw e)
        | UB u => (st, UB u)
        end
  end.

(** [getTransformationData(infile, translation_and_rotation_raw, delim)],
    the file given by its lines. *)
Definition getTransformationData (infile : list string)
    (translation_and_rotation_raw : list TransformData) (delim : ascii)
  : reader_state * outcome unit :=
  read_rows delim infile (-1) (mkReaderState translation_and_rotation_raw []).

End Reading.

(** *** Averaging the rows of each frame *)

Definition add_record (a b : TransformData) : TransformData :=
  mkTransformData (dx a + dx b) (dy a + dy b) (dz a + dz b)
    (rotx a + rotx b) (roty a + roty b) (rotz a + rotz b)
    (confidence a + confidence b).

Definition div_record (a : TransformData) (vals_per_cloud : Z) : TransformData :=
  let n := double_of_int vals_per_cloud in
  mkTransformData (dx a / n) (dy a / n) (dz a / n)
    (rotx a / n) (roty a / n) (rotz a / n) (confidence a / n).

(** The body of the inner [for]: seven statements
    [transformations[i].f += transformations[i+j].f].  [j >= 1], so the two
    elements are different ones and the seven updates are one update of
    the record at [i]. *)
Definition accumulate (i j : Z) (transformations : list TransformData)
  : outcome (list TransformData) :=
  let* ti := vget transformations i in
  let* tj := vget transformations (i + j) in
  vset transformations i (add_record ti tj).

(** The seven statements [transformations[i].f /= vals_per_cloud]. *)
Definition divide (vals_per_cloud i : Z) (transformations : list TransformData)
  : outcome (list TransformData) :=
  let* ti := vget transformations i in
  vset transformations i (div_record ti vals_per_cloud).

(** What a statement of the loops can do to the vector: read outside it,
    or leave it with the size it had. *)
Definition out_of_bounds_or_same_length
    (ts : list TransformData) (r : outcome (list TransformData)) : Prop :=
  r = UB vector_index_out_of_bounds
  \/ exists ts', r = Ret ts' /\ vsize ts' = vsize ts.

(** The first loop,
    [for (int i = 0; i < transformations.size() + vals_per_cloud; i += vals_per_cloud)],
    from the test of its condition at [i]; the comparison is one of
    [std::size_t]. A loop that never ends and does no input or output has
    undefined behaviour: that is the answer when [fuel] runs out. *)
Fixpoint average_loop (fuel : nat) (vals_per_cloud i : Z)
    (transformations : list TransformData) : outcome (list TransformData) :=
  if to_size_t i <? size_t_add (vsize transformations) (to_size_t vals_per_cloud) then
    match fuel with
    | O => UB no_forward_progress
    | S fuel' =>
        let* summed :=
          for_each (range 1 vals_per_cloud) (accumulate i) transformations in
        let* averaged := divide vals_per_cloud i summed in
        let* i' := int_add i vals_per_cloud in
        average_loop fuel' vals_per_cloud i' averaged
    end
  else Ret transformations.

(** The second loop, [while (i < transformations.size())], whose body
    erases [vals_per_cloud] times the element after [i]. *)
Fixpoint erase_loop (fuel : nat) (vals_per_cloud i : Z)
    (transformations : list TransformData) : outcome (list TransformData) :=
  if to_size_t i <? vsize transformations then
    match fuel with
    | O => UB no_forward_progress
    | S fuel' =>
        let* erased :=
          for_each (range 0 vals_per_cloud) (fun _ v => verase v (i + 1))
            transformations in
        let* i' := int_add i 1 in
        erase_loop fuel' vals_per_cloud i' erased
    end
  else Ret transformations.

(** [averageTransformationData(transformations, vals_per_cloud)].  Both
    loops end within [size + 2] rounds unless they never end. *)
Definition averageTransformationData (transformations : list TransformData)
    (vals_per_cloud : Z) : outcome (list TransformData) :=
  let fuel := S (S (List.length transformations)) in
  let* averaged := average_loop fuel vals_per_cloud 0 transformations in
  erase_loop fuel vals_per_cloud 0 averaged.

(** What [main] does with the [-t] file: an exception of the reader is
    caught and dropped, the averaging runs on whatever was read. *)
Definition load_transformations (stod : string -> outcome float) (infile : list string)
  : list string * outcome (list TransformData) :=
  let '(st, _) := getTransformationData stod infile [] ";" in
  (cout st, averageTransformationData (translation_and_rotation_raw st) 10).

End TransformStore.

(** ** Points, clouds and the library's filters *)

Module Geometry.

(** The single-precision numbers of PCL's points and of Eigen's [float]
    matrices, with the conversions and the operations the programs use. *)
Class Float32 : Type := {
  f32 : Type;
  f32_of_double : float -> f32;
  f32_of_int : Z -> f32;
  f32_add : f32 -> f32 -> f32;
  f32_sub : f32 -> f32 -> f32;
  f32_mul : f32 -> f32 -> f32;
  f32_cos : f32 -> f32;
  f32_sin : f32 -> f32;
  f32_ltb : f32 -> f32 -> bool;
  f32_is_finite : f32 -> bool
}.

Section Clouds.

Context {F : Float32}.

(** [pcl::PointXYZ]. *)
Record PointXYZ : Type := mkPoint { x : f32; y : f32; z : f32 }.

(** [pcl::PointCloud<pcl::PointXYZ>]: the points, in order. *)
Abbreviation PointCloud := (list PointXYZ).

Inductive field : Type := field_x | field_y | field_z.

Definition field_value (f : field) (p : PointXYZ) : f32 :=
  match f with
  | field_x => x p
  | field_y => y p
  | field_z => z p
  end.

(** What [pcl::PassThrough] keeps: a point with finite coordinates whose
    field is neither below the lower limit nor above the upper one. *)
Definition passes (f : field) (limit_min limit_max : f32) (p : PointXYZ) : bool :=
  f32_is_finite (x p) && f32_is_finite (y p) && f32_is_finite (z p)
  && negb (f32_ltb (field_value f p) limit_min)
  && negb (f32_ltb limit_max (field_value f p)).

(** [pass.setInputCloud(c); pass.setFilterFieldName(f);
    pass.setFilterLimits(limit_min, limit_max); pass.filter(out)]. *)
Definition PassThrough (f : field) (limit_min limit_max : f32) (c : PointCloud)
  : PointCloud :=
  List.filter (passes f limit_min limit_max) c.

(** [pcl::copyPointCloud(cloud_in, indices, cloud_out)]: the points at
    [indices], in that order; an index outside the cloud is read outside
    its vector. *)
Fixpoint copyPointCloud (cloud_in : PointCloud) (indices : list Z) : outcome PointCloud :=
  match indices with
  | [] => Ret []
  | k :: indices' =>
      let* p := vget cloud_in k in
      let* ps := copyPointCloud cloud_in indices' in
      Ret (p :: ps)
  end.

(** The algorithms of PCL the programs call and do not implement. *)
Class PCL : Type := {
  (** [StatisticalOutlierRemoval] with [setMeanK] and [setStddevMulThresh] *)
  statistical_outlier_removal : Z -> float -> PointCloud -> PointCloud;
  (** [VoxelGrid] with a cubic leaf *)
  voxel_grid : f32 -> PointCloud -> PointCloud;
  (** [RandomSampleConsensus] over a plane model: distance threshold,
      cloud, and the inlier indices [getInliers] hands out *)
  ransac_plane_inliers : float -> PointCloud -> list Z;
  normals : Type;
  features : Type;
  (** [NormalEstimationOMP] with [setKSearch] *)
  normal_estimation : Z -> PointCloud -> normals;
  (** [FPFHEstimationOMP] with [setKSearch] *)
  fpfh_estimation : Z -> PointCloud -> normals -> features;
  (** [SampleConsensusInitialAlignment::align]: iterations, source with
      its features, target with its features; the aligned source *)
  sac_ia_align : Z -> PointCloud -> features -> PointCloud -> features -> PointCloud;
  (** [IterativeClosestPoint::align]: iterations, source, target *)
  icp_align : Z -> PointCloud -> PointCloud -> PointCloud;
  (** [PCDReader::read]: the cloud stored under a path *)
  read_pcd : string -> PointCloud
}.

(** *** Eigen's affine transforms *)

Record Vector3f : Type := mkVec { v0 : f32; v1 : f32; v2 : f32 }.

Record Matrix3f : Type := mkMat {
  m00 : f32; m01 : f32; m02 : f32;
  m10 : f32; m11 : f32; m12 : f32;
  m20 : f32; m21 : f32; m22 : f32
}.

Definition f0 : f32 := f32_of_int 0.
Definition f1 : f32 := f32_of_int 1.

Definition dot3 (a0 a1 a2 b0 b1 b2 : f32) : f32 :=
  f32_add (f32_add (f32_mul a0 b0) (f32_mul a1 b1)) (f32_mul a2 b2).

Definition mat_mul (a b : Matrix3f) : Matrix3f :=
  mkMat
    (dot3 (m00 a) (m01 a) (m02 a) (m00 b) (m10 b) (m20 b))
    (dot3 (m00 a) (m01 a) (m02 a) (m01 b) (m11 b) (m21 b))
    (dot3 (m00 a) (m01 a) (m02 a) (m02 b) (m12 b) (m22 b))
    (dot3 (m10 a) (m11 a) (m12 a) (m00 b) (m10 b) (m20 b))
    (dot3 (m10 a) (m11 a) (m12 a) (m01 b) (m11 b) (m21 b))
    (dot3 (m10 a) (m11 a) (m12 a) (m02 b) (m12 b) (m22 b))
    (dot3 (m20 a) (m21 a) (m22 a) (m00 b) (m10 b) (m20 b))
    (dot3 (m20 a) (m21 a) (m22 a) (m01 b) (m11 b) (m21 b))
    (dot3 (m20 a) (m21 a) (m22 a) (m02 b) (m12 b) (m22 b)).

Definition UnitX : Vector3f := mkVec f1 f0 f0.
Definition UnitY : Vector3f := mkVec f0 f1 f0.
Definition UnitZ : Vector3f := mkVec f0 f0 f1.

(** [Eigen::AngleAxisf(angle, axis).toRotationMatrix()], as Eigen
    computes it (Rodrigues' formula). *)
Definition AngleAxisf (angle : f32) (axis : Vector3f) : Matrix3f :=
  let s := f32_sin angle in
  let c := f32_cos angle in
  let sin_x := f32_mul s (v0 axis) in
  let sin_y := f32_mul s (v1 axis) in
  let sin_z := f32_mul s (v2 axis) in
  let cos1_x := f32_mul (f32_sub f1 c) (v0 axis) in
  let cos1_y := f32_mul (f32_sub f1 c) (v1 axis) in
  let cos1_z := f32_mul (f32_sub f1 c) (v2 axis) in
  let xy := f32_mul cos1_x (v1 axis) in
  let xz := f32_mul cos1_x (v2 axis) in
  let yz := f32_mul cos1_y (v2 axis) in
  mkMat
    (f32_add (f32_mul cos1_x (v0 axis)) c) (f32_sub xy sin_z) (f32_add xz sin_y)
    (f32_add xy sin_z) (f32_add (f32_mul cos1_y (v1 axis)) c) (f32_sub yz sin_x)
    (f32_sub xz sin_y) (f32_add yz sin_x) (f32_add (f32_mul cos1_z (v2 axis)) c).

(** [Eigen::Affine3f]: the linear part and the translation. *)
Record Affine3f : Type := mkAffine { linear : Matrix3f; translation : Vector3f }.

Definition Identity : Affine3f :=
  mkAffine (mkMat f1 f0 f0 f0 f1 f0 f0 f0 f1) (mkVec f0 f0 f0).

(** [transform.translation() << a, b, c]. *)
Definition set_translation (t : Affine3f) (a b c : f32) : Affine3f :=
  mkAffine (linear t) (mkVec a b c).

(** [transform.rotate(r)]: the rotation is applied on the right. *)
Definition rotate (t : Affine3f) (r : Matrix3f) : Affine3f :=
  mkAffine (mat_mul (linear t) r) (translation t).

(** The linear part after three calls of [rotate]: the rotations by
    three angles about x, then y, then z, each applied on the right of
    the one before. *)
Definition rotation_xyz (rotx roty rotz : f32) : Matrix3f :=
  mat_mul
    (mat_mul (mat_mul (linear Identity) (AngleAxisf rotx UnitX)) (AngleAxisf roty UnitY))
    (AngleAxisf rotz UnitZ).

Definition apply_affine (t : Affine3f) (p : PointXYZ) : PointXYZ :=
  let l := linear t in
  mkPoint
    (f32_add (dot3 (m00 l) (m01 l) (m02 l) (x p) (y p) (z p)) (v0 (translation t)))
    (f32_add (dot3 (m10 l) (m11 l) (m12 l) (x p) (y p) (z p)) (v1 (translation t)))
    (f32_add (dot3 (m20 l) (m21 l) (m22 l) (x p) (y p) (z p)) (v2 (translation t))).

(** [pcl::transformPointCloud(c, c, t)]. *)
Definition transformPointCloud (c : PointCloud) (t : Affine3f) : PointCloud :=
  map (apply_affine t) c.

End Clouds.

Abbreviation PointCloud := (list PointXYZ).

End Geometry.

Export Geometry.

(** ** The wall segmenter of the cleanup program *)

Module WallSegmenter.

Section Segmenter.

Context {F : Float32} {P : PCL}.

Definition thresh : float := 0x1.999999999999ap-4%float.

(** The two clouds the loops of [rectangularThreshold] work on. *)
Record clouds : Type := mkClouds { ret_cloud : PointCloud; tmp_cloud : PointCloud }.

(** The body of [for (int j = 0; j > -5; --j)] on the region [sub_cloud]. *)
Definition fit_band (sub_cloud : PointCloud) (j : Z) (st : clouds) : outcome clouds :=
  let tmp := PassThrough field_z (f32_of_int (j - 1)) (f32_of_int j) sub_cloud in
  if vsize tmp <? 5 then Ret st
  else
    let inliers := ransac_plane_inliers thresh tmp in
    let* copied := copyPointCloud tmp inliers in
    Ret (mkClouds (ret_cloud st ++ copied) copied).

(** The body of [for (int i = 0; i < 4; ++i)]. *)
Definition fit_region (src_cloud : PointCloud) (thresh_range : list float) (i : Z)
    (st : clouds) : outcome clouds :=
  let* sub_cloud :=
    if i <? 2 then
      let* lo := vget thresh_range i in
      let* hi := vget thresh_range (i + 1) in
      Ret (PassThrough field_x (f32_of_double lo) (f32_of_double hi) src_cloud)
    else
      let* lo := vget thresh_range (i + 1) in
      let* hi := vget thresh_range (i + 2) in
      Ret (PassThrough field_y (f32_of_double lo) (f32_of_double hi) src_cloud) in
  if vsize sub_cloud <? 5 then Ret st
  else
    let sub_cloud := statistical_outlier_removal 50 1 sub_cloud in
    for_each [0; -1; -2; -3; -4] (fit_band sub_cloud) st.

(** [rectangularThreshold(src_cloud, thresh_range)]. *)
Definition rectangularThreshold (src_cloud : PointCloud) (thresh_range : list float)
  : outcome PointCloud :=
  let* st := for_each [0; 1; 2; 3] (fit_region src_cloud thresh_range) (mkClouds [] []) in
  Ret (ret_cloud st).

(** A round of a loop adds [added] to the cloud that is returned. *)
Definition appends (added : PointCloud) (st : clouds) (r : outcome clouds) : Prop :=
  exists tmp, r = Ret (mkClouds (ret_cloud st ++ added) tmp).

(** *** The segmentation in the words of the specification *)

(** The four lateral regions: x-low, x-high, y-low, y-high. *)
Definition lateral_regions (cloud : PointCloud)
    (min_x mid_x max_x min_y mid_y max_y : float) : list PointCloud :=
  [ PassThrough field_x (f32_of_double min_x) (f32_of_double mid_x) cloud;
    PassThrough field_x (f32_of_double mid_x) (f32_of_double max_x) cloud;
    PassThrough field_y (f32_of_double min_y) (f32_of_double mid_y) cloud;
    PassThrough field_y (f32_of_double mid_y) (f32_of_double max_y) cloud ].

(** The five bands of width 1 that cover [z] in [-5, 0], nearest first. *)
Definition bands (region : PointCloud) : list PointCloud :=
  [ PassThrough field_z (f32_of_int (-1)) (f32_of_int 0) region;
    PassThrough field_z (f32_of_int (-2)) (f32_of_int (-1)) region;
    PassThrough field_z (f32_of_int (-3)) (f32_of_int (-2)) region;
    PassThrough field_z (f32_of_int (-4)) (f32_of_int (-3)) region;
    PassThrough field_z (f32_of_int (-5)) (f32_of_int (-4)) region ].

(** The points of a band that the plane fit calls inliers. *)
Definition inlier_points (band : PointCloud) : PointCloud :=
  flat_map (fun k => match band !! Z.to_nat k with Some p => [p] | None => [] end)
    (ransac_plane_inliers thresh band).

Definition band_result (band : PointCloud) : PointCloud :=
  if vsize band <? 5 then [] else inlier_points band.

Definition region_result (region : PointCloud) : PointCloud :=
  if vsize region <? 5 then []
  else concat (map band_result (bands (statistical_outlier_removal 50 1 region))).

Definition segment_spec (cloud : PointCloud)
    (min_x mid_x max_x min_y mid_y max_y : float) : PointCloud :=
  concat (map region_result (lateral_regions cloud min_x mid_x max_x min_y mid_y max_y)).

(** What the plane fit owes its caller: indices into the cloud it was given. *)
Definition inliers_in_range : Prop :=
  forall (threshold : float) (c : PointCloud),
    Forall (fun k => 0 <= k < vsize c) (ransac_plane_inliers threshold c).

End Segmenter.

End WallSegmenter.

(** ** The cleanup program: [point_cloud_cleanup.cpp] *)

Module Cleanup.

Section Program.

Context {F : Float32} {P : PCL}.

(** The globals [processPCD] reads. *)
Record globals : Type := mkGlobals {
  translation_and_rotation : list (list float);
  transformations_file_supplied : bool
}.

(** [int idx = path.find("."); int i = stoi(path.substr(idx-1,1));] and
    the row [translation_and_rotation[i]]. *)
Definition prior_row (g : globals) (path : string) : outcome (list float) :=
  let idx := to_int (Str.find path ".") in
  let* digit := Str.substr path (to_size_t (idx - 1)) 1 in
  let* i := Str.stoi digit in
  vget (translation_and_rotation g) i.

(** The [Eigen::Affine3f] built between the braces of
    [if (transformations_file_supplied)]. *)
Definition prior_transform (row : list float) : outcome Affine3f :=
  let transform := Identity in
  let* t0 := vget row 0 in
  let* t1 := vget row 1 in
  let* t2 := vget row 2 in
  let transform :=
    set_translation transform
      (f32_of_double (-1 * t0)) (f32_of_double (-1 * t1)) (f32_of_double (-1 * t2)) in
  let* rotx := vget row 3 in
  let* roty := vget row 4 in
  let* rotz := vget row 5 in
  let transform := rotate transform (AngleAxisf (f32_of_double (-1 * rotx)) UnitX) in
  let transform := rotate transform (AngleAxisf (f32_of_double (-1 * roty)) UnitY) in
  let transform := rotate transform (AngleAxisf (f32_of_double (-1 * rotz)) UnitZ) in
  Ret transform.

(** "Rotation and translation": the cloud read from the file, corrected
    by the prior when a transformations file was supplied. *)
Definition correct_pose (g : globals) (path : string) (src_cloud : PointCloud)
  : outcome PointCloud :=
  if transformations_file_supplied g then
    let* row := prior_row g path in
    let* transform := prior_transform row in
    Ret (transformPointCloud src_cloud transform)
  else Ret src_cloud.

(** "Passthrough filter": [pass.setFilterLimits(-5, 0)] on [z]. *)
Definition depth_filter (src_cloud : PointCloud) : PointCloud :=
  PassThrough field_z (f32_of_int (-5)) (f32_of_int 0) src_cloud.

(** "RANSAC plane fit". *)
Definition plane_fit (filtered_cloud : PointCloud) : outcome PointCloud :=
  WallSegmenter.rectangularThreshold filtered_cloud [-5; 0; 5; -5; 0; 5]%float.

(** *** The workers *)

(** The memory the threads share: the two clouds [main] hands to every
    [processPCD] by pointer, and the owner of [stitch_mutex]. *)
Record shared : Type := mkShared {
  src_cloud : PointCloud;
  stitched_cloud : PointCloud;
  stitch_mutex : option nat
}.

(** Where a worker stands in [processPCD]: before the statement named. *)
Inductive label : Type :=
| at_read
| at_correct_pose
| at_depth_filter
| at_plane_fit
| at_lock
| at_append
| at_unlock
| finished.

(** A thread running [processPCD(path, src_cloud, stitched_cloud)]: its
    argument, its local cloud and its place. *)
Record worker : Type := mkWorker {
  path : string;
  filtered_cloud : PointCloud;
  place : label
}.

(** One statement of worker [tid].  [None]: the worker cannot move (it
    waits for the mutex, or it has returned). *)
Definition step_worker (g : globals) (tid : nat) (sh : shared) (w : worker)
  : option (outcome (shared * worker)) :=
  match place w with
  | at_read =>
      Some (Ret (mkShared (read_pcd (path w)) (stitched_cloud sh) (stitch_mutex sh),
                 mkWorker (path w) (filtered_cloud w) at_correct_pose))
  | at_correct_pose =>
      Some (let* corrected := correct_pose g (path w) (src_cloud sh) in
            Ret (mkShared corrected (stitched_cloud sh) (stitch_mutex sh),
                 mkWorker (path w) (filtered_cloud w) at_depth_filter))
  | at_depth_filter =>
      Some (Ret (sh, mkWorker (path w) (depth_filter (src_cloud sh)) at_plane_fit))
  | at_plane_fit =>
      Some (let* fitted := plane_fit (filtered_cloud w) in
            Ret (sh, mkWorker (path w) fitted at_lock))
  | at_lock =>
      match stitch_mutex sh with
      | None =>
          Some (Ret (mkShared (src_cloud sh) (stitched_cloud sh) (Some tid),
                     mkWorker (path w) (filtered_cloud w) at_append))
      | Some _ => None
      end
  | at_append =>
      Some (Ret (mkShared (src_cloud sh) (stitched_cloud sh ++ filtered_cloud w)
                   (stitch_mutex sh),
                 mkWorker (path w) (filtered_cloud w) at_unlock))
  | at_unlock =>
      Some (Ret (mkShared (src_cloud sh) (stitched_cloud sh) None,
                 mkWorker (path w) (filtered_cloud w) finished))
  | finished => None
  end.

(** The program with its threads. *)
Record config : Type := mkConfig { memory : shared; workers : list worker }.

(** The threads [main] starts, one per file, none of them run yet. *)
Definition spawned (directory : string) (files_to_process : list string) : config :=
  mkConfig (mkShared [] [] None)
    (map (fun f => mkWorker (String.append directory f) [] at_read) files_to_process).

(** Thread [tid] runs one statement. *)
Definition step (g : globals) (tid : nat) (c : config) : option (outcome config) :=
  match workers c !! tid with
  | None => None
  | Some w =>
      match step_worker g tid (memory c) w with
      | None => None
      | Some (Ret (sh, w')) => Some (Ret (mkConfig sh (<[tid := w']> (workers c))))
      | Some (Throw e) => Some (Throw e)
      | Some (UB u) => Some (UB u)
      end
  end.

(** The configurations an execution passes through, whatever the
    scheduler picks. A statement that throws or is undefined ends the
    program: no configuration follows it. *)
Inductive reachable (g : globals) (start : config) : config -> Prop :=
| reach_start : reachable g start start
| reach_step (c c' : config) (tid : nat) :
    reachable g start c ->
    step g tid c = Some (Ret c') ->
    reachable g start c'.

(** The scheduler picks the threads of [schedule] in turn; a thread that
    cannot move is passed over, a statement that throws or is undefined
    ends the run. *)
Fixpoint run (g : globals) (schedule : list nat) (c : config) : config :=
  match schedule with
  | [] => c
  | tid :: rest =>
      match step g tid c with
      | Some (Ret c') => run g rest c'
      | Some _ => c
      | None => run g rest c
      end
  end.

(** The worker holds [lock]: it stands between the construction of the
    [std::lock_guard] and the end of its scope. *)
Definition in_critical_section (w : worker) : bool :=
  match place w with
  | at_append | at_unlock => true
  | _ => false
  end.

(** The local cloud of the worker is what the steps before its place
    have made of some corrected cloud. *)
Definition preprocessed (w : worker) : Prop :=
  match place w with
  | at_read | at_correct_pose | at_depth_filter => True
  | at_plane_fit => exists corrected, filtered_cloud w = depth_filter corrected
  | at_lock | at_append | at_unlock | finished =>
      exists corrected, plane_fit (depth_filter corrected) = Ret (filtered_cloud w)
  end.

(** What every configuration of an execution satisfies. *)
Record lock_invariant (c : config) : Prop := mkLockInvariant {
  inside_holds :
    forall tid w, workers c !! tid = Some w ->
      in_critical_section w = true -> stitch_mutex (memory c) = Some tid;
  holder_inside :
    forall tid, stitch_mutex (memory c) = Some tid ->
      exists w, workers c !! tid = Some w /\ in_critical_section w = true;
  workers_preprocessed :
    forall tid w, workers c !! tid = Some w -> preprocessed w
}.

(** The discipline of [stitch_mutex] in a configuration: a worker owns
    the mutex exactly while it stands at the append or at the release
    after it; the worker that owns it has finished its preprocessing; and
    a statement that changes the stitched cloud is run by the owner. *)
Definition lock_discipline (g : globals) (c : config) : Prop :=
  (forall tid w, workers c !! tid = Some w ->
     (stitch_mutex (memory c) = Some tid <->
      place w = at_append \/ place w = at_unlock))
  /\ (forall tid w, workers c !! tid = Some w ->
        stitch_mutex (memory c) = Some tid ->
        exists corrected, plane_fit (depth_filter corrected) = Ret (filtered_cloud w))
  /\ (forall tid c', step g tid c = Some (Ret c') ->
        stitched_cloud (memory c') = stitched_cloud (memory c)
        \/ stitch_mutex (memory c) = Some tid).

(** [processPCD] run by one thread from beginning to end. *)
Definition processPCD (g : globals) (path : string) (sh : shared) : outcome shared :=
  let src := read_pcd path in
  let* corrected := correct_pose g path src in
  let filtered := depth_filter corrected in
  let* fitted := plane_fit filtered in
  Ret (mkShared corrected (stitched_cloud sh ++ fitted) (stitch_mutex sh)).

End Program.

End Cleanup.

(** ** The stitching program: [stitched_cloud.cpp] and [main.cpp] *)

Module Stitching.

Import TransformStore.

Section Program.

Context {F : Float32} {P : PCL}.

(** The helper functions at the end of [stitched_cloud.cpp]; each
    overwrites the cloud it is given. *)
Definition removeOutliers (cloud : PointCloud) (num_neighbours stddev : Z) : PointCloud :=
  statistical_outlier_removal num_neighbours (double_of_int stddev) cloud.

Definition downSample (cloud : PointCloud) (leaf_size : Z) : PointCloud :=
  voxel_grid (f32_of_int leaf_size) cloud.

(** The [Eigen::Affine3f] that [transform(cloud, t)] builds. *)
Definition transform_affine (t : TransformData) : Affine3f :=
  let transform := Identity in
  let transform :=
    set_translation transform
      (f32_of_double (dx t)) (f32_of_double (dy t)) (f32_of_double (dz t)) in
  let transform := rotate transform (AngleAxisf (f32_of_double (- rotx t)) UnitX) in
  let transform := rotate transform (AngleAxisf (f32_of_double (- roty t)) UnitY) in
  let transform := rotate transform (AngleAxisf (f32_of_double (- rotz t)) UnitZ) in
  transform.

Definition transform (cloud : PointCloud) (t : TransformData) : PointCloud :=
  transformPointCloud cloud (transform_affine t).

Definition filterRangeZ (cloud : PointCloud) (minZ maxZ : float) : PointCloud :=
  PassThrough field_z (f32_of_double minZ) (f32_of_double maxZ) cloud.

(** An object of class [StitchedCloud], and what
    [pcl::console::print_highlight] has written. *)
Record StitchedCloud : Type := mkStitched {
  stitched_cloud : PointCloud;
  console : list string
}.

Definition print_highlight (self : StitchedCloud) (text : string) : StitchedCloud :=
  mkStitched (stitched_cloud self) (console self ++ [text]).

(** [StitchedCloud::StitchedCloud(point_cloud)]. *)
Definition StitchedCloud_new (point_cloud : PointCloud) : StitchedCloud :=
  let stitched_cloud := point_cloud in
  let stitched_cloud := removeOutliers stitched_cloud 100 2 in
  let stitched_cloud := downSample stitched_cloud 100 in
  let stitched_cloud := filterRangeZ stitched_cloud 0 10000 in
  mkStitched stitched_cloud [].

(** [StitchedCloud::registerWithICP(cloud, iters)]: the object and the
    cloud after the call. *)
Definition registerWithICP (self : StitchedCloud) (cloud : PointCloud) (iters : Z)
  : StitchedCloud * PointCloud :=
  let self := print_highlight self "Iterative closest point" in
  (self, icp_align iters cloud (stitched_cloud self)).

(** [StitchedCloud::registerWithSAC(cloud, iters)]. *)
Definition registerWithSAC (self : StitchedCloud) (cloud : PointCloud) (iters : Z)
  : StitchedCloud * PointCloud :=
  let self := print_highlight self "Normals" in
  let src_normals := normal_estimation 100 cloud in
  let stitched_normals := normal_estimation 100 (stitched_cloud self) in
  let self := print_highlight self "Fast point feature histogram" in
  let src_features := fpfh_estimation 250 cloud src_normals in
  let stitched_features := fpfh_estimation 250 (stitched_cloud self) stitched_normals in
  let self := print_highlight self "Sample consensus initial alignment" in
  (self, sac_ia_align iters cloud src_features (stitched_cloud self) stitched_features).

(** [StitchedCloud::addCloud(new_cloud, transformation)]. *)
Definition addCloud (self : StitchedCloud) (new_cloud : PointCloud)
    (transformation : TransformData) : StitchedCloud :=
  let self := print_highlight self "Remove outliers" in
  let new_cloud := removeOutliers new_cloud 100 1 in
  let self := print_highlight self "Downsample (1)" in
  let new_cloud := downSample new_cloud 100 in
  let self := print_highlight self "Transform" in
  let new_cloud := transform new_cloud transformation in
  let self := print_highlight self "Passthrough filter" in
  let new_cloud := filterRangeZ new_cloud 0 10000 in
  let '(self, new_cloud) := registerWithSAC self new_cloud 10 in
  let '(self, new_cloud) := registerWithICP self new_cloud 10 in
  let self := mkStitched (stitched_cloud self ++ new_cloud) (console self) in
  let self := print_highlight self "Downsample (2)" in
  mkStitched (downSample (stitched_cloud self) 100) (console self).

(** The lines [addCloud] writes, in order. *)
Definition addCloud_lines : list string :=
  [ "Remove outliers"; "Downsample (1)"; "Transform"; "Passthrough filter";
    "Normals"; "Fast point feature histogram"; "Sample consensus initial alignment";
    "Iterative closest point"; "Downsample (2)" ]%string.

(** [pcl::removeNaNFromPointCloud(c, c, tmp)]. *)
Definition removeNaNFromPointCloud (c : PointCloud) : PointCloud :=
  List.filter
    (fun p => f32_is_finite (x p) && f32_is_finite (y p) && f32_is_finite (z p)) c.

(** [operator-] on [TransformData] is declared with the struct, in the
    header that is not among the sources: [main] is given it. *)
Variable minus : TransformData -> TransformData -> TransformData.

(** The loop of [main] over [files_to_process[i]], [i = 1 ..]. *)
Definition add_frame (directory : string) (files_to_process : list string)
    (cloud_transformations : list TransformData) (i : Z) (self : StitchedCloud)
  : outcome StitchedCloud :=
  let* file := vget files_to_process i in
  let new_cloud := read_pcd (String.append directory file) in
  let new_cloud := removeNaNFromPointCloud new_cloud in
  let* ti := vget cloud_transformations i in
  let* t0 := vget cloud_transformations 0 in
  Ret (addCloud self new_cloud (minus ti t0)).

(** "Process Point Clouds" in [main]: the sorted files, first the one
    that seeds the stitched cloud, then the others. *)
Definition stitch (directory : string) (files_to_process : list string)
    (cloud_transformations : list TransformData) : outcome StitchedCloud :=
  let* first := vget files_to_process 0 in
  let first_cloud := read_pcd (String.append directory first) in
  let stitchedCloud := StitchedCloud_new first_cloud in
  for_each (range 1 (vsize files_to_process))
    (add_frame directory files_to_process cloud_transformations) stitchedCloud.

End Program.

End Stitching.

(** ** [main] of the cleanup program *)

Module CleanupMain.

(** *** Reading the transformations file *)

Definition rows_to_skip : Z := 2.
Definition cols_to_skip : Z := 2.

Section Priors.

(** [while (iss >> val)] on one line: the numbers the extraction yields
    before it fails, by the stream library. *)
Variable extract_doubles : string -> list float.

(** The inner [while] on the values of one line:
    [translation_and_rotation_raw[row - rows_to_skip].push_back(val)] for
    every value after the skipped columns; [index] is
    [row - rows_to_skip]. *)
Fixpoint store_values (raw : list (list float)) (index col : Z) (vals : list float)
  : outcome (list (list float)) :=
  match vals with
  | [] => Ret raw
  | val :: vals' =>
      if cols_to_skip >? col then store_values raw index (col + 1) vals'
      else
        let* current := vget raw index in
        let* raw' := vset raw index (current ++ [val]) in
        store_values raw' index (col + 1) vals'
  end.

(** The outer [while (std::getline(infile, line))] from line [row + 1] on. *)
Fixpoint read_lines (lines : list string) (row : Z) (raw : list (list float))
  : outcome (list (list float)) :=
  match lines with
  | [] => Ret raw
  | line :: lines' =>
      let row := row + 1 in
      if rows_to_skip >? row then read_lines lines' row raw
      else
        let raw := raw ++ [[]] in
        let* raw := store_values raw (row - rows_to_skip) 0 (extract_doubles line) in
        read_lines lines' row raw
  end.

(** The block under [if (argc > 4 && !std::strcmp(argv[3], "-t"))]. *)
Definition read_priors (infile : list string) : outcome (list (list float)) :=
  read_lines infile (-1) [].

End Priors.

(** *** Averaging the rows of each file *)

(** The block divides integers; a division by zero is undefined, and
    happens before anything else is done. *)
Inductive block_outcome (A : Type) : Type :=
| Ran (o : outcome A)
| DividedByZero.

Arguments Ran {A} o.
Arguments DividedByZero {A}.

(** [m[r][c]] and [m[r][c] = x] on a vector of vectors. *)
Definition vget2 (m : list (list float)) (r c : Z) : outcome float :=
  let* row := vget m r in vget row c.

Definition vset2 (m : list (list float)) (r c : Z) (x : float)
  : outcome (list (list float)) :=
  let* row := vget m r in
  let* row' := vset row c x in
  vset m r row'.

(** The body of [for (int col = 0; col < num_cols; ++col)] in the first
    loop. *)
Definition add_cell (raw : list (list float)) (num_rows_per_file row col : Z)
    (translation_and_rotation : list (list float)) : outcome (list (list float)) :=
  let new_row := to_int (to_size_t row / (vsize raw / to_size_t num_rows_per_file)) in
  let* sum := vget2 translation_and_rotation new_row col in
  let* val := vget2 raw row col in
  vset2 translation_and_rotation new_row col (sum + val).

(** The body of [for (int row = 0; row < translation_and_rotation_raw.size(); ++row)];
    [num_rows_per_file] is not zero. *)
Definition add_row (raw : list (list float)) (num_rows_per_file num_cols row : Z)
    (translation_and_rotation : list (list float)) : outcome (list (list float)) :=
  let translation_and_rotation :=
    if Z.rem row num_rows_per_file =? 0
    then translation_and_rotation ++ [[0; 0; 0; 0; 0; 0]%float]
    else translation_and_rotation in
  for_each (range 0 num_cols) (add_cell raw num_rows_per_file row)
    translation_and_rotation.

(** The body of the second loop over the rows: [num_cols] divisions. *)
Definition divide_row (num_rows_per_file num_cols row : Z)
    (translation_and_rotation : list (list float)) : outcome (list (list float)) :=
  for_each (range 0 num_cols)
    (fun col t =>
       let* sum := vget2 t row col in
       vset2 t row col (sum / double_of_int num_rows_per_file))
    translation_and_rotation.

(** The block under [if (transformations_file_supplied)], from the raw
    rows and the number of frame files to [translation_and_rotation].
    When the first row exists the first loop is entered, and its first
    statement is [row % num_rows_per_file]. *)
Definition average_rows (translation_and_rotation_raw : list (list float))
    (n_files : Z) : block_outcome (list (list float)) :=
  let num_rows_per_file := to_int (vsize translation_and_rotation_raw / n_files) in
  match vget translation_and_rotation_raw 0 with
  | Ret first_row =>
      let num_cols := to_int (vsize first_row) in
      if num_rows_per_file =? 0 then DividedByZero
      else
        Ran (let* summed :=
               for_each (range 0 (vsize translation_and_rotation_raw))
                 (add_row translation_and_rotation_raw num_rows_per_file num_cols) [] in
             for_each (range 0 (vsize summed))
               (divide_row num_rows_per_file num_cols) summed)
  | Throw e => Ran (Throw e)
  | UB u => Ran (UB u)
  end.

(** *** What the block leaves when it returns *)

(** [acc] after [acc[col] += vals[col]] for the columns below [num_cols]. *)
Fixpoint add_columns (num_cols : nat) (acc vals : list float) : list float :=
  match num_cols, acc, vals with
  | S n, a :: acc', v :: vals' => (a + v)%float :: add_columns n acc' vals'
  | _, _, _ => acc
  end.

(** [acc] after [acc[col] /= d] for the columns below [num_cols]. *)
Fixpoint divide_columns (num_cols : nat) (acc : list float) (d : float) : list float :=
  match num_cols, acc with
  | S n, a :: acc' => (a / d)%float :: divide_columns n acc' d
  | _, _ => acc
  end.

(** The rows [k * group, ..., (k + 1) * group - 1] of the table. *)
Definition rows_of_group (group : nat) (raw : list (list float)) (k : nat)
  : list (list float) :=
  firstn group (skipn (k * group) raw).

(** [records] records, the one of number [k] holding the rows of group
    [k] added, in their order, to a record of zeros. *)
Definition group_sums (num_cols group records : nat) (raw : list (list float))
  : list (list float) :=
  map (fun k =>
         fold_left (add_columns num_cols) (rows_of_group group raw k)
           [0; 0; 0; 0; 0; 0]%float)
    (seq 0 records).

(** The sums divided by the number of rows per file. *)
Definition group_means (num_cols group records : nat) (num_rows_per_file : Z)
    (raw : list (list float)) : list (list float) :=
  map (fun sum => divide_columns num_cols sum (double_of_int num_rows_per_file))
    (group_sums num_cols group records raw).

(** *** Starting and joining the threads *)

(** What [main] does to a thread, named by the index of its file. *)
Inductive event : Type :=
| started (file : Z)
| joined (file : Z).

(** [process_threads], the counter [i], and what was done so far. *)
Record pool : Type := mkPool {
  process_threads : list Z;
  next_file : Z;
  events : list event
}.

(** [while (i < 4 && i < files_to_process.size())]. *)
Fixpoint fill (fuel : nat) (n_files : Z) (p : pool) : outcome pool :=
  if (next_file p <? 4) && (to_size_t (next_file p) <? n_files) then
    match fuel with
    | O => UB no_forward_progress
    | S fuel' =>
        let i := next_file p in
        let* i' := int_add i 1 in
        fill fuel' n_files
          (mkPool (process_threads p ++ [i]) i' (events p ++ [started i]))
    end
  else Ret p.

(** [while (i < files_to_process.size())]: the oldest thread is joined
    and erased, a new one is started. *)
Fixpoint recycle (fuel : nat) (n_files : Z) (p : pool) : outcome pool :=
  if to_size_t (next_file p) <? n_files then
    match fuel with
    | O => UB no_forward_progress
    | S fuel' =>
        let i := next_file p in
        let* oldest := vget (process_threads p) 0 in
        let* others := verase (process_threads p) 0 in
        let* i' := int_add i 1 in
        recycle fuel' n_files
          (mkPool (others ++ [i]) i' (events p ++ [joined oldest; started i]))
    end
  else Ret p.

(** [for (auto t = process_threads.begin(); t < process_threads.end(); ++t) t->join()]. *)
Definition drain (p : pool) : pool :=
  mkPool (process_threads p) (next_file p)
    (events p ++ map joined (process_threads p)).

(** The three loops of [main] for [n_files] frame files: the threads
    started and joined, in order. *)
Definition schedule (n_files : Z) : outcome (list event) :=
  let* filled := fill 4 n_files (mkPool [] 0 []) in
  let* recycled := recycle (Z.to_nat n_files) n_files filled in
  Ret (events (drain recycled)).

(** One round of the second loop, for the file [k]. *)
Definition handover (k : Z) : list event := [joined (k - 4); started k].

Definition started_files (trace : list event) : list Z :=
  flat_map (fun e => match e with started f => [f] | joined _ => [] end) trace.

Definition joined_files (trace : list event) : list Z :=
  flat_map (fun e => match e with joined f => [f] | started _ => [] end) trace.

(** The threads started and not yet joined at the end of [trace]. *)
Definition in_flight (trace : list event) : Z :=
  vsize (started_files trace) - vsize (joined_files trace).

End CleanupMain.

(** ** [main] of the stitching program *)

Module StitchingMain.

Import TransformStore.

(** The branch [-f <file>]: the directory and the one file to process. *)
Definition file_argument (filename : string) : outcome (string * list string) :=
  let idx := to_int (Str.find_last_of filename "/") in
  let* directory := Str.substr filename 0 (to_size_t idx) in
  let* file := Str.substr filename (to_size_t idx) npos in
  Ret (directory, [file]).

(** The branch without [-t]: one record of zeros per entry of the list,
    made before the entries that are no frame files are removed. *)
Definition zero_transformations (files_to_process : list string) : list TransformData :=
  map (fun _ => TransformData_default) files_to_process.

Section Program.

Context {F : Float32} {P : PCL}.

Variable minus : TransformData -> TransformData -> TransformData.

(** [main] for [-d <directory>] without [-t], from the listing of the
    directory to the stitched cloud; [None] is the early [return -1]. *)
Definition stitch_directory (directory : string) (listing : list string)
  : outcome (option Stitching.StitchedCloud) :=
  let cloud_transformations := zero_transformations listing in
  let* visited := FrameOrder.frames_visited listing in
  match visited with
  | None => Ret None
  | Some files_to_process =>
      let* stitchedCloud :=
        Stitching.stitch minus directory files_to_process cloud_transformations in
      Ret (Some stitchedCloud)
  end.

End Program.

End StitchingMain.

(** ** What the threads of the cleanup program have merged *)

Module Merged.

Section Program.

Context {F : Float32} {P : PCL}.

(** The worker has run [*stitched_cloud += *filtered_cloud]. *)
Definition appended (w : Cleanup.worker) : bool :=
  match Cleanup.place w with
  | Cleanup.at_unlock | Cleanup.finished => true
  | _ => false
  end.

(** The local cloud [filtered_cloud] of thread [tid]. *)
Definition cloud_of (ws : list Cleanup.worker) (tid : nat) : PointCloud :=
  match ws !! tid with
  | Some w => Cleanup.filtered_cloud w
  | None => []
  end.

(** The threads of [order], each once and no others, have appended their
    cloud, and the stitched cloud is these clouds, whole and in that
    order. *)
Definition merged_in_order (order : list nat) (c : Cleanup.config) : Prop :=
  NoDup order
  /\ (forall tid,
        In tid order
        <-> exists w, Cleanup.workers c !! tid = Some w /\ appended w = true)
  /\ Cleanup.stitched_cloud (Cleanup.memory c)
     = flat_map (cloud_of (Cleanup.workers c)) order.

(** Thread [tid] can run its next statement. *)
Definition can_move (g : Cleanup.globals) (c : Cleanup.config) (tid : nat) : Prop :=
  Cleanup.step g tid c <> None.

(** Thread [tid] is blocked in the constructor of the [std::lock_guard],
    by thread [owner], which holds the mutex. *)
Definition waits_for (c : Cleanup.config) (tid owner : nat) : Prop :=
  Cleanup.stitch_mutex (Cleanup.memory c) = Some owner
  /\ owner <> tid
  /\ exists w, Cleanup.workers c !! tid = Some w /\ Cleanup.place w = Cleanup.at_lock.







End Program.

End Merged.

(** ** The pose correction in the words of the specification *)

Module PoseClaim.

Section Claim.

Context {F : Float32}.

(** A point moved by an offset. *)
Definition translate_point (a b c : f32) (p : PointXYZ) : PointXYZ :=
  mkPoint (f32_add (x p) a) (f32_add (y p) b) (f32_add (z p) c).

(** A point turned by a rotation matrix. *)
Definition rotate_point (r : Matrix3f) (p : PointXYZ) : PointXYZ :=
  mkPoint
    (dot3 (m00 r) (m01 r) (m02 r) (x p) (y p) (z p))
    (dot3 (m10 r) (m11 r) (m12 r) (x p) (y p) (z p))
    (dot3 (m20 r) (m21 r) (m22 r) (x p) (y p) (z p)).

(** The specification's reading of the correction: "translate by negated
    offset, then rotate by negated angles about x, then y, then z, in
    that order". *)
Definition translate_then_rotate (dx dy dz rotx roty rotz : float) (p : PointXYZ)
  : PointXYZ :=
  let p :=
    translate_point (f32_of_double (-1 * dx)) (f32_of_double (-1 * dy))
      (f32_of_double (-1 * dz)) p in
  let p := rotate_point (AngleAxisf (f32_of_double (-1 * rotx)) UnitX) p in
  let p := rotate_point (AngleAxisf (f32_of_double (-1 * roty)) UnitY) p in
  rotate_point (AngleAxisf (f32_of_double (-1 * rotz)) UnitZ) p.

End Claim.

End PoseClaim.

(** ** An instance to run the programs on *)

Module Reference.

(** IEEE 754 binary32, by the Standard Library's specification of floats
    at 24 bits of precision.  The cosine and the sine come from the C
    library, which is not part of the sources: here they are the series
    up to the power 7, exact at 0. *)
Definition prec32 : Z := 24.
Definition emax32 : Z := 128.

Definition b32_of_double (d : float) : spec_float :=
  match Prim2SF d with
  | S754_finite s m e => binary_round prec32 emax32 s m e
  | other => other
  end.

Definition b32_of_int (n : Z) : spec_float := binary_normalize prec32 emax32 n 0 false.

Definition b32_add := SFadd prec32 emax32.
Definition b32_sub := SFsub prec32 emax32.
Definition b32_mul := SFmul prec32 emax32.
Definition b32_div := SFdiv prec32 emax32.

Definition b32_cos (a : spec_float) : spec_float :=
  let a2 := b32_mul a a in
  let term k t := b32_div (b32_mul t a2) (b32_of_int k) in
  let t2 := term 2 (b32_of_int 1) in
  let t4 := term 12 t2 in
  let t6 := term 30 t4 in
  b32_sub (b32_add (b32_sub (b32_of_int 1) t2) t4) t6.

Definition b32_sin (a : spec_float) : spec_float :=
  let a2 := b32_mul a a in
  let term k t := b32_div (b32_mul t a2) (b32_of_int k) in
  let t3 := term 6 a in
  let t5 := term 20 t3 in
  let t7 := term 42 t5 in
  b32_sub (b32_add (b32_sub a t3) t5) t7.

Definition b32_is_finite (a : spec_float) : bool :=
  match a with
  | S754_zero _ | S754_finite _ _ _ => true
  | S754_infinity _ | S754_nan => false
  end.

#[export] Instance binary32 : Float32 := {|
  f32 := spec_float;
  f32_of_double := b32_of_double;
  f32_of_int := b32_of_int;
  f32_add := b32_add;
  f32_sub := b32_sub;
  f32_mul := b32_mul;
  f32_cos := b32_cos;
  f32_sin := b32_sin;
  f32_ltb := SFltb;
  f32_is_finite := b32_is_finite
|}.

(** A point with integer coordinates. *)
Definition pt (a b c : Z) : PointXYZ :=
  mkPoint (b32_of_int a) (b32_of_int b) (b32_of_int c).

(** Stand-ins for the algorithms of PCL: the filters keep every point,
    the plane fitted to a cloud is the plane [x = const] through its first
    point, the aligners move the source so that its first point falls on
    the first point of the target, and a file holds the points of the
    digits of its name on the line [x = y = 0]. *)
Definition plane_inliers (threshold : float) (c : PointCloud) : list Z :=
  match c with
  | [] => []
  | p0 :: _ =>
      List.filter
        (fun k =>
           match c !! Z.to_nat k with
           | Some p =>
               negb (SFltb (b32_of_double threshold) (SFabs (b32_sub (x p) (x p0))))
           | None => false
           end)
        (range 0 (vsize c))
  end.

Definition shift_onto (source target : PointCloud) : PointCloud :=
  match source, target with
  | s0 :: _, t0 :: _ =>
      map (fun p => mkPoint (b32_add (x p) (b32_sub (x t0) (x s0)))
                      (b32_add (y p) (b32_sub (y t0) (y s0)))
                      (b32_add (z p) (b32_sub (z t0) (z s0)))) source
  | _, _ => source
  end.

Fixpoint cloud_of_name (name : string) : PointCloud :=
  match name with
  | EmptyString => []
  | String c rest =>
      match Str.digit_of c with
      | Some d => pt 0 0 (- d) :: cloud_of_name rest
      | None => cloud_of_name rest
      end
  end.

#[export] Instance stand_in : PCL := {|
  statistical_outlier_removal := fun _ _ c => c;
  voxel_grid := fun _ c => c;
  ransac_plane_inliers := plane_inliers;
  normals := unit;
  features := unit;
  normal_estimation := fun _ _ => tt;
  fpfh_estimation := fun _ _ _ => tt;
  sac_ia_align := fun _ source _ target _ => shift_onto source target;
  icp_align := fun _ source target => shift_onto source target;
  read_pcd := cloud_of_name
|}.

(** [std::stod] on plain decimal text: white space, an optional sign,
    digits, an optional point and digits.  The digits are read as one
    integer and divided by the power of ten, one rounding: the value
    [std::stod] returns when that integer is below [2^53]. *)
Fixpoint read_fraction (s : string) (acc scale : Z) : Z * Z :=
  match s with
  | String c s' =>
      match Str.digit_of c with
      | Some d => read_fraction s' (10 * acc + d) (10 * scale)
      | None => (acc, scale)
      end
  | EmptyString => (acc, scale)
  end.

Fixpoint read_decimal (s : string) (acc : Z) (seen : bool) : option (Z * Z) :=
  match s with
  | String c s' =>
      match Str.digit_of c with
      | Some d => read_decimal s' (10 * acc + d) true
      | None =>
          if Ascii.eqb c "."%char then
            match s' with
            | String c' _ =>
                match Str.digit_of c' with
                | Some _ => Some (read_fraction s' acc 1)
                | None => if seen then Some (acc, 1) else None
                end
            | EmptyString => if seen then Some (acc, 1) else None
            end
          else if seen then Some (acc, 1) else None
      end
  | EmptyString => if seen then Some (acc, 1) else None
  end.

Definition stod_decimal (s : string) : outcome float :=
  let s1 := Str.skip_space s in
  let '(negative, s2) :=
    match s1 with
    | String "-"%char r => (true, r)
    | String "+"%char r => (false, r)
    | _ => (false, s1)
    end in
  match read_decimal s2 0 false with
  | None => Throw invalid_argument
  | Some (n, scale) =>
      let v := (double_of_int n / double_of_int scale)%float in
      Ret (if negative then (- v)%float else v)
  end.

(** [iss >> val] on a line of plain decimal numbers separated by blanks:
    the numbers up to the first piece that is none. *)
Fixpoint decimals_of (pieces : list string) : list float :=
  match pieces with
  | [] => []
  | piece :: rest =>
      match stod_decimal piece with
      | Ret v => v :: decimals_of rest
      | _ => []
      end
  end.

Definition extract_decimals (line : string) : list float :=
  decimals_of
    (List.filter (fun piece => negb (String.eqb piece EmptyString))
       (TransformStore.getline_pieces " " line)).

End Reference.


(** * Properties *)

Import Reference.

(** ** Strings *)

Lemma prefix_dot (c : ascii) (s : string) :
  String.prefix "." (String c s) = Ascii.eqb "."%char c.
Proof.
  cbn [String.prefix]. destruct (ascii_dec "."%char c) as [e|n].
  - rewrite e, Ascii.eqb_refl. destruct s; reflexivity.
  - symmetry. apply Ascii.eqb_neq. exact n.
Qed.

Lemma find_at_no_dot (s : string) (pos : nat) :
  Str.mem_char "."%char s = false -> Str.find_at "." s pos = None.
Proof.
  revert pos. induction s as [|c s IH]; intros pos H.
  - reflexivity.
  - cbn [Str.mem_char] in H. apply orb_false_iff in H as [Hc Hs].
    cbn [Str.find_at]. rewrite prefix_dot, Hc. apply IH, Hs.
Qed.

Lemma find_at_dot (s : string) (pos : nat) :
  Str.mem_char "."%char s = true ->
  exists i, Str.find_at "." s pos = Some (pos + i)%nat /\ (i < String.length s)%nat.
Proof.
  revert pos. induction s as [|c s IH]; intros pos H.
  - discriminate.
  - cbn [Str.mem_char] in H. cbn [Str.find_at]. rewrite prefix_dot.
    destruct (Ascii.eqb "."%char c) eqn:Hc.
    + exists 0%nat. split; [f_equal; lia | simpl; lia].
    + simpl in H. destruct (IH (S pos) H) as (i & Hi & Hlt).
      exists (S i). split; [rewrite Hi; f_equal; lia | simpl; lia].
Qed.

(** ** The file filter *)

Lemma filePredicate_without_dot (s : string) :
  Str.size s < npos -> FileFilter.has_dot s = false ->
  FileFilter.filePredicate s = Throw out_of_range.
Proof.
  intros Hsize Hdot. unfold FileFilter.has_dot in Hdot.
  unfold FileFilter.filePredicate, Str.find.
  rewrite (find_at_no_dot s 0 Hdot).
  assert (Hne : forall t, FileFilter.has_dot t = true ->
                Str.truthy (Str.compare s t) = true).
  { intros t Ht. unfold Str.truthy, Str.compare.
    destruct (String.compare s t) eqn:Hc; try reflexivity.
    apply String.compare_eq_iff in Hc. subst t.
    unfold FileFilter.has_dot in Ht. congruence. }
  rewrite !Hne by reflexivity. cbn [negb].
  unfold Str.substr. destruct (Str.size s <? npos) eqn:Hlt; [reflexivity|].
  apply Z.ltb_ge in Hlt. lia.
Qed.

Lemma filePredicate_with_dot (s : string) :
  FileFilter.has_dot s = true -> exists b, FileFilter.filePredicate s = Ret b.
Proof.
  intros Hdot. unfold FileFilter.has_dot in Hdot.
  destruct (find_at_dot s 0 Hdot) as (i & Hi & Hlt).
  unfold FileFilter.filePredicate, Str.find. rewrite Hi.
  repeat match goal with
         | |- context [if negb ?b then _ else _] => destruct b; cbn [negb]; eauto
         end.
  unfold Str.substr, Str.size.
  destruct (Z.of_nat (String.length s) <? Z.of_nat (0 + i)) eqn:Hcmp.
  - apply Z.ltb_lt in Hcmp. lia.
  - cbn [bind]. eauto.
Qed.

(** C10. Some directory entry that is neither "." nor ".." and has no
    ['.'] in it, "README", makes [filePredicate] throw
    [std::out_of_range] instead of answering; so does every name without
    a ['.'], and only those: on a name with a ['.'] the predicate returns. *)
Theorem filePredicate_throws_without_dot :
  FileFilter.filePredicate "README" = Throw out_of_range
  /\ FileFilter.remove_non_pcd ["."; ".."; "README"; "scanD1.pcd"]%string
     = Throw out_of_range
  /\ forall s : string, Str.size s < npos ->
       match FileFilter.filePredicate s with
       | Ret _ => FileFilter.has_dot s = true
       | Throw e => e = out_of_range /\ FileFilter.has_dot s = false
       | UB _ => False
       end.
Proof.
  split; [reflexivity|]. split; [reflexivity|].
  intros s Hsize. destruct (FileFilter.has_dot s) eqn:Hdot.
  - destruct (filePredicate_with_dot s Hdot) as [b ->]. reflexivity.
  - rewrite (filePredicate_without_dot s Hsize Hdot). split; reflexivity.
Qed.

Lemma filePredicate_throws_without_dot_witness :
  Str.size "Makefile" < npos
  /\ match FileFilter.filePredicate "Makefile" with
     | Ret _ => FileFilter.has_dot "Makefile" = true
     | Throw e => e = out_of_range /\ FileFilter.has_dot "Makefile" = false
     | UB _ => False
     end.
Proof.
  split.
  - reflexivity.
  - apply (proj2 (proj2 filePredicate_throws_without_dot)). reflexivity.
Defined.

(** ** The order of the frames *)

Section FrameOrderFacts.

Import FrameOrder.






End FrameOrderFacts.




(** ** Vectors *)

Lemma vget_lookup {A : Type} (v : list A) (i : Z) (a : A) :
  0 <= i -> v !! Z.to_nat i = Some a -> vget v i = Ret a.
Proof.
  intros Hi Hl. unfold vget, vsize. apply lookup_lt_Some in Hl as Hlt.
  rewrite Hl.
  destruct (0 <=? i) eqn:H0; [|apply Z.leb_gt in H0; lia].
  destruct (i <? Z.of_nat (length v)) eqn:H1; [reflexivity|].
  apply Z.ltb_ge in H1. lia.
Qed.

Lemma vget_out_of_bounds {A : Type} (v : list A) (i : Z) :
  vsize v <= i -> vget v i = UB vector_index_out_of_bounds.
Proof.
  intros Hi. unfold vget.
  destruct (i <? vsize v) eqn:H1; [apply Z.ltb_lt in H1; lia|].
  rewrite andb_false_r. reflexivity.
Qed.

(** ** Reading the transform records *)

Section ReadingFacts.

Import TransformStore.

Variable stod : string -> outcome float.

Lemma convert_cells_converted (col : Z) (pieces : list string) (values : list float) :
  1 <= col ->
  Forall2 (fun cell v => stod cell = Ret v) pieces values ->
  convert_cells stod col pieces = Ret values.
Proof.
  intros Hcol Hall. revert col Hcol.
  induction Hall as [|cell v pieces values Hcell Hall IH]; intros col Hcol.
  - reflexivity.
  - cbn [convert_cells]. unfold cols_to_skip at 1.
    destruct (1 >? col) eqn:Hc; [apply Z.gtb_lt in Hc; lia|].
    rewrite Hcell. cbn [bind]. rewrite IH by lia. reflexivity.
Qed.

Lemma convert_cells_skips_first (pieces : list string) (values : list float) :
  Forall2 (fun cell v => stod cell = Ret v) (skipn 1 pieces) values ->
  convert_cells stod 0 pieces = Ret values.
Proof.
  destruct pieces as [|label cells]; cbn [skipn convert_cells].
  - intros H. inversion H. reflexivity.
  - intros H. unfold cols_to_skip at 1. cbn. apply convert_cells_converted; [lia|exact H].
Qed.

Lemma record_of_row_positional (values : list float) :
  record_of_row values =
    if vsize values <? 6 then Throw domain_error
    else Ret (mkTransformData
                (List.nth 3 values 0%float) (List.nth 4 values 0%float)
                (List.nth 5 values 0%float) (List.nth 0 values 0%float)
                (List.nth 1 values 0%float) (List.nth 2 values 0%float)
                (if vsize values >? 6 then List.nth 6 values 0%float
                 else confidence TransformData_default),
              negb (vsize values >? 6)).
Proof.
  destruct values as [|a0 [|a1 [|a2 [|a3 [|a4 [|a5 [|a6 rest]]]]]]];
    try reflexivity.
  unfold record_of_row.
  assert (Hsize : vsize (a0 :: a1 :: a2 :: a3 :: a4 :: a5 :: a6 :: rest)
                  = 7 + vsize rest).
  { unfold vsize. cbn [length]. lia. }
  assert (Hpos : 0 <= vsize rest) by (unfold vsize; lia).
  rewrite Hsize.
  destruct (7 + vsize rest <? 6) eqn:H6; [apply Z.ltb_lt in H6; lia|].
  destruct (7 + vsize rest >? 6) eqn:H7;
    [|rewrite Z.gtb_ltb in H7; apply Z.ltb_ge in H7; lia].
  rewrite (vget_lookup _ 0 a0), (vget_lookup _ 1 a1), (vget_lookup _ 2 a2),
    (vget_lookup _ 3 a3), (vget_lookup _ 4 a4), (vget_lookup _ 5 a5),
    (vget_lookup _ 6 a6) by (reflexivity || lia).
  reflexivity.
Qed.

End ReadingFacts.

(** One row of [getTransformationData]: what it yields when its cells
    convert, and how the reader goes on after it. *)
Lemma parse_row_positional (stod : string -> outcome float) (delim : ascii) :
  (forall (line : string) (values : list float),
     Forall2 (fun cell v => stod cell = Ret v)
       (skipn 1 (TransformStore.getline_pieces delim line)) values ->
     TransformStore.parse_row stod delim line =
       if vsize values <? 6 then Throw domain_error
       else Ret (TransformStore.mkTransformData
                   (List.nth 3 values 0%float) (List.nth 4 values 0%float)
                   (List.nth 5 values 0%float) (List.nth 0 values 0%float)
                   (List.nth 1 values 0%float) (List.nth 2 values 0%float)
                   (if vsize values >? 6 then List.nth 6 values 0%float
                    else TransformStore.confidence TransformStore.TransformData_default),
                 negb (vsize values >? 6)))
  /\ (forall (line : string) (lines : list string) (row : Z)
        (st : TransformStore.reader_state) (t : TransformStore.TransformData)
        (warned : bool),
        TransformStore.rows_to_skip <= row + 1 ->
        TransformStore.parse_row stod delim line = Ret (t, warned) ->
        TransformStore.read_rows stod delim (line :: lines) row st =
          TransformStore.read_rows stod delim lines (row + 1)
            (TransformStore.mkReaderState
               (TransformStore.translation_and_rotation_raw st ++ [t])
               (if warned
                then TransformStore.cout st ++ [TransformStore.no_confidence_warning]
                else TransformStore.cout st))).
Proof.
  split.
  - intros line values Hall. unfold TransformStore.parse_row.
    rewrite (convert_cells_skips_first stod _ values Hall). cbn [bind].
    apply record_of_row_positional.
  - intros line lines row st t warned Hrow Hparse.
    cbn [TransformStore.read_rows].
    destruct (TransformStore.rows_to_skip >? row + 1) eqn:Hskip;
      [apply Z.gtb_lt in Hskip; lia|].
    rewrite Hparse. reflexivity.
Qed.

(** ** Averaging the transform records *)

Section AveragingFacts.

Import TransformStore.

Lemma vset_result {A : Type} (v : list A) (i : Z) (a : A) :
  vset v i a = UB vector_index_out_of_bounds
  \/ exists v', vset v i a = Ret v' /\ vsize v' = vsize v.
Proof.
  unfold vset. destruct ((0 <=? i) && (i <? vsize v)); [right|left; reflexivity].
  eexists. split; [reflexivity|]. unfold vsize. rewrite length_insert. reflexivity.
Qed.

Lemma vget_result {A : Type} (v : list A) (i : Z) :
  vget v i = UB vector_index_out_of_bounds \/ exists a, vget v i = Ret a.
Proof.
  unfold vget. destruct ((0 <=? i) && (i <? vsize v)); [|left; reflexivity].
  destruct (v !! Z.to_nat i); [right; eauto | left; reflexivity].
Qed.

Lemma accumulate_result (i j : Z) (ts : list TransformData) :
  out_of_bounds_or_same_length ts (accumulate i j ts).
Proof.
  unfold out_of_bounds_or_same_length, accumulate.
  destruct (vget_result ts i) as [->|[ti ->]]; [left; reflexivity|].
  destruct (vget_result ts (i + j)) as [->|[tj ->]]; [left; reflexivity|].
  cbn [bind]. apply vset_result.
Qed.

Lemma accumulate_past_end (i j : Z) (ts : list TransformData) :
  vsize ts <= i + j -> accumulate i j ts = UB vector_index_out_of_bounds.
Proof.
  intros H. unfold accumulate.
  destruct (vget_result ts i) as [->|[ti ->]]; [reflexivity|].
  rewrite (vget_out_of_bounds ts (i + j) H). reflexivity.
Qed.

Lemma divide_result (v i : Z) (ts : list TransformData) :
  out_of_bounds_or_same_length ts (divide v i ts).
Proof.
  unfold out_of_bounds_or_same_length, divide.
  destruct (vget_result ts i) as [->|[ti ->]]; [left; reflexivity|].
  cbn [bind]. apply vset_result.
Qed.

Lemma group_result (i : Z) (js : list Z) (ts : list TransformData) :
  out_of_bounds_or_same_length ts (for_each js (accumulate i) ts).
Proof.
  revert ts. induction js as [|j js IH]; intros ts; cbn [for_each].
  - right. eauto.
  - destruct (accumulate_result i j ts) as [->|(ts' & -> & Hlen)];
      [left; reflexivity|].
    cbn [bind]. destruct (IH ts') as [->|(ts'' & -> & Hlen')];
      [left; reflexivity|].
    right. exists ts''. split; [reflexivity | lia].
Qed.

(** A group that reaches past the end of the vector is read past it. *)
Lemma group_past_end (i : Z) (js : list Z) (ts : list TransformData) :
  (exists j, In j js /\ vsize ts <= i + j) ->
  for_each js (accumulate i) ts = UB vector_index_out_of_bounds.
Proof.
  revert ts. induction js as [|j0 js IH]; intros ts (j & Hin & Hj).
  - destruct Hin.
  - cbn [for_each].
    destruct (accumulate_result i j0 ts) as [->|(ts' & Hacc & Hlen)];
      [reflexivity|].
    destruct Hin as [->|Hin].
    + rewrite (accumulate_past_end i j ts Hj) in Hacc. discriminate.
    + rewrite Hacc. cbn [bind]. apply IH. exists j. split; [exact Hin | lia].
Qed.

Lemma in_range (lo hi j : Z) : lo <= j < hi -> In j (range lo hi).
Proof.
  intros H. unfold range. apply in_map_iff.
  exists (Z.to_nat (j - lo)). split; [lia|]. apply in_seq. lia.
Qed.

(** One round of the first loop at an [i] at or past the end. *)
Lemma round_past_end (v i : Z) (ts : list TransformData) :
  vsize ts <= i ->
  (let* summed := for_each (range 1 v) (accumulate i) ts in
   let* averaged := divide v i summed in
   let* i' := int_add i v in
   Ret (i', averaged)) = UB vector_index_out_of_bounds.
Proof.
  intros Hi.
  destruct (group_result i (range 1 v) ts) as [->|(ts' & -> & Hlen)];
    [reflexivity|].
  cbn [bind]. unfold divide.
  rewrite (vget_out_of_bounds ts' i) by lia. reflexivity.
Qed.

Lemma average_loop_out_of_bounds (v : Z) (fuel : nat) :
  1 <= v ->
  forall (i : Z) (ts : list TransformData),
    0 <= i -> i < vsize ts + v -> vsize ts + v <= INT_MAX ->
    Z.max 0 (vsize ts - i) < Z.of_nat fuel ->
    average_loop fuel v i ts = UB vector_index_out_of_bounds.
Proof.
  intros Hv. induction fuel as [|fuel IH]; intros i ts Hi Hlt Hmax Hfuel; [lia|].
  assert (Hint : INT_MAX = 2147483647) by reflexivity.
  assert (Hpos : 0 <= vsize ts) by (unfold vsize; lia).
  cbn [average_loop].
  unfold to_size_t, size_t_add, size_max.
  rewrite (Z.mod_small i), (Z.mod_small v), (Z.mod_small (vsize ts + v)) by lia.
  destruct (i <? vsize ts + v) eqn:Hc; [|apply Z.ltb_ge in Hc; lia].
  destruct (Z_lt_le_dec i (vsize ts)) as [Hin|Hout].
  - destruct (group_result i (range 1 v) ts) as [->|(ts1 & -> & Hlen1)];
      [reflexivity|].
    cbn [bind].
    destruct (divide_result v i ts1) as [->|(ts2 & -> & Hlen2)]; [reflexivity|].
    cbn [bind]. unfold int_add, INT_MIN.
    destruct ((- 2 ^ 31 <=? i + v) && (i + v <=? INT_MAX)) eqn:Hrange.
    + cbn [bind]. apply IH; lia.
    + apply andb_false_iff in Hrange as [H|H];
        [apply Z.leb_gt in H | apply Z.leb_gt in H]; lia.
  - pose proof (round_past_end v i ts Hout) as Hround.
    destruct (for_each (range 1 v) (accumulate i) ts) as [ts1| |]; cbn [bind] in *;
      try congruence.
    destruct (divide v i ts1) as [ts2| |]; cbn [bind] in *; try congruence.
    destruct (int_add i v); cbn [bind] in *; congruence.
Qed.

(** For every table and every positive number of rows per cloud, the
    first loop reads outside the vector. *)
Lemma averageTransformationData_out_of_bounds (ts : list TransformData) (v : Z) :
  1 <= v -> vsize ts + v <= INT_MAX ->
  averageTransformationData ts v = UB vector_index_out_of_bounds.
Proof.
  intros Hv Hmax. unfold averageTransformationData.
  rewrite (average_loop_out_of_bounds v _ Hv 0 ts); [reflexivity| lia | | exact Hmax |].
  - unfold vsize. lia.
  - unfold vsize. lia.
Qed.

End AveragingFacts.

(** C1. The claim holds of no table: whenever the row count is a multiple
    of a positive [vals_per_cloud], [averageTransformationData] returns no
    records at all: its first loop runs one round too many, at
    [i = size], and reads [transformations[size]].  The second loop,
    taken alone, erases [vals_per_cloud] rows after each row it keeps, not
    [vals_per_cloud - 1]: of three groups of two rows it keeps the rows 0
    and 3. *)
Theorem averageTransformationData_reads_past_end
    (transformations : list TransformStore.TransformData)
    (vals_per_cloud frames : Z) :
  1 <= vals_per_cloud ->
  vsize transformations = frames * vals_per_cloud ->
  vsize transformations + vals_per_cloud <= INT_MAX ->
  TransformStore.averageTransformationData transformations vals_per_cloud
  = UB vector_index_out_of_bounds
  /\ forall r0 r1 r2 r3 r4 r5 : TransformStore.TransformData,
       TransformStore.erase_loop 8 2 0 [r0; r1; r2; r3; r4; r5] = Ret [r0; r3].
Proof.
  intros Hv _ Hmax. split.
  - apply averageTransformationData_out_of_bounds; assumption.
  - reflexivity.
Qed.

Lemma averageTransformationData_reads_past_end_witness :
  1 <= 10
  /\ vsize (repeat TransformStore.TransformData_default 20) = 2 * 10
  /\ vsize (repeat TransformStore.TransformData_default 20) + 10 <= INT_MAX
  /\ TransformStore.averageTransformationData
       (repeat TransformStore.TransformData_default 20) 10
     = UB vector_index_out_of_bounds.
Proof.
  assert (H1 : 1 <= 10) by lia.
  assert (H2 : vsize (repeat TransformStore.TransformData_default 20) = 2 * 10)
    by reflexivity.
  assert (H3 : vsize (repeat TransformStore.TransformData_default 20) + 10 <= INT_MAX)
    by (vm_compute; discriminate).
  split; [exact H1|]. split; [exact H2|]. split; [exact H3|].
  exact (proj1 (averageTransformationData_reads_past_end _ 10 2 H1 H2 H3)).
Defined.

(** C7. The claim fails on the code: when the row count is no multiple
    of a positive [vals_per_cloud], the rows of the last, partial group
    are neither clamped nor dropped: the inner loop over that group reads
    past the end of the vector, and so the call is undefined. *)
Theorem averageTransformationData_partial_group
    (transformations : list TransformStore.TransformData) (vals_per_cloud : Z) :
  1 <= vals_per_cloud ->
  vsize transformations mod vals_per_cloud <> 0 ->
  vsize transformations + vals_per_cloud <= INT_MAX ->
  for_each (range 1 vals_per_cloud)
    (TransformStore.accumulate
       (vals_per_cloud * (vsize transformations / vals_per_cloud)))
    transformations
  = UB vector_index_out_of_bounds
  /\ TransformStore.averageTransformationData transformations vals_per_cloud
     = UB vector_index_out_of_bounds.
Proof.
  intros Hv Hmod Hmax. split.
  - apply group_past_end.
    pose proof (Z.div_mod (vsize transformations) vals_per_cloud ltac:(lia)) as Hdm.
    pose proof (Z.mod_pos_bound (vsize transformations) vals_per_cloud ltac:(lia)) as Hb.
    exists (vsize transformations mod vals_per_cloud). split; [|lia].
    apply in_range. lia.
  - apply averageTransformationData_out_of_bounds; assumption.
Qed.

Lemma averageTransformationData_partial_group_witness :
  1 <= 10
  /\ vsize (repeat TransformStore.TransformData_default 25) mod 10 <> 0
  /\ vsize (repeat TransformStore.TransformData_default 25) + 10 <= INT_MAX
  /\ TransformStore.averageTransformationData
       (repeat TransformStore.TransformData_default 25) 10
     = UB vector_index_out_of_bounds.
Proof.
  assert (H1 : 1 <= 10) by lia.
  assert (H2 : vsize (repeat TransformStore.TransformData_default 25) mod 10 <> 0)
    by (vm_compute; discriminate).
  assert (H3 : vsize (repeat TransformStore.TransformData_default 25) + 10 <= INT_MAX)
    by (vm_compute; discriminate).
  split; [exact H1|]. split; [exact H2|]. split; [exact H3|].
  exact (proj2 (averageTransformationData_partial_group _ 10 H1 H2 H3)).
Defined.

(** ** The wall segmenter *)

Section SegmenterFacts.

Import WallSegmenter.

Context {F : Float32} {P : PCL}.

Hypothesis ransac_contract : inliers_in_range.

Lemma copyPointCloud_inliers (c : PointCloud) (indices : list Z) :
  Forall (fun k => 0 <= k < vsize c) indices ->
  copyPointCloud c indices
  = Ret (flat_map (fun k => match c !! Z.to_nat k with Some p => [p] | None => [] end)
           indices).
Proof.
  induction 1 as [|k indices Hk Hall IH]; cbn [copyPointCloud flat_map].
  - reflexivity.
  - destruct (lookup_lt_is_Some_2 c (Z.to_nat k)) as [p Hp];
      [unfold vsize in Hk; lia|].
    rewrite (vget_lookup c k p) by (lia || exact Hp).
    rewrite Hp, IH. reflexivity.
Qed.

Lemma fit_band_appends (sub_cloud : PointCloud) (j : Z) (st : clouds) :
  appends
    (band_result (PassThrough field_z (f32_of_int (j - 1)) (f32_of_int j) sub_cloud))
    st (fit_band sub_cloud j st).
Proof.
  unfold appends, fit_band, band_result.
  destruct (vsize _ <? 5).
  - exists (tmp_cloud st). rewrite app_nil_r. destruct st; reflexivity.
  - rewrite copyPointCloud_inliers by apply ransac_contract.
    cbn [bind]. eexists. reflexivity.
Qed.

Lemma for_each_appends {J : Type} (body : J -> clouds -> outcome clouds)
    (result : J -> PointCloud) (js : list J) :
  (forall j, In j js -> forall st, appends (result j) st (body j st)) ->
  forall st, appends (concat (map result js)) st (for_each js body st).
Proof.
  induction js as [|j js IH]; intros Hbody st; cbn [for_each map concat].
  - exists (tmp_cloud st). rewrite app_nil_r. destruct st; reflexivity.
  - destruct (Hbody j (or_introl eq_refl) st) as [tmp ->]. cbn [bind].
    destruct (IH (fun k Hk => Hbody k (or_intror Hk))
                (mkClouds (ret_cloud st ++ result j) tmp)) as [tmp' ->].
    exists tmp'. cbn [ret_cloud]. rewrite app_assoc. reflexivity.
Qed.

Lemma bands_appends (sub_cloud : PointCloud) (st : clouds) :
  appends (concat (map band_result (bands sub_cloud))) st
    (for_each [0; -1; -2; -3; -4] (fit_band sub_cloud) st).
Proof.
  exact (for_each_appends (fit_band sub_cloud)
           (fun j => band_result
              (PassThrough field_z (f32_of_int (j - 1)) (f32_of_int j) sub_cloud))
           [0; -1; -2; -3; -4] (fun j _ => fit_band_appends sub_cloud j) st).
Qed.

Lemma region_appends (region : PointCloud) (st : clouds) :
  appends (region_result region) st
    (if vsize region <? 5 then Ret st
     else for_each [0; -1; -2; -3; -4]
            (fit_band (statistical_outlier_removal 50 1 region)) st).
Proof.
  unfold region_result. destruct (vsize region <? 5).
  - exists (tmp_cloud st). rewrite app_nil_r. destruct st; reflexivity.
  - apply bands_appends.
Qed.

Lemma rectangularThreshold_segments (src_cloud : PointCloud)
    (min_x mid_x max_x min_y mid_y max_y : float) :
  rectangularThreshold src_cloud [min_x; mid_x; max_x; min_y; mid_y; max_y]
  = Ret (segment_spec src_cloud min_x mid_x max_x min_y mid_y max_y).
Proof.
  unfold rectangularThreshold.
  set (tr := [min_x; mid_x; max_x; min_y; mid_y; max_y]).
  set (regions := lateral_regions src_cloud min_x mid_x max_x min_y mid_y max_y).
  destruct (for_each_appends (fit_region src_cloud tr)
              (fun i => region_result (List.nth (Z.to_nat i) regions []))
              [0; 1; 2; 3]) with (st := mkClouds [] []) as [tmp ->].
  - intros i Hi st.
    assert (Hregion : fit_region src_cloud tr i st
              = if vsize (List.nth (Z.to_nat i) regions []) <? 5 then Ret st
                else for_each [0; -1; -2; -3; -4]
                       (fit_band (statistical_outlier_removal 50 1
                                    (List.nth (Z.to_nat i) regions []))) st).
    { cbn [In] in Hi. destruct Hi as [<-|[<-|[<-|[<-|[]]]]]; reflexivity. }
    rewrite Hregion. apply region_appends.
  - reflexivity.
Qed.

End SegmenterFacts.

(** C2. Given lateral bounds {min_x, mid_x, max_x, min_y, mid_y, max_y}
    and a plane fit that answers with indices into the cloud it was
    given, [rectangularThreshold] returns the concatenation, over the four
    lateral regions (x in [min_x, mid_x], x in [mid_x, max_x],
    y in [min_y, mid_y], y in [mid_y, max_y]) that have at least 5 points,
    and over the bands that have at least 5 points among the five bands of
    width 1 covering z in [-5, 0] of each such region after outlier
    removal, of the inlier points of the plane fitted to the band. *)
Theorem rectangularThreshold_concatenates_inliers {F : Float32} {P : PCL}
    (src_cloud : PointCloud) (min_x mid_x max_x min_y mid_y max_y : float) :
  WallSegmenter.inliers_in_range ->
  WallSegmenter.rectangularThreshold src_cloud
    [min_x; mid_x; max_x; min_y; mid_y; max_y]
  = Ret (WallSegmenter.segment_spec src_cloud min_x mid_x max_x min_y mid_y max_y).
Proof.
  intros Hransac. apply rectangularThreshold_segments. exact Hransac.
Qed.

Lemma range_bounds (lo hi k : Z) : In k (range lo hi) -> lo <= k < hi.
Proof.
  unfold range. intros H. apply in_map_iff in H as (n & <- & Hn).
  apply in_seq in Hn. lia.
Qed.

Lemma plane_inliers_in_range :
  @WallSegmenter.inliers_in_range Reference.binary32 Reference.stand_in.
Proof.
  intros threshold c. cbn. unfold Reference.plane_inliers.
  destruct c as [|p0 c']; [constructor|].
  apply List.Forall_forall. intros k Hk.
  apply filter_In in Hk as [Hk _]. apply range_bounds in Hk. exact Hk.
Qed.

Lemma rectangularThreshold_concatenates_inliers_witness :
  @WallSegmenter.inliers_in_range Reference.binary32 Reference.stand_in
  /\ WallSegmenter.rectangularThreshold
       [Reference.pt 1 0 0; Reference.pt 1 1 0; Reference.pt 2 2 (-1);
        Reference.pt 1 3 0; Reference.pt 1 4 0; Reference.pt 1 5 (-1)]
       [-5; 0; 5; -5; 0; 5]%float
     = Ret (WallSegmenter.segment_spec
              [Reference.pt 1 0 0; Reference.pt 1 1 0; Reference.pt 2 2 (-1);
               Reference.pt 1 3 0; Reference.pt 1 4 0; Reference.pt 1 5 (-1)]
              (-5) 0 5 (-5) 0 5).
Proof.
  split; [exact plane_inliers_in_range|].
  exact (rectangularThreshold_concatenates_inliers _ _ _ _ _ _ _
           plane_inliers_in_range).
Defined.

(** ** The stitched cloud *)

Section StitchingFacts.

Import Stitching.

Context {F : Float32} {P : PCL}.

Lemma addCloud_unfolded (self : StitchedCloud) (new_cloud : PointCloud)
    (transformation : TransformStore.TransformData) :
  let prepared :=
    filterRangeZ
      (transform (downSample (removeOutliers new_cloud 100 1) 100) transformation)
      0 10000 in
  let target := stitched_cloud self in
  let coarse :=
    sac_ia_align 10 prepared (fpfh_estimation 250 prepared (normal_estimation 100 prepared))
      target (fpfh_estimation 250 target (normal_estimation 100 target)) in
  let fine := icp_align 10 coarse target in
  addCloud self new_cloud transformation
  = mkStitched (downSample (target ++ fine) 100) (console self ++ addCloud_lines).
Proof.
  destruct self as [target lines]. unfold addCloud, registerWithSAC, registerWithICP,
    print_highlight, addCloud_lines.
  cbn [stitched_cloud console]. rewrite <- !app_assoc. reflexivity.
Qed.

End StitchingFacts.

(** C9. The first frame seeds the stitched model through outlier removal
    (100 neighbours, multiplier 2), then downsampling (leaf 100), then
    the range filter on z (0 to 10000), and through nothing else: no
    registration primitive takes part and nothing is printed; [main]
    builds the model from the first sorted file in this way and only the
    later files go through [addCloud]. *)
Theorem first_frame_seeds_model {F : Float32} {P : PCL}
    (minus : TransformStore.TransformData -> TransformStore.TransformData ->
             TransformStore.TransformData)
    (directory first : string) (others : list string)
    (cloud_transformations : list TransformStore.TransformData)
    (point_cloud : PointCloud) :
  Stitching.StitchedCloud_new point_cloud
  = Stitching.mkStitched
      (PassThrough field_z (f32_of_double 0) (f32_of_double 10000)
         (voxel_grid (f32_of_int 100)
            (statistical_outlier_removal 100 (double_of_int 2) point_cloud)))
      []
  /\ Forall (fun p => passes field_z (f32_of_double 0) (f32_of_double 10000) p = true)
       (Stitching.stitched_cloud (Stitching.StitchedCloud_new point_cloud))
  /\ Stitching.stitch minus directory (first :: others) cloud_transformations
     = for_each (range 1 (vsize (first :: others)))
         (Stitching.add_frame minus directory (first :: others) cloud_transformations)
         (Stitching.StitchedCloud_new (read_pcd (String.append directory first))).
Proof.
  split; [reflexivity|]. split; [|reflexivity].
  apply List.Forall_forall. intros p Hp.
  unfold Stitching.StitchedCloud_new, Stitching.filterRangeZ, PassThrough in Hp.
  cbn [Stitching.stitched_cloud] in Hp.
  apply filter_In in Hp as [_ Hp]. exact Hp.
Qed.

(** C6 (as amended). [addCloud] has no test on the number of points: for
    every candidate and every stitched cloud it runs the coarse stage and
    then the fine stage, each on what the stage before it returned, and
    merges the cloud the fine stage returns; it prints the line of every
    stage and throws nothing of its own. *)
Theorem addCloud_always_registers {F : Float32} {P : PCL}
    (self : Stitching.StitchedCloud) (new_cloud : PointCloud)
    (transformation : TransformStore.TransformData) :
  let prepared :=
    Stitching.filterRangeZ
      (Stitching.transform
         (Stitching.downSample (Stitching.removeOutliers new_cloud 100 1) 100)
         transformation)
      0 10000 in
  let target := Stitching.stitched_cloud self in
  let coarse :=
    sac_ia_align 10 prepared (fpfh_estimation 250 prepared (normal_estimation 100 prepared))
      target (fpfh_estimation 250 target (normal_estimation 100 target)) in
  let fine := icp_align 10 coarse target in
  Stitching.addCloud self new_cloud transformation
  = Stitching.mkStitched (Stitching.downSample (target ++ fine) 100)
      (Stitching.console self ++ Stitching.addCloud_lines).
Proof. apply addCloud_unfolded. Qed.

(** C6, as the claim states it, fails: with no point at all in the
    candidate and none in the stitched cloud, the two registration stages
    are not skipped: [addCloud] enters both and prints their lines. *)
Lemma addCloud_registers_empty_clouds :
  Stitching.stitched_cloud (Stitching.StitchedCloud_new []) = []
  /\ Stitching.console
       (Stitching.addCloud (Stitching.StitchedCloud_new []) []
          TransformStore.TransformData_default)
     = [ "Remove outliers"; "Downsample (1)"; "Transform"; "Passthrough filter";
         "Normals"; "Fast point feature histogram";
         "Sample consensus initial alignment"; "Iterative closest point";
         "Downsample (2)" ]%string.
Proof. split; reflexivity. Qed.

(** ** The pose correction *)

Section PoseFacts.

Context {F : Float32} {P : PCL}.

Lemma prior_transform_row (t0 t1 t2 rotx roty rotz : float) (rest : list float) :
  Cleanup.prior_transform (t0 :: t1 :: t2 :: rotx :: roty :: rotz :: rest)
  = Ret (mkAffine
           (rotation_xyz (f32_of_double (-1 * rotx)) (f32_of_double (-1 * roty))
              (f32_of_double (-1 * rotz)))
           (mkVec (f32_of_double (-1 * t0)) (f32_of_double (-1 * t1))
              (f32_of_double (-1 * t2)))).
Proof.
  unfold Cleanup.prior_transform.
  rewrite (vget_lookup _ 0 t0), (vget_lookup _ 1 t1), (vget_lookup _ 2 t2),
    (vget_lookup _ 3 rotx), (vget_lookup _ 4 roty), (vget_lookup _ 5 rotz)
    by (reflexivity || lia).
  reflexivity.
Qed.

End PoseFacts.

(** C4 (as amended). In the cleanup program, when a transformations
    file was supplied and the row of the frame holds dx, dy, dz, rotx,
    roty, rotz, [processPCD] transforms the cloud it read, before the
    depth filter and the plane fit see it, by one affine map: every point
    is multiplied by the matrix Rx(-rotx) Ry(-roty) Rz(-rotz), the
    rotations by the negated angles composed on the right in the order
    of the calls, so that the rotation about z acts on the point first
    and the one about x last, and is then moved by the negated offset
    (-dx, -dy, -dz).  In the stitching program the linear part of
    [transform] is built in the same way from the negated angles, and
    [addCloud] applies [transform] after outlier removal and
    downsampling. *)
Theorem pose_correction_rotates_then_translates {F : Float32} {P : PCL}
    (g : Cleanup.globals) (path : string) (sh : Cleanup.shared)
    (dx dy dz rotx roty rotz : float) (rest : list float)
    (t : TransformStore.TransformData) (self : Stitching.StitchedCloud)
    (new_cloud : PointCloud) :
  Cleanup.transformations_file_supplied g = true ->
  Cleanup.prior_row g path = Ret (dx :: dy :: dz :: rotx :: roty :: rotz :: rest) ->
  let rotation :=
    mat_mul
      (mat_mul
         (mat_mul (linear Identity) (AngleAxisf (f32_of_double (-1 * rotx)) UnitX))
         (AngleAxisf (f32_of_double (-1 * roty)) UnitY))
      (AngleAxisf (f32_of_double (-1 * rotz)) UnitZ) in
  let correct (p : PointXYZ) :=
    PoseClaim.translate_point (f32_of_double (-1 * dx)) (f32_of_double (-1 * dy))
      (f32_of_double (-1 * dz)) (PoseClaim.rotate_point rotation p) in
  let corrected := map correct (read_pcd path) in
  Cleanup.correct_pose g path (read_pcd path) = Ret corrected
  /\ Cleanup.processPCD g path sh
     = bind (Cleanup.plane_fit (Cleanup.depth_filter corrected))
         (fun fitted =>
            Ret (Cleanup.mkShared corrected (Cleanup.stitched_cloud sh ++ fitted)
                   (Cleanup.stitch_mutex sh)))
  /\ linear (Stitching.transform_affine t)
     = rotation_xyz (f32_of_double (- TransformStore.rotx t))
         (f32_of_double (- TransformStore.roty t))
         (f32_of_double (- TransformStore.rotz t))
  /\ exists registered,
       Stitching.stitched_cloud (Stitching.addCloud self new_cloud t)
       = Stitching.downSample (Stitching.stitched_cloud self ++ registered) 100
       /\ registered
          = icp_align 10
              (let prepared :=
                 Stitching.filterRangeZ
                   (Stitching.transform
                      (Stitching.downSample
                         (Stitching.removeOutliers new_cloud 100 1) 100) t)
                   0 10000 in
               sac_ia_align 10 prepared
                 (fpfh_estimation 250 prepared (normal_estimation 100 prepared))
                 (Stitching.stitched_cloud self)
                 (fpfh_estimation 250 (Stitching.stitched_cloud self)
                    (normal_estimation 100 (Stitching.stitched_cloud self))))
              (Stitching.stitched_cloud self).
Proof.
  intros Hsupplied Hrow rotation correct corrected.
  assert (Hpose : Cleanup.correct_pose g path (read_pcd path) = Ret corrected).
  { unfold Cleanup.correct_pose. rewrite Hsupplied, Hrow. cbn [bind].
    rewrite prior_transform_row. reflexivity. }
  split; [exact Hpose|]. split.
  - unfold Cleanup.processPCD. rewrite Hpose. reflexivity.
  - split; [reflexivity|].
    eexists. rewrite addCloud_unfolded. split; reflexivity.
Qed.

Lemma pose_correction_rotates_then_translates_witness :
  let g :=
    Cleanup.mkGlobals [[0; 0; 0; 0; 0; 0]; [1; 2; 3; 1; 0.5; 0.25]]%float true in
  let rotation :=
    mat_mul
      (mat_mul
         (mat_mul (linear Identity) (AngleAxisf (f32_of_double (-1 * 1)) UnitX))
         (AngleAxisf (f32_of_double (-1 * 0.5)) UnitY))
      (AngleAxisf (f32_of_double (-1 * 0.25)) UnitZ) in
  Cleanup.transformations_file_supplied g = true
  /\ Cleanup.prior_row g "scanD1.pcd" = Ret [1; 2; 3; 1; 0.5; 0.25]%float
  /\ read_pcd "scanD1.pcd" = [pt 0 0 (-1)]
  /\ Cleanup.correct_pose g "scanD1.pcd" (read_pcd "scanD1.pcd")
     = Ret [ PoseClaim.translate_point (f32_of_double (-1 * 1))
               (f32_of_double (-1 * 2)) (f32_of_double (-1 * 3))
               (PoseClaim.rotate_point rotation (pt 0 0 (-1))) ]
  /\ PoseClaim.rotate_point rotation (pt 0 0 (-1)) <> pt 0 0 (-1).
Proof.
  intros g rotation.
  assert (H1 : Cleanup.transformations_file_supplied g = true) by reflexivity.
  assert (H2 : Cleanup.prior_row g "scanD1.pcd" = Ret [1; 2; 3; 1; 0.5; 0.25]%float)
    by reflexivity.
  split; [exact H1|]. split; [exact H2|]. split; [reflexivity|]. split.
  - exact (proj1 (pose_correction_rotates_then_translates g "scanD1.pcd"
                    (Cleanup.mkShared [] [] None) 1 2 3 1 0.5 0.25 []
                    TransformStore.TransformData_default (Stitching.mkStitched [] [])
                    [] H1 H2)).
  - intros H. apply (f_equal y) in H. vm_compute in H. discriminate H.
Defined.

(** C4, as the claim states it, fails in both programs.  In the cleanup
    program the offset is not taken off before the rotations and the
    rotation about x does not come first: with the prior (1, 0, 0) turned
    by 1 about z, the point (1, 0, 0) does not go to the origin, where
    translating and then rotating sends it; and with the angles 1 about x
    and 1 about z the result is not the one of rotating about x and then
    about z.  In the stitching program, for the prior with offset
    (1, 0, 0) and no rotation, [transform] moves the origin to (1, 0, 0),
    which is not the negated offset, and [addCloud] runs it third, after
    outlier removal and downsampling. *)
Lemma pose_correction_is_not_translate_then_rotate :
  Cleanup.correct_pose
    (Cleanup.mkGlobals [[1; 0; 0; 0; 0; 1]; [0; 0; 0; 1; 0; 1]]%float true)
    "scanD0.pcd" [pt 1 0 0]
  <> Ret [PoseClaim.translate_then_rotate 1 0 0 0 0 1 (pt 1 0 0)]
  /\ PoseClaim.translate_then_rotate 1 0 0 0 0 1 (pt 1 0 0) = pt 0 0 0
  /\ Cleanup.correct_pose
       (Cleanup.mkGlobals [[1; 0; 0; 0; 0; 1]; [0; 0; 0; 1; 0; 1]]%float true)
       "scanD1.pcd" [pt 1 0 0]
     <> Ret [PoseClaim.translate_then_rotate 0 0 0 1 0 1 (pt 1 0 0)]
  /\ Stitching.transform [pt 0 0 0] (TransformStore.mkTransformData 1 0 0 0 0 0 0)
     = [pt 1 0 0]
  /\ pt 1 0 0 <> pt (-1) 0 0
  /\ firstn 3
       (Stitching.console
          (Stitching.addCloud (Stitching.mkStitched [] []) [pt 0 0 0]
             (TransformStore.mkTransformData 1 0 0 0 0 0 0)))
     = ["Remove outliers"; "Downsample (1)"; "Transform"]%string.
Proof.
  assert (Hy : forall (o : outcome PointCloud) (p : PointXYZ),
            match o with Ret [q] => y q | _ => f0 end <> y p -> o <> Ret [p]).
  { intros o p Hne ->. apply Hne. reflexivity. }
  split; [apply Hy; intros H; vm_compute in H; discriminate H|].
  split; [reflexivity|].
  split; [apply Hy; intros H; vm_compute in H; discriminate H|].
  split; [reflexivity|]. split; [discriminate|reflexivity].
Qed.

(** ** The workers of the cleanup program *)

Section WorkerFacts.

Import Cleanup.

Context {F : Float32} {P : PCL}.

Variable g : globals.

Lemma spawned_invariant (directory : string) (files_to_process : list string) :
  lock_invariant (spawned directory files_to_process).
Proof.
  assert (Hplace : forall tid w,
            workers (spawned directory files_to_process) !! tid = Some w ->
            place w = at_read).
  { intros tid w Hw. unfold spawned in Hw. cbn [workers] in Hw.
    rewrite list_lookup_fmap in Hw.
    destruct (files_to_process !! tid); inversion Hw. reflexivity. }
  split.
  - intros tid w Hw Hin. unfold in_critical_section in Hin.
    rewrite (Hplace tid w Hw) in Hin. discriminate.
  - intros tid Hm. discriminate.
  - intros tid w Hw. unfold preprocessed. rewrite (Hplace tid w Hw). exact I.
Qed.

(** A worker that moves without touching the mutex, from outside the
    critical section to outside it. *)
Lemma step_outside (sh sh' : shared) (ws : list worker) (tid : nat) (w w' : worker) :
  lock_invariant (mkConfig sh ws) ->
  ws !! tid = Some w ->
  in_critical_section w = false ->
  in_critical_section w' = false ->
  stitch_mutex sh' = stitch_mutex sh ->
  preprocessed w' ->
  lock_invariant (mkConfig sh' (<[tid := w']> ws)).
Proof.
  intros [H1 H2 H3] Hw Hout Hout' Hmutex Hpre.
  assert (Hlt : (tid < length ws)%nat) by (eapply lookup_lt_Some; exact Hw).
  cbn [memory workers] in *. split; cbn [memory workers].
  - intros tid0 w0 Hw0 Hin. rewrite Hmutex.
    destruct (decide (tid0 = tid)) as [->|Hne].
    + rewrite list_lookup_insert_eq in Hw0 by exact Hlt. congruence.
    + rewrite list_lookup_insert_ne in Hw0 by congruence. eauto.
  - intros tid0 Hm. rewrite Hmutex in Hm.
    destruct (H2 tid0 Hm) as (w0 & Hw0 & Hin).
    destruct (decide (tid0 = tid)) as [->|Hne]; [congruence|].
    exists w0. rewrite list_lookup_insert_ne by congruence. auto.
  - intros tid0 w0 Hw0.
    destruct (decide (tid0 = tid)) as [->|Hne].
    + rewrite list_lookup_insert_eq in Hw0 by exact Hlt. congruence.
    + rewrite list_lookup_insert_ne in Hw0 by congruence. eauto.
Qed.

Lemma step_invariant (c c' : config) (tid : nat) :
  lock_invariant c -> step g tid c = Some (Ret c') -> lock_invariant c'.
Proof.
  intros Hinv Hstep. destruct c as [sh ws]. unfold step in Hstep.
  cbn [memory workers] in Hstep.
  destruct (ws !! tid) as [w|] eqn:Hw; [|discriminate].
  assert (Hlt : (tid < length ws)%nat) by (eapply lookup_lt_Some; exact Hw).
  pose proof (workers_preprocessed _ Hinv tid w Hw) as Hpre.
  unfold step_worker in Hstep. unfold preprocessed in Hpre.
  destruct w as [pth fc pl]. cbn [place path filtered_cloud] in *.
  destruct pl.
  - (* the file is read *)
    inversion Hstep; subst; clear Hstep.
    eapply step_outside; eauto; reflexivity.
  - (* the pose is corrected *)
    destruct (correct_pose g pth (src_cloud sh)) as [corrected| |];
      cbn [bind] in Hstep; inversion Hstep; subst; clear Hstep.
    eapply step_outside; eauto; reflexivity.
  - (* the depth filter *)
    inversion Hstep; subst; clear Hstep.
    eapply step_outside; eauto; try reflexivity.
    cbn. eauto.
  - (* the plane fit *)
    destruct Hpre as [corrected ->].
    destruct (plane_fit (depth_filter corrected)) as [fitted| |] eqn:Hfit;
      cbn [bind] in Hstep; inversion Hstep; subst; clear Hstep.
    eapply step_outside; eauto; try reflexivity.
    cbn. eauto.
  - (* the mutex is taken *)
    destruct (stitch_mutex sh) as [owner|] eqn:Hm; [discriminate|].
    inversion Hstep; subst; clear Hstep.
    destruct Hinv as [H1 H2 H3]. cbn [memory workers] in *.
    split; cbn [memory workers stitch_mutex].
    + intros tid0 w0 Hw0 Hin.
      destruct (decide (tid0 = tid)) as [->|Hne]; [reflexivity|].
      rewrite list_lookup_insert_ne in Hw0 by congruence.
      rewrite (H1 tid0 w0 Hw0 Hin) in Hm. discriminate.
    + intros tid0 Hm0. inversion Hm0; subst.
      eexists. rewrite list_lookup_insert_eq by exact Hlt. split; reflexivity.
    + intros tid0 w0 Hw0.
      destruct (decide (tid0 = tid)) as [->|Hne].
      * rewrite list_lookup_insert_eq in Hw0 by exact Hlt.
        inversion Hw0; subst. exact Hpre.
      * rewrite list_lookup_insert_ne in Hw0 by congruence. eauto.
  - (* the cloud is appended *)
    inversion Hstep; subst; clear Hstep.
    destruct Hinv as [H1 H2 H3]. cbn [memory workers] in *.
    pose proof (H1 tid _ Hw eq_refl) as Hm.
    split; cbn [memory workers stitch_mutex].
    + intros tid0 w0 Hw0 Hin.
      destruct (decide (tid0 = tid)) as [->|Hne]; [exact Hm|].
      rewrite list_lookup_insert_ne in Hw0 by congruence. eauto.
    + intros tid0 Hm0. rewrite Hm in Hm0. inversion Hm0; subst.
      eexists. rewrite list_lookup_insert_eq by exact Hlt. split; reflexivity.
    + intros tid0 w0 Hw0.
      destruct (decide (tid0 = tid)) as [->|Hne].
      * rewrite list_lookup_insert_eq in Hw0 by exact Hlt.
        inversion Hw0; subst. exact Hpre.
      * rewrite list_lookup_insert_ne in Hw0 by congruence. eauto.
  - (* the mutex is released *)
    inversion Hstep; subst; clear Hstep.
    destruct Hinv as [H1 H2 H3]. cbn [memory workers] in *.
    pose proof (H1 tid _ Hw eq_refl) as Hm.
    split; cbn [memory workers stitch_mutex].
    + intros tid0 w0 Hw0 Hin.
      destruct (decide (tid0 = tid)) as [->|Hne].
      * rewrite list_lookup_insert_eq in Hw0 by exact Hlt.
        inversion Hw0; subst. discriminate.
      * rewrite list_lookup_insert_ne in Hw0 by congruence.
        pose proof (H1 tid0 w0 Hw0 Hin). congruence.
    + intros tid0 Hm0. discriminate.
    + intros tid0 w0 Hw0.
      destruct (decide (tid0 = tid)) as [->|Hne].
      * rewrite list_lookup_insert_eq in Hw0 by exact Hlt.
        inversion Hw0; subst. exact Hpre.
      * rewrite list_lookup_insert_ne in Hw0 by congruence. eauto.
  - discriminate.
Qed.

Lemma reachable_invariant (start c : config) :
  lock_invariant start -> reachable g start c -> lock_invariant c.
Proof.
  intros Hstart. induction 1 as [|c c' tid Hreach IH Hstep].
  - exact Hstart.
  - eapply step_invariant; eauto.
Qed.

(** Only the statement under the lock changes the stitched cloud. *)
Lemma step_changes_stitched (c c' : config) (tid : nat) :
  lock_invariant c -> step g tid c = Some (Ret c') ->
  stitched_cloud (memory c') = stitched_cloud (memory c)
  \/ stitch_mutex (memory c) = Some tid.
Proof.
  intros Hinv Hstep. destruct c as [sh ws]. unfold step in Hstep.
  cbn [memory workers] in *.
  destruct (ws !! tid) as [w|] eqn:Hw; [|discriminate].
  destruct (in_critical_section w) eqn:Hin.
  - right. exact (inside_holds _ Hinv tid w Hw Hin).
  - left. unfold step_worker in Hstep. unfold in_critical_section in Hin.
    destruct w as [pth fc pl]. cbn [place path filtered_cloud] in *.
    destruct pl; try discriminate.
    + inversion Hstep; reflexivity.
    + destruct (correct_pose g pth (src_cloud sh)); cbn [bind] in Hstep;
        inversion Hstep; reflexivity.
    + inversion Hstep; reflexivity.
    + destruct (plane_fit fc); cbn [bind] in Hstep; inversion Hstep; reflexivity.
    + destruct (stitch_mutex sh); inversion Hstep; reflexivity.
Qed.

Lemma run_reachable (start : config) (schedule : list nat) (c : config) :
  reachable g start c -> reachable g start (run g schedule c).
Proof.
  revert c. induction schedule as [|tid rest IH]; intros c Hc; cbn [run].
  - exact Hc.
  - destruct (step g tid c) as [[c'| |]|] eqn:Hstep; auto.
    apply IH. eapply reach_step; eauto.
Qed.

End WorkerFacts.

(** C5. In every execution of the workers [main] starts, whatever the
    scheduler does, the stitched cloud is changed only by a worker that
    holds [stitch_mutex]; a worker holds the mutex only from the
    construction of the lock guard to the end of [processPCD], that is
    across the append; and it has read, corrected, filtered and fitted its
    frame before it takes the mutex. *)
Theorem merged_cloud_mutated_under_lock {F : Float32} {P : PCL}
    (g : Cleanup.globals) (directory : string) (files_to_process : list string)
    (c : Cleanup.config) :
  Cleanup.reachable g (Cleanup.spawned directory files_to_process) c ->
  Cleanup.lock_discipline g c.
Proof.
  intros Hreach.
  pose proof (reachable_invariant g _ c
                (spawned_invariant directory files_to_process) Hreach) as Hinv.
  split; [|split].
  - intros tid w Hw. split.
    + intros Hm.
      destruct (Cleanup.holder_inside _ Hinv tid Hm) as (w' & Hw' & Hin).
      assert (w' = w) by congruence. subst w'.
      unfold Cleanup.in_critical_section in Hin.
      destruct (Cleanup.place w); try discriminate; auto.
    + intros Hplace. apply (Cleanup.inside_holds _ Hinv tid w Hw).
      unfold Cleanup.in_critical_section. destruct Hplace as [-> | ->]; reflexivity.
  - intros tid w Hw Hm.
    destruct (Cleanup.holder_inside _ Hinv tid Hm) as (w' & Hw' & Hin).
    assert (w' = w) by congruence. subst w'.
    pose proof (Cleanup.workers_preprocessed _ Hinv tid w Hw) as Hpre.
    unfold Cleanup.preprocessed in Hpre. unfold Cleanup.in_critical_section in Hin.
    destruct (Cleanup.place w); try discriminate; exact Hpre.
  - intros tid c' Hstep. eapply step_changes_stitched; eauto.
Qed.

Lemma merged_cloud_mutated_under_lock_witness :
  let g := Cleanup.mkGlobals [] false in
  let start := Cleanup.spawned "" ["scanD1.pcd"; "scanD2.pcd"]%string in
  let c := Cleanup.run g [0; 0; 1; 0; 0; 1; 0; 1; 1; 1]%nat start in
  Cleanup.reachable g start c
  /\ Cleanup.stitch_mutex (Cleanup.memory c) = Some 0%nat
  /\ Cleanup.lock_discipline g c.
Proof.
  intros g start c.
  assert (H : Cleanup.reachable g start c)
    by (apply run_reachable, Cleanup.reach_start).
  split; [exact H|]. split; [reflexivity|].
  exact (merged_cloud_mutated_under_lock g "" ["scanD1.pcd"; "scanD2.pcd"]%string c H).
Defined.

(** ** Further facts about [processPCD] *)

(** The workers share [src_cloud] and write it outside the mutex: when
    the second worker reads its file between the read and the depth filter
    of the first, the first worker filters the cloud of the second file. *)
Theorem workers_share_src_cloud {F : Float32} {P : PCL}
    (table : list (list float)) (directory first second : string) :
  Cleanup.workers
    (Cleanup.run (Cleanup.mkGlobals table false) [0; 1; 0; 0]%nat
       (Cleanup.spawned directory [first; second]))
  = [ Cleanup.mkWorker (String.append directory first)
        (Cleanup.depth_filter (read_pcd (String.append directory second)))
        Cleanup.at_plane_fit;
      Cleanup.mkWorker (String.append directory second) [] Cleanup.at_correct_pose ].
Proof. reflexivity. Qed.

(** ** Loops and conversions *)

Lemma to_int_small (n : Z) : 0 <= n < 2 ^ 31 -> to_int n = n.
Proof. intros H. unfold to_int. rewrite Z.mod_small; lia. Qed.

Lemma to_size_t_small (n : Z) : 0 <= n < 2 ^ 64 -> to_size_t n = n.
Proof. intros H. unfold to_size_t, size_max. apply Z.mod_small. exact H. Qed.

Lemma vsize_nonneg {A : Type} (v : list A) : 0 <= vsize v.
Proof. unfold vsize. lia. Qed.

Lemma vsize_app {A : Type} (v w : list A) : vsize (v ++ w) = vsize v + vsize w.
Proof. unfold vsize. rewrite length_app. lia. Qed.

Lemma range_cons (lo hi : Z) : lo < hi -> range lo hi = lo :: range (lo + 1) hi.
Proof.
  intros H. unfold range.
  replace (Z.to_nat (hi - lo)) with (S (Z.to_nat (hi - (lo + 1)))) by lia.
  cbn [seq map]. f_equal; [lia|].
  rewrite <- seq_shift, map_map. apply map_ext. intros k. lia.
Qed.

Lemma range_empty (lo hi : Z) : hi <= lo -> range lo hi = [].
Proof. intros H. unfold range. replace (Z.to_nat (hi - lo)) with 0%nat by lia. reflexivity. Qed.

Lemma range_split (lo mid hi : Z) :
  lo <= mid <= hi -> range lo hi = range lo mid ++ range mid hi.
Proof.
  intros H. remember (Z.to_nat (mid - lo)) as k eqn:Hk.
  revert lo H Hk. induction k as [|k IH]; intros lo H Hk.
  - assert (lo = mid) by lia. subst lo. rewrite (range_empty mid mid) by lia.
    reflexivity.
  - rewrite (range_cons lo hi), (range_cons lo mid) by lia. cbn [app]. f_equal.
    apply IH; lia.
Qed.

Lemma vsize_range (lo hi : Z) : lo <= hi -> vsize (range lo hi) = hi - lo.
Proof. intros H. unfold vsize, range. rewrite length_map, length_seq. lia. Qed.

Lemma for_each_app {S J : Type} (js ks : list J) (body : J -> S -> outcome S) (s : S) :
  for_each (js ++ ks) body s = bind (for_each js body s) (for_each ks body).
Proof.
  revert s. induction js as [|j js IH]; intros s; cbn [app for_each].
  - reflexivity.
  - destruct (body j s); cbn [bind]; auto.
Qed.

(** A loop whose rounds either fail in the same way or keep [Inv]. *)
Lemma for_each_keeps {S J : Type} (Inv : S -> Prop) (u : undefined) (js : list J)
    (body : J -> S -> outcome S) :
  (forall j s, In j js -> Inv s ->
     body j s = UB u \/ exists s', body j s = Ret s' /\ Inv s') ->
  forall s, Inv s ->
    for_each js body s = UB u \/ exists s', for_each js body s = Ret s' /\ Inv s'.
Proof.
  induction js as [|j js IH]; intros Hbody s Hs; cbn [for_each].
  - right. eauto.
  - destruct (Hbody j s (or_introl eq_refl) Hs) as [->|(s' & -> & Hs')];
      [left; reflexivity|].
    cbn [bind]. apply IH; [|exact Hs'].
    intros k s0 Hk. apply Hbody. right. exact Hk.
Qed.

(** ** The averaging block of the cleanup program *)

Section AverageRowsFacts.

Import CleanupMain.

Lemma vget2_result (m : list (list float)) (r c : Z) :
  vget2 m r c = UB vector_index_out_of_bounds \/ exists a, vget2 m r c = Ret a.
Proof.
  unfold vget2. destruct (vget_result m r) as [->|[row ->]]; [left; reflexivity|].
  cbn [bind]. apply vget_result.
Qed.

Lemma vset2_result (m : list (list float)) (r c : Z) (a : float) :
  vset2 m r c a = UB vector_index_out_of_bounds
  \/ exists m', vset2 m r c a = Ret m' /\ vsize m' = vsize m.
Proof.
  unfold vset2. destruct (vget_result m r) as [->|[row ->]]; [left; reflexivity|].
  cbn [bind]. destruct (vset_result row c a) as [->|(row' & -> & _)];
    [left; reflexivity|].
  cbn [bind]. apply vset_result.
Qed.

Lemma add_cell_result (raw : list (list float)) (num row col : Z)
    (t : list (list float)) :
  add_cell raw num row col t = UB vector_index_out_of_bounds
  \/ exists t', add_cell raw num row col t = Ret t' /\ vsize t' = vsize t.
Proof.
  unfold add_cell.
  destruct (vget2_result t (to_int (to_size_t row / (vsize raw / to_size_t num))) col)
    as [->|[sum ->]]; [left; reflexivity|].
  cbn [bind]. destruct (vget2_result raw row col) as [->|[val ->]];
    [left; reflexivity|].
  cbn [bind]. apply vset2_result.
Qed.

Lemma add_cells_result (raw : list (list float)) (num row : Z) (cols : list Z)
    (t : list (list float)) :
  for_each cols (add_cell raw num row) t = UB vector_index_out_of_bounds
  \/ exists t', for_each cols (add_cell raw num row) t = Ret t' /\ vsize t' = vsize t.
Proof.
  apply (for_each_keeps (fun t' => vsize t' = vsize t)); [|reflexivity].
  intros col t0 _ Ht0.
  destruct (add_cell_result raw num row col t0) as [->|(t' & -> & Hlen)];
    [left; reflexivity|].
  right. exists t'. split; [reflexivity | lia].
Qed.

(** A row that starts no new record leaves their number as it is. *)
Lemma add_row_inside (raw : list (list float)) (num num_cols row : Z)
    (t : list (list float)) :
  Z.rem row num <> 0 ->
  add_row raw num num_cols row t = UB vector_index_out_of_bounds
  \/ exists t', add_row raw num num_cols row t = Ret t' /\ vsize t' = vsize t.
Proof.
  intros Hrem. unfold add_row.
  destruct (Z.rem row num =? 0) eqn:H0; [apply Z.eqb_eq in H0; contradiction|].
  apply add_cells_result.
Qed.

End AverageRowsFacts.

(** With fewer frame files than rows per file, and that is every run with
    one file and two rows or more, the averaging block of the cleanup
    program reads [translation_and_rotation] past its end: the row index
    is divided by the number of groups instead of the rows per group. *)
Theorem average_rows_few_files (raw : list (list float)) (n_files : Z)
    (first_row : list float) :
  1 <= n_files ->
  n_files < vsize raw / n_files ->
  vsize raw < 2 ^ 31 ->
  raw !! 0%nat = Some first_row ->
  1 <= vsize first_row < 2 ^ 31 ->
  CleanupMain.average_rows raw n_files = CleanupMain.Ran (UB vector_index_out_of_bounds).
Proof.
  intros Hfiles Hfew Hsmall Hfirst Hcols.
  set (n := vsize raw) in *. set (R := n / n_files) in *.
  assert (Hn : 0 <= n) by apply vsize_nonneg.
  assert (HR : n_files * R <= n < n_files * (R + 1)).
  { unfold R. pose proof (Z.mul_div_le n n_files ltac:(lia)).
    pose proof (Z.mul_succ_div_gt n n_files ltac:(lia)). lia. }
  assert (HRn : R <= n) by nia.
  set (d := n / R).
  assert (Hd : 1 <= d < R).
  { unfold d. split.
    - apply Z.div_le_lower_bound; lia.
    - apply Z.div_lt_upper_bound; [lia|]. nia. }
  unfold CleanupMain.average_rows. fold n. fold R.
  rewrite (vget_lookup raw 0 first_row) by (lia || exact Hfirst).
  rewrite (to_int_small R), (to_int_small (vsize first_row)) by lia.
  destruct (R =? 0) eqn:HR0; [apply Z.eqb_eq in HR0; lia|].
  f_equal.
  assert (Hloop : for_each (range 0 n)
            (CleanupMain.add_row raw R (vsize first_row)) []
          = UB vector_index_out_of_bounds); [|rewrite Hloop; reflexivity].
  rewrite (range_cons 0 n) by lia. cbn [for_each].
  (* row 0 starts the only record there is before row d *)
  assert (H0 : CleanupMain.add_row raw R (vsize first_row) 0 []
               = UB vector_index_out_of_bounds
               \/ exists t, CleanupMain.add_row raw R (vsize first_row) 0 [] = Ret t
                            /\ vsize t = 1).
  { unfold CleanupMain.add_row. rewrite Z.rem_0_l by lia. cbn [Z.eqb app].
    apply add_cells_result. }
  destruct H0 as [->|(t0 & -> & Ht0)]; [reflexivity|]. cbn [bind].
  rewrite (range_split (0 + 1) d n) by lia. rewrite for_each_app.
  destruct (for_each_keeps (fun t => vsize t = 1) vector_index_out_of_bounds
              (range (0 + 1) d) (CleanupMain.add_row raw R (vsize first_row)))
    with (s := t0) as [->|(t1 & -> & Ht1)]; try reflexivity; try exact Ht0.
  { intros r t Hr Ht. apply range_bounds in Hr.
    destruct (add_row_inside raw R (vsize first_row) r t) as [->|(t' & -> & Hlen)];
      [rewrite Z.rem_small by lia; lia | left; reflexivity |].
    right. exists t'. split; [reflexivity | lia]. }
  cbn [bind]. rewrite (range_cons d n) by lia. cbn [for_each].
  assert (Hd_row : CleanupMain.add_row raw R (vsize first_row) d t1
                   = UB vector_index_out_of_bounds); [|rewrite Hd_row; reflexivity].
  unfold CleanupMain.add_row. rewrite Z.rem_small by lia.
  destruct (d =? 0) eqn:Hd0; [apply Z.eqb_eq in Hd0; lia|].
  rewrite (range_cons 0 (vsize first_row)) by lia. cbn [for_each].
  assert (Hcell : CleanupMain.add_cell raw R d 0 t1 = UB vector_index_out_of_bounds);
    [|rewrite Hcell; reflexivity].
  unfold CleanupMain.add_cell, CleanupMain.vget2. fold n.
  rewrite (to_size_t_small d), (to_size_t_small R) by lia. fold d.
  rewrite Z.div_same by lia. rewrite (to_int_small 1) by lia.
  rewrite (vget_out_of_bounds t1 1) by lia. reflexivity.
Qed.

Lemma average_rows_few_files_witness :
  let raw := [[1; 0; 0; 0; 0; 0]; [3; 0; 0; 0; 0; 0]]%float in
  1 <= 1
  /\ 1 < vsize raw / 1
  /\ vsize raw < 2 ^ 31
  /\ raw !! 0%nat = Some [1; 0; 0; 0; 0; 0]%float
  /\ 1 <= vsize [1; 0; 0; 0; 0; 0]%float < 2 ^ 31
  /\ CleanupMain.average_rows raw 1 = CleanupMain.Ran (UB vector_index_out_of_bounds).
Proof.
  intros raw.
  assert (H1 : 1 <= 1) by lia.
  assert (H2 : 1 < vsize raw / 1) by (vm_compute; reflexivity).
  assert (H3 : vsize raw < 2 ^ 31) by (vm_compute; reflexivity).
  assert (H4 : raw !! 0%nat = Some [1; 0; 0; 0; 0; 0]%float) by reflexivity.
  assert (H5 : 1 <= vsize [1; 0; 0; 0; 0; 0]%float < 2 ^ 31)
    by (vm_compute; split; [discriminate | reflexivity]).
  split; [exact H1|]. split; [exact H2|]. split; [exact H3|]. split; [exact H4|].
  split; [exact H5|].
  exact (average_rows_few_files raw 1 _ H1 H2 H3 H4 H5).
Defined.

(** With fewer rows in the transformations file than frame files, the
    averaging block of the cleanup program does not return: without any
    row it reads the first row of an empty table, with some rows the
    number of rows per file is 0 and the first statement of the loop
    divides by it. *)
Theorem average_rows_fewer_rows_than_files (raw : list (list float)) (n_files : Z) :
  vsize raw < n_files ->
  vsize raw < 2 ^ 31 ->
  CleanupMain.average_rows raw n_files =
    match raw with
    | [] => CleanupMain.Ran (UB vector_index_out_of_bounds)
    | _ :: _ => CleanupMain.DividedByZero
    end.
Proof.
  intros Hfew Hsmall. pose proof (vsize_nonneg raw) as Hn.
  unfold CleanupMain.average_rows. rewrite Z.div_small by lia.
  destruct raw as [|first_row others]; [reflexivity|].
  rewrite (vget_lookup _ 0 first_row) by (lia || reflexivity). reflexivity.
Qed.

Lemma average_rows_fewer_rows_than_files_witness :
  vsize [[1; 2; 3; 4; 5; 6]%float] < 4
  /\ vsize [[1; 2; 3; 4; 5; 6]%float] < 2 ^ 31
  /\ CleanupMain.average_rows [[1; 2; 3; 4; 5; 6]%float] 4 = CleanupMain.DividedByZero.
Proof.
  assert (H1 : vsize [[1; 2; 3; 4; 5; 6]%float] < 4) by (vm_compute; reflexivity).
  assert (H2 : vsize [[1; 2; 3; 4; 5; 6]%float] < 2 ^ 31) by (vm_compute; reflexivity).
  split; [exact H1|]. split; [exact H2|].
  exact (average_rows_fewer_rows_than_files _ 4 H1 H2).
Defined.

(** ** The threads of the cleanup program *)

Section ScheduleFacts.

Import CleanupMain.

Lemma range_snoc (lo hi : Z) : lo <= hi -> range lo hi ++ [hi] = range lo (hi + 1).
Proof.
  intros H. rewrite (range_split lo hi (hi + 1)) by lia.
  rewrite (range_cons hi (hi + 1)) by lia. rewrite (range_empty (hi + 1)) by lia.
  reflexivity.
Qed.

Lemma int_add_small (a b : Z) : 0 <= a + b < 2 ^ 31 -> int_add a b = Ret (a + b).
Proof.
  intros H. unfold int_add, INT_MIN, INT_MAX.
  destruct (- 2 ^ 31 <=? a + b) eqn:H1; [|apply Z.leb_gt in H1; lia].
  destruct (a + b <=? 2 ^ 31 - 1) eqn:H2; [reflexivity|apply Z.leb_gt in H2; lia].
Qed.

Variable n : Z.
Hypothesis n_small : 0 <= n < 2 ^ 31 - 1.

Lemma fill_starts (fuel : nat) (i : Z) :
  0 <= i <= Z.min 4 n -> Z.min 4 n - i <= Z.of_nat fuel ->
  fill fuel n (mkPool (range 0 i) i (map started (range 0 i)))
  = Ret (mkPool (range 0 (Z.min 4 n)) (Z.min 4 n) (map started (range 0 (Z.min 4 n)))).
Proof.
  revert i. induction fuel as [|fuel IH]; intros i Hi Hfuel.
  - assert (i = Z.min 4 n) by lia. subst i. cbn [fill next_file].
    rewrite to_size_t_small by lia.
    destruct ((Z.min 4 n <? 4) && (Z.min 4 n <? n)) eqn:Hc; [|reflexivity].
    apply andb_true_iff in Hc as [H1 H2].
    apply Z.ltb_lt in H1. apply Z.ltb_lt in H2. lia.
  - cbn [fill next_file process_threads events]. rewrite to_size_t_small by lia.
    destruct ((i <? 4) && (i <? n)) eqn:Hc.
    + apply andb_true_iff in Hc as [H1 H2].
      apply Z.ltb_lt in H1. apply Z.ltb_lt in H2.
      rewrite int_add_small by lia. cbn [bind].
      change [started i] with (map started [i]).
      rewrite <- (map_app started (range 0 i) [i]). rewrite range_snoc by lia.
      apply IH; lia.
    + assert (i = Z.min 4 n).
      { apply andb_false_iff in Hc as [H|H]; apply Z.ltb_ge in H; lia. }
      subst i. reflexivity.
Qed.

Lemma recycle_hands_over (fuel : nat) (i : Z) (done : list event) :
  4 <= i <= n -> n - i <= Z.of_nat fuel ->
  recycle fuel n (mkPool (range (i - 4) i) i done)
  = Ret (mkPool (range (n - 4) n) n (done ++ flat_map handover (range i n))).
Proof.
  revert i done. induction fuel as [|fuel IH]; intros i done Hi Hfuel.
  - assert (i = n) by lia. subst i. cbn [recycle next_file].
    rewrite to_size_t_small by lia. rewrite Z.ltb_irrefl.
    rewrite (range_empty n n) by lia. cbn [flat_map]. rewrite app_nil_r. reflexivity.
  - cbn [recycle next_file process_threads events]. rewrite to_size_t_small by lia.
    destruct (i <? n) eqn:Hc.
    + apply Z.ltb_lt in Hc.
      rewrite (range_cons (i - 4) i) by lia.
      rewrite (vget_lookup _ 0 (i - 4)) by (lia || reflexivity). cbn [bind].
      unfold verase. unfold vsize at 1. cbn [length].
      destruct ((0 <=? 0) && (0 <? Z.of_nat (S (length (range (i - 4 + 1) i))))) eqn:He;
        [|apply andb_false_iff in He as [H|H];
          [discriminate | apply Z.ltb_ge in H; lia]].
      cbn [bind].
      rewrite int_add_small by lia. cbn [bind].
      change (delete (Z.to_nat 0) (i - 4 :: range (i - 4 + 1) i))
        with (range (i - 4 + 1) i).
      rewrite range_snoc by lia.
      replace (i - 4 + 1) with (i + 1 - 4) by lia.
      rewrite IH by lia.
      rewrite (range_cons i n) by lia. cbn [flat_map].
      rewrite <- app_assoc. reflexivity.
    + apply Z.ltb_ge in Hc. assert (i = n) by lia. subst i.
      rewrite (range_empty n n) by lia. cbn [flat_map]. rewrite app_nil_r. reflexivity.
Qed.

(** The threads started and joined, written out. *)
Lemma schedule_events :
  schedule n
  = Ret (map started (range 0 (Z.min 4 n))
         ++ flat_map handover (range 4 n)
         ++ map joined (range (Z.max 0 (n - 4)) n)).
Proof.
  unfold schedule.
  pose proof (fill_starts 4 0 ltac:(lia) ltac:(lia)) as Hfill.
  rewrite (range_empty 0 0) in Hfill by lia. cbn [map] in Hfill.
  rewrite Hfill. cbn [bind].
  destruct (Z_lt_le_dec n 4) as [Hlt|Hge].
  - rewrite Z.min_r, Z.max_l by lia.
    destruct (Z.to_nat n) eqn:Hn; cbn [recycle next_file]; rewrite to_size_t_small by lia;
      rewrite Z.ltb_irrefl; cbn [bind drain events process_threads];
      rewrite (range_empty 4 n) by lia; reflexivity.
  - rewrite Z.min_l, Z.max_r by lia.
    pose proof (recycle_hands_over (Z.to_nat n) 4 (map started (range 0 4))
                  ltac:(lia) ltac:(lia)) as Hrec.
    replace (4 - 4) with 0 in Hrec by lia.
    rewrite Hrec. cbn [bind drain events process_threads].
    rewrite <- app_assoc. reflexivity.
Qed.

End ScheduleFacts.

Section TraceFacts.

Import CleanupMain.

Lemma started_files_app (a b : list event) :
  started_files (a ++ b) = started_files a ++ started_files b.
Proof. unfold started_files. apply flat_map_app. Qed.

Lemma joined_files_app (a b : list event) :
  joined_files (a ++ b) = joined_files a ++ joined_files b.
Proof. unfold joined_files. apply flat_map_app. Qed.

Lemma in_flight_app (a b : list event) : in_flight (a ++ b) = in_flight a + in_flight b.
Proof.
  unfold in_flight. rewrite started_files_app, joined_files_app, !vsize_app. lia.
Qed.

Lemma files_of_started (l : list Z) :
  started_files (map started l) = l /\ joined_files (map started l) = [].
Proof.
  unfold started_files, joined_files.
  induction l as [|k l [IH1 IH2]]; cbn; [auto|]. rewrite IH1, IH2. auto.
Qed.

Lemma files_of_joined (l : list Z) :
  started_files (map joined l) = [] /\ joined_files (map joined l) = l.
Proof.
  unfold started_files, joined_files.
  induction l as [|k l [IH1 IH2]]; cbn; [auto|]. rewrite IH1, IH2. auto.
Qed.

Lemma files_of_handovers (l : list Z) :
  started_files (flat_map handover l) = l
  /\ joined_files (flat_map handover l) = map (fun k => k - 4) l.
Proof.
  unfold started_files, joined_files.
  induction l as [|k l [IH1 IH2]]; cbn; [auto|]. rewrite IH1, IH2. auto.
Qed.

Lemma range_shifted (lo hi : Z) :
  map (fun k => k - 4) (range lo hi) = range (lo - 4) (hi - 4).
Proof.
  unfold range. rewrite map_map.
  replace (hi - 4 - (lo - 4)) with (hi - lo) by lia.
  apply map_ext. intros k. lia.
Qed.

Lemma in_flight_started_prefix (l : list Z) (k : nat) :
  0 <= in_flight (firstn k (map started l)) <= vsize l.
Proof.
  rewrite firstn_map. unfold in_flight.
  destruct (files_of_started (firstn k l)) as [-> ->].
  pose proof (length_firstn k l). unfold vsize. cbn [length]. lia.
Qed.

Lemma in_flight_joined_prefix (l : list Z) (k : nat) :
  - vsize l <= in_flight (firstn k (map joined l)) <= 0.
Proof.
  rewrite firstn_map. unfold in_flight.
  destruct (files_of_joined (firstn k l)) as [-> ->].
  pose proof (length_firstn k l). unfold vsize. cbn [length]. lia.
Qed.

Lemma in_flight_handovers (l : list Z) : in_flight (flat_map handover l) = 0.
Proof.
  unfold in_flight. destruct (files_of_handovers l) as [-> ->].
  unfold vsize. rewrite length_map. lia.
Qed.

Lemma in_flight_handovers_prefix (l : list Z) (k : nat) :
  -1 <= in_flight (firstn k (flat_map handover l)) <= 0.
Proof.
  revert k. induction l as [|f l IH]; intros k; cbn [flat_map handover app].
  - rewrite firstn_nil. vm_compute. split; discriminate.
  - destruct k as [|[|k]]; cbn [firstn].
    + vm_compute. split; discriminate.
    + vm_compute. split; discriminate.
    + change (joined (f - 4) :: started f :: firstn k (flat_map handover l))
        with ([joined (f - 4); started f] ++ firstn k (flat_map handover l)).
      rewrite in_flight_app. specialize (IH k).
      change (in_flight [joined (f - 4); started f]) with 0. lia.
Qed.

Lemma in_flight_prefix_app (a b : list event) (k : nat) :
  in_flight (firstn k (a ++ b)) = in_flight (firstn k a)
  \/ in_flight (firstn k (a ++ b)) = in_flight a + in_flight (firstn (k - length a) b).
Proof.
  rewrite firstn_app. destruct (Nat.le_gt_cases k (length a)) as [Hle|Hgt].
  - left. replace (k - length a)%nat with 0%nat by lia. cbn [firstn].
    rewrite app_nil_r. reflexivity.
  - right. rewrite firstn_all2 by lia. apply in_flight_app.
Qed.

End TraceFacts.

(** For every number of frame files, [main] of the cleanup program starts
    one thread per file, in the order of the list, joins every thread it
    started, in the same order, and never has more than four threads
    started and not yet joined. *)
Theorem schedule_bounded (n_files : Z) :
  0 <= n_files < 2 ^ 31 - 1 ->
  exists trace,
    CleanupMain.schedule n_files = Ret trace
    /\ CleanupMain.started_files trace = range 0 n_files
    /\ CleanupMain.joined_files trace = range 0 n_files
    /\ forall k : nat, 0 <= CleanupMain.in_flight (firstn k trace) <= 4.
Proof.
  intros Hn. eexists. split; [apply schedule_events; exact Hn|].
  set (first := map CleanupMain.started (range 0 (Z.min 4 n_files))).
  set (middle := flat_map CleanupMain.handover (range 4 n_files)).
  set (last := map CleanupMain.joined (range (Z.max 0 (n_files - 4)) n_files)).
  assert (Hfirst : CleanupMain.in_flight first = Z.min 4 n_files).
  { unfold CleanupMain.in_flight, first.
    destruct (files_of_started (range 0 (Z.min 4 n_files))) as [-> ->].
    rewrite vsize_range by lia. unfold vsize. cbn [length]. lia. }
  assert (Hmiddle : CleanupMain.in_flight middle = 0) by apply in_flight_handovers.
  split; [|split].
  - rewrite !started_files_app. unfold first, middle, last.
    destruct (files_of_started (range 0 (Z.min 4 n_files))) as [-> _].
    destruct (files_of_handovers (range 4 n_files)) as [-> _].
    destruct (files_of_joined (range (Z.max 0 (n_files - 4)) n_files)) as [-> _].
    rewrite app_nil_r. destruct (Z_lt_le_dec n_files 4).
    + rewrite Z.min_r, (range_empty 4 n_files), app_nil_r by lia. reflexivity.
    + rewrite Z.min_l by lia. symmetry. apply range_split. lia.
  - rewrite !joined_files_app. unfold first, middle, last.
    destruct (files_of_started (range 0 (Z.min 4 n_files))) as [_ ->].
    destruct (files_of_handovers (range 4 n_files)) as [_ ->].
    destruct (files_of_joined (range (Z.max 0 (n_files - 4)) n_files)) as [_ ->].
    cbn [app]. rewrite range_shifted. destruct (Z_lt_le_dec n_files 4).
    + rewrite Z.max_l, (range_empty (4 - 4)) by lia. reflexivity.
    + rewrite Z.max_r by lia. symmetry. apply range_split. lia.
  - intros k.
    pose proof (in_flight_started_prefix (range 0 (Z.min 4 n_files)) k) as H1.
    rewrite vsize_range in H1 by lia. fold first in H1.
    destruct (in_flight_prefix_app first (middle ++ last) k) as [-> | ->]; [lia|].
    rewrite Hfirst.
    pose proof (in_flight_handovers_prefix (range 4 n_files) (k - length first)) as H2.
    fold middle in H2.
    destruct (in_flight_prefix_app middle last (k - length first)) as [-> | ->].
    + destruct (Z_lt_le_dec n_files 4).
      * unfold middle in H2 |- *. rewrite (range_empty 4 n_files) in * by lia.
        cbn [flat_map]. rewrite firstn_nil.
        change (CleanupMain.in_flight []) with 0. lia.
      * lia.
    + rewrite Hmiddle.
      pose proof (in_flight_joined_prefix (range (Z.max 0 (n_files - 4)) n_files)
                    (k - length first - length middle)) as H3.
      fold last in H3. rewrite vsize_range in H3 by lia. lia.
Qed.

Lemma schedule_bounded_witness :
  0 <= 6 < 2 ^ 31 - 1
  /\ exists trace,
       CleanupMain.schedule 6 = Ret trace
       /\ CleanupMain.started_files trace = range 0 6
       /\ CleanupMain.joined_files trace = range 0 6
       /\ forall k : nat, 0 <= CleanupMain.in_flight (firstn k trace) <= 4.
Proof.
  assert (H : 0 <= 6 < 2 ^ 31 - 1) by lia.
  split; [exact H|]. exact (schedule_bounded 6 H).
Defined.

(** ** Progress of the workers and what they merge *)

Section MergeFacts.

Import Cleanup Merged.

Context {F : Float32} {P : PCL}.

Variable g : globals.

(** What one statement does to the worker that runs it and to the
    stitched cloud: the append adds the worker's cloud, every other
    statement leaves the stitched cloud alone, and a worker that has
    appended keeps its cloud. *)
Lemma step_cases (c c' : config) (tid : nat) :
  step g tid c = Some (Ret c') ->
  exists w w',
    workers c !! tid = Some w
    /\ workers c' = <[tid := w']> (workers c)
    /\ ((appended w = false /\ appended w' = true
         /\ filtered_cloud w' = filtered_cloud w
         /\ stitched_cloud (memory c') = stitched_cloud (memory c) ++ filtered_cloud w)
        \/ (appended w' = appended w
            /\ (appended w = true -> filtered_cloud w' = filtered_cloud w)
            /\ stitched_cloud (memory c') = stitched_cloud (memory c))).
Proof.
  intros Hstep. destruct c as [sh ws]. unfold step in Hstep.
  cbn [memory workers] in *.
  destruct (ws !! tid) as [w|] eqn:Hw; [|discriminate].
  exists w. unfold step_worker in Hstep.
  destruct w as [pth fc pl]. cbn [place path filtered_cloud] in *.
  destruct pl.
  - inversion Hstep; subst; clear Hstep. eexists. split; [reflexivity|].
    split; [reflexivity|]. right. cbn. auto.
  - destruct (correct_pose g pth (src_cloud sh)) as [corrected| |];
      cbn [bind] in Hstep; inversion Hstep; subst; clear Hstep.
    eexists. split; [reflexivity|]. split; [reflexivity|]. right. cbn. auto.
  - inversion Hstep; subst; clear Hstep. eexists. split; [reflexivity|].
    split; [reflexivity|]. right. cbn. split; [reflexivity|]. split; [discriminate|reflexivity].
  - destruct (plane_fit fc) as [fitted| |];
      cbn [bind] in Hstep; inversion Hstep; subst; clear Hstep.
    eexists. split; [reflexivity|]. split; [reflexivity|]. right. cbn.
    split; [reflexivity|]. split; [discriminate|reflexivity].
  - destruct (stitch_mutex sh); [discriminate|].
    inversion Hstep; subst; clear Hstep. eexists. split; [reflexivity|].
    split; [reflexivity|]. right. cbn. auto.
  - inversion Hstep; subst; clear Hstep. eexists. split; [reflexivity|].
    split; [reflexivity|]. left. cbn. auto.
  - inversion Hstep; subst; clear Hstep. eexists. split; [reflexivity|].
    split; [reflexivity|]. right. cbn. auto.
  - discriminate.
Qed.

Lemma cloud_of_insert_ne (ws : list worker) (tid tid0 : nat) (w' : worker) :
  tid0 <> tid -> cloud_of (<[tid := w']> ws) tid0 = cloud_of ws tid0.
Proof. intros Hne. unfold cloud_of. rewrite list_lookup_insert_ne by congruence. reflexivity. Qed.

Lemma cloud_of_insert_eq (ws : list worker) (tid : nat) (w w' : worker) :
  ws !! tid = Some w -> cloud_of (<[tid := w']> ws) tid = filtered_cloud w'.
Proof.
  intros Hw. unfold cloud_of.
  rewrite list_lookup_insert_eq by (eapply lookup_lt_Some; exact Hw). reflexivity.
Qed.

Lemma flat_map_same {A B : Type} (f h : A -> list B) (l : list A) :
  (forall a, In a l -> f a = h a) -> flat_map f l = flat_map h l.
Proof.
  induction l as [|a l IH]; intros Hfh; cbn [flat_map]; [reflexivity|].
  rewrite (Hfh a), IH; [reflexivity| |left; reflexivity].
  intros b Hb. apply Hfh. right. exact Hb.
Qed.

(** The workers that have appended, after worker [tid] became [w']. *)
Lemma appended_after (ws : list worker) (tid tid0 : nat) (w w' : worker) :
  ws !! tid = Some w ->
  ((exists w0, <[tid := w']> ws !! tid0 = Some w0 /\ appended w0 = true)
   <-> (tid0 = tid /\ appended w' = true)
       \/ (tid0 <> tid /\ exists w0, ws !! tid0 = Some w0 /\ appended w0 = true)).
Proof.
  intros Hw.
  assert (Hlt : (tid < length ws)%nat) by (eapply lookup_lt_Some; exact Hw).
  destruct (decide (tid0 = tid)) as [->|Hne].
  - rewrite list_lookup_insert_eq by exact Hlt. split.
    + intros (w0 & Hw0 & Hap). inversion Hw0; subst. left. auto.
    + intros [[_ Hap]|[Hne _]]; [eauto|congruence].
  - rewrite list_lookup_insert_ne by congruence. split.
    + intros H. right. auto.
    + intros [[Heq _]|[_ H]]; [congruence|exact H].
Qed.

Lemma step_merged (c c' : config) (tid : nat) (order : list nat) :
  merged_in_order order c ->
  step g tid c = Some (Ret c') ->
  exists order', merged_in_order order' c'.
Proof.
  intros (Hnodup & Hin & Hcloud) Hstep.
  destruct (step_cases c c' tid Hstep) as (w & w' & Hw & Hws & Hcases).
  destruct Hcases as [(Hbefore & Hafter & Hfc & Hst)|(Hsame & Hfc & Hst)].
  - (* the append *)
    assert (Hnot : ~ In tid order).
    { intros Hi. apply Hin in Hi. destruct Hi as (w0 & Hw0 & Hap). congruence. }
    exists (order ++ [tid]). split; [|split].
    + apply NoDup_app. split; [exact Hnodup|]. split.
      * intros a Ha Hk. apply list_elem_of_singleton in Hk. subst a.
        apply list_elem_of_In in Ha. exact (Hnot Ha).
      * apply NoDup_singleton.
    + intros tid0. rewrite Hws, (appended_after _ _ _ _ _ Hw), in_app_iff, Hin.
      cbn [In]. split.
      * intros [H|[<-|[]]]; [|left; auto].
        right. split; [|exact H]. intros ->. destruct H as (w0 & Hw0 & Hap). congruence.
      * intros [[-> _]|[_ H]]; [right; left; reflexivity|left; exact H].
    + rewrite Hst, Hws, flat_map_app, Hcloud. cbn [flat_map].
      rewrite app_nil_r, (cloud_of_insert_eq _ _ _ _ Hw), Hfc. f_equal.
      apply flat_map_same. intros a Ha. symmetry. apply cloud_of_insert_ne.
      intros ->. exact (Hnot Ha).
  - (* any other statement *)
    exists order. split; [exact Hnodup|]. split.
    + intros tid0. rewrite Hws, (appended_after _ _ _ _ _ Hw), Hin. split.
      * intros (w0 & Hw0 & Hap). destruct (decide (tid0 = tid)) as [->|Hne].
        -- left. split; [reflexivity|]. congruence.
        -- right. eauto.
      * intros [[-> Hap]|[_ H]]; [|exact H]. exists w. split; [exact Hw|congruence].
    + rewrite Hst, Hws, Hcloud. apply flat_map_same. intros a Ha. symmetry.
      destruct (decide (a = tid)) as [->|Hne]; [|apply cloud_of_insert_ne; exact Hne].
      rewrite (cloud_of_insert_eq _ _ _ _ Hw). unfold cloud_of. rewrite Hw.
      apply Hfc. apply Hin in Ha. destruct Ha as (w0 & Hw0 & Hap). congruence.
Qed.

Lemma spawned_merged (directory : string) (files_to_process : list string) :
  merged_in_order [] (spawned directory files_to_process).
Proof.
  split; [constructor|]. split; [|reflexivity].
  intros tid. split; [intros []|]. intros (w & Hw & Hap).
  unfold spawned in Hw. cbn [workers] in Hw. rewrite list_lookup_fmap in Hw.
  destruct (files_to_process !! tid); inversion Hw; subst. discriminate.
Qed.

Lemma reachable_merged (directory : string) (files_to_process : list string)
    (c : config) :
  reachable g (spawned directory files_to_process) c ->
  exists order, merged_in_order order c.
Proof.
  induction 1 as [|c c' tid Hreach [order IH] Hstep].
  - exists []. apply spawned_merged.
  - eapply step_merged; eauto.
Qed.

End MergeFacts.

(** The threads of the cleanup program never deadlock: in every
    configuration an execution reaches, a thread that has not returned
    from [processPCD] can run its next statement, unless it waits for the
    mutex; and then the thread that holds the mutex can run its next
    statement. *)
Theorem workers_never_deadlock {F : Float32} {P : PCL}
    (g : Cleanup.globals) (directory : string) (files_to_process : list string)
    (c : Cleanup.config) (tid : nat) (w : Cleanup.worker) :
  Cleanup.reachable g (Cleanup.spawned directory files_to_process) c ->
  Cleanup.workers c !! tid = Some w ->
  Cleanup.place w <> Cleanup.finished ->
  Merged.can_move g c tid
  \/ exists owner, Merged.waits_for c tid owner /\ Merged.can_move g c owner.
Proof.
  intros Hreach Hw Hplace.
  pose proof (reachable_invariant g _ c (spawned_invariant directory files_to_process) Hreach)
    as [H1 H2 H3].
  unfold Merged.can_move, Merged.waits_for.
  destruct (Cleanup.place w) eqn:Hpl; try congruence.
  1-4, 6-7:
    left; unfold Cleanup.step; rewrite Hw; unfold Cleanup.step_worker; rewrite Hpl;
    repeat match goal with
           | |- context [bind ?m _] => destruct m; cbn [bind]
           end; discriminate.
  destruct (Cleanup.stitch_mutex (Cleanup.memory c)) as [owner|] eqn:Hm.
  - right. exists owner. destruct (H2 owner eq_refl) as (w0 & Hw0 & Hin).
    assert (Hne : owner <> tid).
    { intros ->. rewrite Hw in Hw0. inversion Hw0; subst w0.
      unfold Cleanup.in_critical_section in Hin. rewrite Hpl in Hin. discriminate. }
    split; [split; [reflexivity|split; [exact Hne|eauto]]|].
    unfold Cleanup.step. rewrite Hw0. unfold Cleanup.step_worker.
    unfold Cleanup.in_critical_section in Hin.
    destruct (Cleanup.place w0); try discriminate Hin; discriminate.
  - left. unfold Cleanup.step. rewrite Hw. unfold Cleanup.step_worker.
    rewrite Hpl, Hm. discriminate.
Qed.

Lemma workers_never_deadlock_witness :
  let g := Cleanup.mkGlobals [] false in
  let start := Cleanup.spawned "" ["scanD1.pcd"; "scanD2.pcd"]%string in
  let c := Cleanup.run g [0; 0; 0; 0; 0; 1; 1; 1; 1; 1]%nat start in
  Cleanup.reachable g start c
  /\ Cleanup.workers c !! 1%nat
     = Some (Cleanup.mkWorker "scanD2.pcd" [] Cleanup.at_lock)
  /\ Cleanup.at_lock <> Cleanup.finished
  /\ (Merged.can_move g c 1
      \/ exists owner, Merged.waits_for c 1 owner /\ Merged.can_move g c owner).
Proof.
  intros g start c.
  assert (H : Cleanup.reachable g start c)
    by (apply run_reachable, Cleanup.reach_start).
  assert (Hw : Cleanup.workers c !! 1%nat
               = Some (Cleanup.mkWorker "scanD2.pcd" [] Cleanup.at_lock))
    by reflexivity.
  assert (Hp : Cleanup.at_lock <> Cleanup.finished) by discriminate.
  split; [exact H|]. split; [exact Hw|]. split; [exact Hp|].
  exact (workers_never_deadlock g "" ["scanD1.pcd"; "scanD2.pcd"]%string c 1 _ H Hw Hp).
Defined.

(** ** Pieces of a string *)

Lemma size_append (s t : string) : Str.size (s ++ t) = Str.size s + Str.size t.
Proof. unfold Str.size. induction s; cbn [String.append String.length]; lia. Qed.

Lemma size_cons (c : ascii) (s : string) : Str.size (String c s) = 1 + Str.size s.
Proof. unfold Str.size. cbn [String.length]. lia. Qed.

Lemma size_nonneg (s : string) : 0 <= Str.size s.
Proof. unfold Str.size. lia. Qed.

Lemma append_assoc (s t u : string) : ((s ++ t) ++ u)%string = (s ++ (t ++ u))%string.
Proof. induction s as [|c s IH]; cbn [String.append]; [reflexivity|]. rewrite IH. reflexivity. Qed.

Lemma mem_char_append (c : ascii) (s t : string) :
  Str.mem_char c (s ++ t) = Str.mem_char c s || Str.mem_char c t.
Proof.
  induction s as [|d s IH]; cbn [String.append Str.mem_char]; [reflexivity|].
  rewrite IH. apply orb_assoc.
Qed.

Lemma substring_front (s t : string) :
  String.substring 0 (String.length s) (s ++ t) = s.
Proof.
  induction s as [|c s IH]; cbn [String.append String.length String.substring].
  - destruct t; reflexivity.
  - rewrite IH. reflexivity.
Qed.

Lemma substring_skip (s t : string) (n : nat) :
  String.substring (String.length s) n (s ++ t) = String.substring 0 n t.
Proof.
  induction s as [|c s IH]; cbn [String.append String.length String.substring];
    [reflexivity|exact IH].
Qed.

Lemma substring_whole (s : string) (n : nat) :
  (String.length s <= n)%nat -> String.substring 0 n s = s.
Proof.
  revert n. induction s as [|c s IH]; intros [|n] H;
    cbn [String.length String.substring] in *; try reflexivity; try lia.
  rewrite IH by lia. reflexivity.
Qed.

Lemma substr_front (s t : string) : Str.substr (s ++ t) 0 (Str.size s) = Ret s.
Proof.
  unfold Str.substr. pose proof (size_nonneg (s ++ t)). pose proof (size_nonneg t).
  destruct (Str.size (s ++ t) <? 0) eqn:Hlt; [apply Z.ltb_lt in Hlt; lia|].
  rewrite size_append, Z.min_l by lia. unfold Str.size. rewrite Nat2Z.id.
  change (Z.to_nat 0) with 0%nat. rewrite substring_front. reflexivity.
Qed.

Lemma substr_back (s t : string) (n : Z) :
  Str.size t <= n -> Str.substr (s ++ t) (Str.size s) n = Ret t.
Proof.
  intros Hn. unfold Str.substr. pose proof (size_nonneg t).
  rewrite size_append.
  destruct (Str.size s + Str.size t <? Str.size s) eqn:Hlt; [apply Z.ltb_lt in Hlt; lia|].
  rewrite Z.min_r by lia. unfold Str.size. rewrite Nat2Z.id.
  replace (Z.to_nat (Z.of_nat (String.length s) + Z.of_nat (String.length t)
                     - Z.of_nat (String.length s)))
    with (String.length t) by lia.
  rewrite substring_skip, substring_whole by lia. reflexivity.
Qed.

Lemma substr_middle (s m t : string) :
  Str.substr (s ++ (m ++ t)) (Str.size s) (Str.size m) = Ret m.
Proof.
  unfold Str.substr. pose proof (size_nonneg m). pose proof (size_nonneg t).
  rewrite !size_append.
  destruct (Str.size s + (Str.size m + Str.size t) <? Str.size s) eqn:Hlt;
    [apply Z.ltb_lt in Hlt; lia|].
  rewrite Z.min_l by lia. unfold Str.size. rewrite !Nat2Z.id.
  rewrite substring_skip, substring_front. reflexivity.
Qed.

Lemma substr_past_end (s : string) (pos n : Z) :
  Str.size s < pos -> Str.substr s pos n = Throw out_of_range.
Proof.
  intros H. unfold Str.substr.
  destruct (Str.size s <? pos) eqn:Hlt; [reflexivity|apply Z.ltb_ge in Hlt; lia].
Qed.

Lemma find_at_first_dot (stem rest : string) (pos : nat) :
  Str.mem_char "."%char stem = false ->
  Str.find_at "." (stem ++ String "." rest) pos = Some (pos + String.length stem)%nat.
Proof.
  revert pos. induction stem as [|c stem IH]; intros pos H.
  - cbn [String.append Str.find_at String.length]. rewrite prefix_dot.
    cbn. f_equal. lia.
  - cbn [Str.mem_char] in H. apply orb_false_iff in H as [Hc Hs].
    cbn [String.append Str.find_at String.length]. rewrite prefix_dot, Hc, IH by exact Hs.
    f_equal. lia.
Qed.

Lemma find_first_dot (stem rest : string) :
  Str.mem_char "."%char stem = false ->
  Str.find (stem ++ String "." rest) "." = Str.size stem.
Proof.
  intros H. unfold Str.find. rewrite find_at_first_dot by exact H. reflexivity.
Qed.

Lemma find_last_of_at_absent (ch : ascii) (s : string) (pos : nat) :
  Str.mem_char ch s = false ->
  Str.find_last_of_at (String ch EmptyString) s pos = None.
Proof.
  revert pos. induction s as [|c s IH]; intros pos H; [reflexivity|].
  cbn [Str.mem_char] in H. apply orb_false_iff in H as [Hc Hs].
  cbn [Str.find_last_of_at Str.mem_char]. rewrite IH by exact Hs.
  rewrite Ascii.eqb_sym, Hc. reflexivity.
Qed.

Lemma find_last_of_at_last (ch : ascii) (s t : string) (pos : nat) :
  Str.mem_char ch t = false ->
  Str.find_last_of_at (String ch EmptyString) (s ++ String ch t) pos
  = Some (pos + String.length s)%nat.
Proof.
  intros Ht. revert pos. induction s as [|c s IH]; intros pos.
  - cbn [String.append Str.find_last_of_at Str.mem_char String.length].
    rewrite find_last_of_at_absent by exact Ht. rewrite Ascii.eqb_refl.
    cbn. f_equal. lia.
  - cbn [String.append Str.find_last_of_at String.length]. rewrite IH.
    f_equal. lia.
Qed.

Lemma to_int_npos : to_int npos = -1.
Proof. reflexivity. Qed.

(** ** The argument of [-f] *)

(** [main] of the stitching program splits the argument of [-f] at its
    last ['/']: the directory is what stands before it, the one file to
    process is the rest, which starts with the ['/'], so that
    [directory + file] is the argument again. *)
Theorem file_argument_splits (directory name : string) :
  Str.mem_char "/" name = false ->
  Str.size (directory ++ String "/" name) < 2 ^ 31 ->
  StitchingMain.file_argument (directory ++ String "/" name)
  = Ret (directory, [String "/" name]).
Proof.
  intros Hname Hsize. unfold StitchingMain.file_argument, Str.find_last_of.
  change "/"%string with (String "/" EmptyString).
  rewrite find_last_of_at_last by exact Hname. cbn [Nat.add].
  fold (Str.size directory).
  rewrite size_append, size_cons in Hsize.
  pose proof (size_nonneg directory). pose proof (size_nonneg name).
  rewrite to_int_small, to_size_t_small by lia.
  rewrite substr_front. cbn [bind].
  rewrite substr_back; [reflexivity|].
  rewrite size_cons. unfold npos, size_max. lia.
Qed.

Lemma file_argument_splits_witness :
  Str.mem_char "/" "scanD1.pcd" = false
  /\ Str.size ("data/run1" ++ String "/" "scanD1.pcd") < 2 ^ 31
  /\ StitchingMain.file_argument "data/run1/scanD1.pcd"
     = Ret ("data/run1"%string, ["/scanD1.pcd"%string]).
Proof.
  assert (H1 : Str.mem_char "/" "scanD1.pcd" = false) by reflexivity.
  assert (H2 : Str.size ("data/run1" ++ String "/" "scanD1.pcd") < 2 ^ 31)
    by reflexivity.
  split; [exact H1|]. split; [exact H2|].
  exact (file_argument_splits "data/run1" "scanD1.pcd" H1 H2).
Defined.

(** An argument of [-f] without any ['/'], a file of the current
    directory, makes [main] throw [std::out_of_range] (nothing catches
    it): [substr] is asked for the position [npos]. *)
Theorem file_argument_needs_slash (filename : string) :
  Str.mem_char "/" filename = false ->
  Str.size filename < npos ->
  StitchingMain.file_argument filename = Throw out_of_range.
Proof.
  intros Hname Hsize. unfold StitchingMain.file_argument, Str.find_last_of.
  change "/"%string with (String "/" EmptyString).
  rewrite find_last_of_at_absent by exact Hname. rewrite to_int_npos.
  change (to_size_t (-1)) with npos.
  unfold Str.substr at 1. pose proof (size_nonneg filename).
  destruct (Str.size filename <? 0) eqn:Hlt; [apply Z.ltb_lt in Hlt; lia|].
  cbn [bind]. rewrite substr_past_end by exact Hsize. reflexivity.
Qed.

Lemma file_argument_needs_slash_witness :
  Str.mem_char "/" "scanD1.pcd" = false
  /\ Str.size "scanD1.pcd" < npos
  /\ StitchingMain.file_argument "scanD1.pcd" = Throw out_of_range.
Proof.
  assert (H1 : Str.mem_char "/" "scanD1.pcd" = false) by reflexivity.
  assert (H2 : Str.size "scanD1.pcd" < npos) by reflexivity.
  split; [exact H1|]. split; [exact H2|].
  exact (file_argument_needs_slash "scanD1.pcd" H1 H2).
Defined.

(** ** Which names the filter keeps *)

Lemma truthy_compare (s t : string) :
  Str.truthy (Str.compare s t) = negb (String.eqb s t).
Proof.
  unfold Str.truthy, Str.compare.
  destruct (String.eqb_spec s t) as [->|Hne].
  - pose proof (String.compare_antisym t t) as H.
    destruct (String.compare t t); try reflexivity; discriminate H.
  - destruct (String.compare s t) eqn:Hc; try reflexivity.
    apply String.compare_eq_iff in Hc. contradiction.
Qed.

Lemma prefix_cons (c d : ascii) (s t : string) :
  String.prefix (String c s) (String d t) = Ascii.eqb c d && String.prefix s t.
Proof.
  cbn [String.prefix]. destruct (ascii_dec c d) as [->|Hne].
  - rewrite Ascii.eqb_refl. reflexivity.
  - apply Ascii.eqb_neq in Hne. rewrite Hne. reflexivity.
Qed.

(** The four characters [substr(i, 4)] takes at the first ['.'] are
    [".pcd"] exactly when ["pcd"] follows the ['.']. *)
Lemma eqb_cons (c d : ascii) (s t : string) :
  String.eqb (String c s) (String d t) = Ascii.eqb c d && String.eqb s t.
Proof. cbn [String.eqb]. destruct (Ascii.eqb c d); reflexivity. Qed.

Lemma extension_is_pcd (rest : string) :
  String.eqb
    (String.substring 0 (Z.to_nat (Z.min 4 (Str.size (String "." rest)))) (String "." rest))
    ".pcd"
  = String.prefix "pcd" rest.
Proof.
  destruct rest as [|a [|b [|c r]]].
  - reflexivity.
  - change (Z.to_nat (Z.min 4 (Str.size (String "." (String a ""))))) with 2%nat.
    rewrite prefix_cons. cbn [String.substring]. rewrite !eqb_cons.
    cbn [String.eqb String.prefix]. rewrite !andb_false_r. reflexivity.
  - change (Z.to_nat (Z.min 4 (Str.size (String "." (String a (String b ""))))))
      with 3%nat.
    rewrite !prefix_cons. cbn [String.substring]. rewrite !eqb_cons.
    cbn [String.eqb String.prefix]. rewrite !andb_false_r. reflexivity.
  - assert (Hmin : Z.to_nat (Z.min 4 (Str.size (String "." (String a (String b (String c r))))))
                   = 4%nat).
    { rewrite !size_cons. pose proof (size_nonneg r). lia. }
    rewrite Hmin, !prefix_cons. cbn [String.substring].
    replace (String.substring 0 0 r) with EmptyString by (destruct r; reflexivity).
    rewrite !eqb_cons. cbn [String.eqb String.prefix].
    rewrite (Ascii.eqb_sym a), (Ascii.eqb_sym b), (Ascii.eqb_sym c).
    replace (String.prefix "" r) with true by (destruct r; reflexivity).
    rewrite Ascii.eqb_refl, !andb_true_r. reflexivity.
Qed.

(** [filePredicate] looks at the first ['.'] of the name and at the three
    characters after it: the name is kept exactly when these are ["pcd"]
    and the name is not ["filtered.pcd"].  Whatever follows ["pcd"] is not
    looked at, and a name with a ['.'] before the one of [".pcd"] is
    dropped. *)
Theorem filePredicate_first_dot (stem rest : string) :
  Str.mem_char "." stem = false ->
  FileFilter.filePredicate (stem ++ String "." rest)
  = Ret (negb (String.prefix "pcd" rest)
         || String.eqb (stem ++ String "." rest) "filtered.pcd").
Proof.
  intros Hstem. unfold FileFilter.filePredicate.
  rewrite !truthy_compare, !negb_involutive, find_first_dot by exact Hstem.
  assert (Hext : Str.substr (stem ++ String "." rest) (Str.size stem) 4
                 = Ret (String.substring 0
                          (Z.to_nat (Z.min 4 (Str.size (String "." rest))))
                          (String "." rest))).
  { unfold Str.substr. rewrite size_append. pose proof (size_nonneg (String "." rest)).
    destruct (Str.size stem + Str.size (String "." rest) <? Str.size stem) eqn:Hlt;
      [apply Z.ltb_lt in Hlt; lia|].
    replace (Str.size stem + Str.size (String "." rest) - Str.size stem)
      with (Str.size (String "." rest)) by lia.
    unfold Str.size at 1. rewrite Nat2Z.id, substring_skip. reflexivity. }
  rewrite Hext. cbn [bind]. rewrite truthy_compare, extension_is_pcd.
  destruct (String.eqb_spec (stem ++ String "." rest) ".") as [Hone|_].
  { destruct stem as [|c stem]; cbn [String.append] in Hone.
    - inversion Hone; subst. reflexivity.
    - inversion Hone as [[Hc Hs]]. destruct stem; discriminate Hs. }
  destruct (String.eqb_spec (stem ++ String "." rest) "..") as [Htwo|_].
  { destruct stem as [|c stem]; cbn [String.append] in Htwo.
    - inversion Htwo; subst. reflexivity.
    - inversion Htwo as [[Hc Hs]]. subst c. discriminate Hstem. }
  destruct (String.eqb (stem ++ String "." rest) "filtered.pcd").
  - rewrite orb_true_r. reflexivity.
  - rewrite orb_false_r. reflexivity.
Qed.

Lemma filePredicate_first_dot_witness :
  Str.mem_char "." "scanD1" = false
  /\ FileFilter.filePredicate "scanD1.pcd.bak" = Ret false.
Proof.
  assert (H : Str.mem_char "." "scanD1" = false) by reflexivity.
  split; [exact H|].
  exact (filePredicate_first_dot "scanD1" "pcd.bak" H).
Defined.

(** The removal of the entries that are no frame files, on a whole
    directory listing: when every entry has a ['.'] the entries
    [filePredicate] accepts are kept, in their order; one entry without a
    ['.'] and the call throws [std::out_of_range], whatever the other
    entries are. *)
Theorem remove_non_pcd_filters (listing : list string) :
  Forall (fun s => Str.size s < npos) listing ->
  FileFilter.remove_non_pcd listing
  = if forallb FileFilter.has_dot listing
    then Ret (List.filter FileFilter.eligible listing)
    else Throw out_of_range.
Proof.
  induction 1 as [|f rest Hf Hrest IH]; [reflexivity|].
  cbn [FileFilter.remove_non_pcd forallb List.filter].
  destruct (FileFilter.has_dot f) eqn:Hdot.
  - destruct (filePredicate_with_dot f Hdot) as [b Hb].
    unfold FileFilter.eligible. rewrite Hb, IH. cbn [bind andb].
    destruct (forallb FileFilter.has_dot rest); [|reflexivity].
    cbn [bind]. destruct b; reflexivity.
  - rewrite (filePredicate_without_dot f Hf Hdot). reflexivity.
Qed.

Lemma remove_non_pcd_filters_witness :
  Forall (fun s => Str.size s < npos) ["."; ".."; "scanD2.pcd"; "notes.txt"; "scanD1.pcd"]%string
  /\ FileFilter.remove_non_pcd ["."; ".."; "scanD2.pcd"; "notes.txt"; "scanD1.pcd"]%string
     = Ret ["scanD2.pcd"; "scanD1.pcd"]%string.
Proof.
  assert (H : Forall (fun s => Str.size s < npos)
                ["."; ".."; "scanD2.pcd"; "notes.txt"; "scanD1.pcd"]%string)
    by (repeat constructor).
  split; [exact H|].
  exact (remove_non_pcd_filters _ H).
Defined.

(** ** The index read off a name *)

(** The comparator of the sort reads, off a name [<stem>D<digits>.<ext>]
    whose last ['D'] is the one before the digits and whose first ['.']
    is the one after them, what [stoi] makes of the digits. *)
Theorem extracted_index_between_D_and_dot (stem digits ext : string) :
  Str.mem_char "." stem = false ->
  Str.mem_char "." digits = false ->
  Str.mem_char "D" digits = false ->
  Str.mem_char "D" ext = false ->
  Str.size (stem ++ String "D" (digits ++ String "." ext)) < npos ->
  FrameOrder.extracted_index (stem ++ String "D" (digits ++ String "." ext))
  = Str.stoi digits.
Proof.
  intros Hstem Hdigits HD Hext Hsize. unfold FrameOrder.extracted_index, Str.find_last_of.
  change "D"%string with (String "D" EmptyString).
  rewrite find_last_of_at_last
    by (rewrite mem_char_append; cbn [Str.mem_char]; rewrite HD, Hext; reflexivity).
  cbn [Nat.add]. fold (Str.size stem).
  assert (Hname : (stem ++ String "D" (digits ++ String "." ext))%string
                  = ((stem ++ String "D" digits) ++ String "." ext)%string).
  { rewrite append_assoc. reflexivity. }
  assert (Hend : Str.find (stem ++ String "D" (digits ++ String "." ext)) "."
                 = Str.size (stem ++ String "D" digits)).
  { rewrite Hname. apply find_first_dot.
    rewrite mem_char_append. cbn [Str.mem_char]. rewrite Hstem, Hdigits. reflexivity. }
  rewrite Hend. clear Hname Hend.
  rewrite !size_append, !size_cons, ?size_append, ?size_cons in *.
  pose proof (size_nonneg stem). pose proof (size_nonneg digits).
  pose proof (size_nonneg ext). unfold npos, size_max in Hsize.
  unfold size_t_add, size_t_sub, size_max.
  rewrite (Z.mod_small (Str.size stem + 1)) by lia.
  replace (Str.size stem + (1 + Str.size digits) - (Str.size stem + 1))
    with (Str.size digits) by lia.
  rewrite (Z.mod_small (Str.size digits)) by lia.
  change (stem ++ String "D" (digits ++ String "." ext))%string
    with (stem ++ (String "D" EmptyString ++ (digits ++ String "." ext)))%string.
  rewrite <- append_assoc.
  replace (Str.size stem + 1) with (Str.size (stem ++ String "D" EmptyString))
    by (rewrite size_append, size_cons; reflexivity).
  rewrite substr_middle. reflexivity.
Qed.

Lemma extracted_index_between_D_and_dot_witness :
  Str.mem_char "." "run7_scan" = false
  /\ Str.mem_char "." "012" = false
  /\ Str.mem_char "D" "012" = false
  /\ Str.mem_char "D" "pcd" = false
  /\ Str.size ("run7_scan" ++ String "D" ("012" ++ String "." "pcd")) < npos
  /\ FrameOrder.extracted_index "run7_scanD012.pcd" = Ret 12.
Proof.
  assert (H1 : Str.mem_char "." "run7_scan" = false) by reflexivity.
  assert (H2 : Str.mem_char "." "012" = false) by reflexivity.
  assert (H3 : Str.mem_char "D" "012" = false) by reflexivity.
  assert (H4 : Str.mem_char "D" "pcd" = false) by reflexivity.
  assert (H5 : Str.size ("run7_scan" ++ String "D" ("012" ++ String "." "pcd")) < npos)
    by reflexivity.
  split; [exact H1|]. split; [exact H2|]. split; [exact H3|]. split; [exact H4|].
  split; [exact H5|].
  exact (extracted_index_between_D_and_dot "run7_scan" "012" "pcd" H1 H2 H3 H4 H5).
Defined.

(** ** The prior a worker looks up *)

Lemma stoi_digit (c : ascii) (d : Z) :
  Str.digit_of c = Some d -> Str.stoi (String c EmptyString) = Ret d.
Proof.
  destruct c as [[] [] [] [] [] [] [] []]; intros H; try discriminate H;
    inversion H; reflexivity.
Qed.

Lemma digit_is_no_dot (c : ascii) (d : Z) :
  Str.digit_of c = Some d -> Ascii.eqb "."%char c = false.
Proof.
  destruct c as [[] [] [] [] [] [] [] []]; intros H; try discriminate H; reflexivity.
Qed.

(** [processPCD] takes the prior of its file from the row whose number is
    the one character before the first ['.'] of the path: with the digit
    [d] there, row [d] of the table, whatever digits stand before it; and
    a path that begins with a ['.'] throws [std::out_of_range]. *)
Theorem prior_row_digit_before_first_dot {F : Float32} {P : PCL} (g : Cleanup.globals) :
  (forall (stem ext : string) (c : ascii) (d : Z),
     Str.mem_char "." stem = false ->
     Str.digit_of c = Some d ->
     Str.size stem + 1 < 2 ^ 31 ->
     Cleanup.prior_row g (stem ++ String c (String "." ext))
     = vget (Cleanup.translation_and_rotation g) d)
  /\ (forall rest : string,
        Str.size (String "." rest) < npos ->
        Cleanup.prior_row g (String "." rest) = Throw out_of_range).
Proof.
  split.
  - intros stem ext c d Hstem Hc Hsize. unfold Cleanup.prior_row.
    change (stem ++ String c (String "." ext))%string
      with (stem ++ (String c EmptyString ++ String "." ext))%string.
    assert (Hidx : Str.find (stem ++ (String c EmptyString ++ String "." ext)) "."
                   = Str.size (stem ++ String c EmptyString)).
    { rewrite <- append_assoc. apply find_first_dot.
      rewrite mem_char_append. cbn [Str.mem_char].
      rewrite Hstem, (digit_is_no_dot c d Hc). reflexivity. }
    rewrite Hidx. clear Hidx.
    rewrite size_append, size_cons. change (Str.size "") with 0.
    pose proof (size_nonneg stem).
    rewrite to_int_small by lia.
    replace (Str.size stem + (1 + 0) - 1) with (Str.size stem) by lia.
    rewrite to_size_t_small by (unfold size_max; lia).
    pose proof (substr_middle stem (String c EmptyString) (String "." ext)) as Hmid.
    change (Str.size (String c EmptyString)) with 1 in Hmid. rewrite Hmid. cbn [bind]. rewrite (stoi_digit c d Hc). reflexivity.
  - intros rest Hsize. unfold Cleanup.prior_row, Str.find.
    cbn [Str.find_at]. rewrite prefix_dot, Ascii.eqb_refl.
    change (to_size_t (to_int (Z.of_nat 0) - 1)) with npos.
    rewrite substr_past_end by exact Hsize. reflexivity.
Qed.

Lemma prior_row_digit_before_first_dot_witness :
  let g := Cleanup.mkGlobals [[0; 0; 0; 0; 0; 0]; [1; 1; 1; 0; 0; 0]]%float true in
  Str.mem_char "." "data/scanD1" = false
  /\ Str.digit_of "0" = Some 0
  /\ Str.size "data/scanD1" + 1 < 2 ^ 31
  /\ Cleanup.prior_row g "data/scanD10.pcd" = Ret [0; 0; 0; 0; 0; 0]%float.
Proof.
  intros g.
  assert (H1 : Str.mem_char "." "data/scanD1" = false) by reflexivity.
  assert (H2 : Str.digit_of "0" = Some 0) by reflexivity.
  assert (H3 : Str.size "data/scanD1" + 1 < 2 ^ 31) by reflexivity.
  split; [exact H1|]. split; [exact H2|]. split; [exact H3|].
  exact (proj1 (prior_row_digit_before_first_dot g)
           "data/scanD1"%string "pcd"%string "0"%char 0 H1 H2 H3).
Defined.

(** ** The transformations file of the stitching program, as a whole *)

Section ReaderFacts.

Import TransformStore.

Variable stod : string -> outcome float.
Variable delim : ascii.

(** The rows that parse are pushed in order, with their warnings. *)
Lemma read_rows_parsed (rows : list string) (results : list (TransformData * bool)) :
  Forall2 (fun line r => parse_row stod delim line = Ret r) rows results ->
  forall (rest : list string) (row : Z) (st : reader_state),
    rows_to_skip <= row + 1 ->
    read_rows stod delim (rows ++ rest) row st
    = read_rows stod delim rest (row + vsize rows)
        (mkReaderState
           (translation_and_rotation_raw st ++ map fst results)
           (cout st
            ++ flat_map (fun r : TransformData * bool =>
                         if snd r then [no_confidence_warning] else [])
                 results)).
Proof.
  induction 1 as [|line [t warned] rows results Hline Hall IH]; intros rest row st Hrow.
  - cbn [app map flat_map]. rewrite !app_nil_r, Z.add_0_r. destruct st; reflexivity.
  - cbn [app read_rows].
    destruct (rows_to_skip >? row + 1) eqn:Hskip; [apply Z.gtb_lt in Hskip; lia|].
    rewrite Hline, IH by lia. cbn [translation_and_rotation_raw cout map flat_map fst snd].
    f_equal; [unfold vsize; cbn [length]; lia|].
    f_equal.
    + rewrite <- app_assoc. reflexivity.
    + destruct warned; rewrite <- ?app_assoc; reflexivity.
Qed.

(** The reader never pushes more records than the file has lines. *)
Lemma read_rows_bounded (lines : list string) (row : Z) (st : reader_state) :
  vsize (translation_and_rotation_raw (fst (read_rows stod delim lines row st)))
  <= vsize (translation_and_rotation_raw st) + vsize lines.
Proof.
  revert row st. induction lines as [|line lines IH]; intros row st.
  - cbn [read_rows fst]. unfold vsize. cbn [length]. lia.
  - cbn [read_rows].
    assert (Hcons : vsize (line :: lines) = 1 + vsize lines)
      by (unfold vsize; cbn [length]; lia).
    destruct (rows_to_skip >? row + 1).
    + specialize (IH (row + 1) st). lia.
    + destruct (parse_row stod delim line) as [[t warned]| |].
      * match goal with
        | |- context [read_rows stod delim lines ?r ?s] => specialize (IH r s)
        end.
        cbn [translation_and_rotation_raw] in IH. rewrite vsize_app in IH.
        change (vsize [t]) with 1 in IH. lia.
      * cbn [fst]. pose proof (vsize_nonneg lines). lia.
      * cbn [fst]. pose proof (vsize_nonneg lines). lia.
Qed.

End ReaderFacts.

(** [getTransformationData] on a whole file: after the header line, the
    records of the rows that parse are appended to the caller's vector in
    the order of the file, with one warning for each row without a
    confidence; at the first row that throws, the function is left by
    that exception and the records of the rows before it stay in the
    vector. *)
Theorem getTransformationData_reads_until_failure
    (stod : string -> outcome float) (delim : ascii) (header : string)
    (rows : list string)
    (results : list (TransformStore.TransformData * bool))
    (init : list TransformStore.TransformData) :
  Forall2 (fun line r => TransformStore.parse_row stod delim line = Ret r) rows results ->
  TransformStore.getTransformationData stod (header :: rows) init delim
  = (TransformStore.mkReaderState (init ++ map fst results)
       (flat_map (fun r : TransformStore.TransformData * bool =>
                    if snd r then [TransformStore.no_confidence_warning] else [])
          results),
     Ret tt)
  /\ forall (bad : string) (rest : list string) (e : exception),
       TransformStore.parse_row stod delim bad = Throw e ->
       TransformStore.getTransformationData stod (header :: rows ++ bad :: rest) init delim
       = (TransformStore.mkReaderState (init ++ map fst results)
            (flat_map
               (fun r : TransformStore.TransformData * bool =>
                  if snd r then [TransformStore.no_confidence_warning] else [])
               results),
          Throw e).
Proof.
  intros Hall. unfold TransformStore.getTransformationData. split.
  - cbn [TransformStore.read_rows]. change (TransformStore.rows_to_skip >? -1 + 1) with true.
    cbv iota. rewrite <- (app_nil_r rows) at 1.
    rewrite (read_rows_parsed stod delim rows results Hall)
      by (unfold TransformStore.rows_to_skip; lia).
    reflexivity.
  - intros bad rest e Hbad.
    cbn [TransformStore.read_rows]. change (TransformStore.rows_to_skip >? -1 + 1) with true.
    cbv iota.
    rewrite (read_rows_parsed stod delim rows results Hall)
      by (unfold TransformStore.rows_to_skip; lia).
    cbn [TransformStore.read_rows].
    pose proof (vsize_nonneg rows).
    destruct (TransformStore.rows_to_skip >? -1 + 1 + vsize rows + 1) eqn:Hskip;
      [apply Z.gtb_lt in Hskip; unfold TransformStore.rows_to_skip in Hskip; lia|].
    rewrite Hbad. reflexivity.
Qed.

Lemma getTransformationData_reads_until_failure_witness :
  Forall2
    (fun line r => TransformStore.parse_row Reference.stod_decimal ";" line = Ret r)
    ["f0;1;2;3;4;5;6"; "f1;6;5;4;3;2;1;0.5"]%string
    [(TransformStore.mkTransformData 4 5 6 1 2 3 0, true);
     (TransformStore.mkTransformData 3 2 1 6 5 4 0.5, false)]
  /\ TransformStore.getTransformationData Reference.stod_decimal
       ["label;rotx;roty;rotz;dx;dy;dz;c"; "f0;1;2;3;4;5;6"; "f1;6;5;4;3;2;1;0.5"]%string
       [] ";"
     = (TransformStore.mkReaderState
          [TransformStore.mkTransformData 4 5 6 1 2 3 0;
           TransformStore.mkTransformData 3 2 1 6 5 4 0.5]
          [TransformStore.no_confidence_warning],
        Ret tt).
Proof.
  assert (H : Forall2
                (fun line r =>
                   TransformStore.parse_row Reference.stod_decimal ";" line = Ret r)
                ["f0;1;2;3;4;5;6"; "f1;6;5;4;3;2;1;0.5"]%string
                [(TransformStore.mkTransformData 4 5 6 1 2 3 0, true);
                 (TransformStore.mkTransformData 3 2 1 6 5 4 0.5, false)])
    by (repeat constructor).
  split; [exact H|].
  exact (proj1 (getTransformationData_reads_until_failure Reference.stod_decimal ";"
                  "label;rotx;roty;rotz;dx;dy;dz;c" _ _ [] H)).
Defined.

(** With [-t], [main] of the stitching program catches whatever the
    reader throws and averages what was read, assuming 10 rows per frame:
    whatever the file holds, that call reads [transformations[size]],
    outside the vector. *)
Theorem load_transformations_always_out_of_bounds
    (stod : string -> outcome float) (infile : list string) :
  vsize infile + 10 <= INT_MAX ->
  snd (TransformStore.load_transformations stod infile)
  = UB vector_index_out_of_bounds.
Proof.
  intros Hsize. unfold TransformStore.load_transformations.
  pose proof (read_rows_bounded stod ";" infile (-1)
                (TransformStore.mkReaderState [] [])) as Hbound.
  unfold TransformStore.getTransformationData.
  destruct (TransformStore.read_rows stod ";" infile (-1)
              (TransformStore.mkReaderState [] [])) as [st r].
  cbn [fst snd TransformStore.translation_and_rotation_raw] in *.
  change (vsize (@nil TransformStore.TransformData)) with 0 in Hbound.
  apply averageTransformationData_out_of_bounds; lia.
Qed.

Lemma load_transformations_always_out_of_bounds_witness :
  vsize ["label;rotx;roty;rotz;dx;dy;dz"; "f0;1;2;3;4;5;6"; "f1;1;2;3;4;5"]%string + 10
    <= INT_MAX
  /\ snd (TransformStore.load_transformations Reference.stod_decimal
            ["label;rotx;roty;rotz;dx;dy;dz"; "f0;1;2;3;4;5;6"; "f1;1;2;3;4;5"]%string)
     = UB vector_index_out_of_bounds.
Proof.
  assert (H : vsize ["label;rotx;roty;rotz;dx;dy;dz"; "f0;1;2;3;4;5;6";
                     "f1;1;2;3;4;5"]%string + 10 <= INT_MAX)
    by (vm_compute; discriminate).
  split; [exact H|].
  exact (load_transformations_always_out_of_bounds Reference.stod_decimal _ H).
Defined.

(** ** The transformations file of the cleanup program *)

Section PriorsFacts.

Import CleanupMain.

Variable extract_doubles : string -> list float.

(** The values of a line go to the row pushed for it, the last one. *)
Lemma store_values_last (vals : list float) :
  forall (front : list (list float)) (current : list float) (col : Z),
    0 <= col ->
    store_values (front ++ [current]) (vsize front) col vals
    = Ret (front ++ [current ++ skipn (Z.to_nat (cols_to_skip - col)) vals]).
Proof.
  induction vals as [|val vals IH]; intros front current col Hcol.
  - cbn [store_values]. rewrite skipn_nil, app_nil_r. reflexivity.
  - cbn [store_values]. pose proof (vsize_nonneg front) as Hfront.
    unfold cols_to_skip in *.
    destruct (2 >? col) eqn:Hskip.
    + apply Z.gtb_lt in Hskip. rewrite IH by lia.
      replace (Z.to_nat (2 - col)) with (S (Z.to_nat (2 - (col + 1))))
        by lia.
      reflexivity.
    + rewrite Z.gtb_ltb in Hskip. apply Z.ltb_ge in Hskip.
      assert (Hlast : (front ++ [current]) !! Z.to_nat (vsize front) = Some current).
      { unfold vsize. rewrite Nat2Z.id. apply list_lookup_middle. reflexivity. }
      rewrite (vget_lookup _ _ current)
        by (rewrite ?vsize_app; change (vsize [current]) with 1; lia || exact Hlast).
      cbn [bind]. unfold vset. rewrite vsize_app. change (vsize [current]) with 1.
      destruct ((0 <=? vsize front) && (vsize front <? vsize front + 1)) eqn:Hin;
        [|apply andb_false_iff in Hin as [Hin|Hin];
          [apply Z.leb_gt in Hin|apply Z.ltb_ge in Hin]; lia].
      cbn [bind].
      assert (Hset : <[Z.to_nat (vsize front) := current ++ [val]]> (front ++ [current])
                     = front ++ [current ++ [val]]).
      { unfold vsize. rewrite Nat2Z.id.
        rewrite insert_app_r_alt by lia. rewrite Nat.sub_diag. reflexivity. }
      rewrite Hset, IH by lia.
      replace (Z.to_nat (2 - col)) with 0%nat by lia.
      replace (Z.to_nat (2 - (col + 1))) with 0%nat by lia.
      cbn [skipn]. rewrite <- app_assoc. reflexivity.
Qed.

Lemma read_lines_rows (lines : list string) :
  forall (row : Z) (raw : list (list float)),
    -1 <= row ->
    vsize raw = Z.max 0 (row + 1 - rows_to_skip) ->
    read_lines extract_doubles lines row raw
    = Ret (raw
           ++ map (fun line => skipn 2 (extract_doubles line))
                (skipn (Z.to_nat (rows_to_skip - (row + 1))) lines)).
Proof.
  induction lines as [|line lines IH]; intros row raw Hrow Hraw.
  - cbn [read_lines]. rewrite skipn_nil. cbn [map]. rewrite app_nil_r. reflexivity.
  - cbn [read_lines]. unfold rows_to_skip in *.
    destruct (2 >? row + 1) eqn:Hskip.
    + apply Z.gtb_lt in Hskip. rewrite IH by lia.
      replace (Z.to_nat (2 - (row + 1))) with (S (Z.to_nat (2 - (row + 1 + 1)))) by lia.
      reflexivity.
    + rewrite Z.gtb_ltb in Hskip. apply Z.ltb_ge in Hskip.
      replace (row + 1 - 2) with (vsize raw) by lia.
      rewrite (store_values_last (extract_doubles line) raw [] 0) by lia.
      cbn [bind]. rewrite IH by (unfold vsize in *; rewrite ?length_app; cbn [length]; lia).
      replace (Z.to_nat (2 - (row + 1))) with 0%nat by lia.
      replace (Z.to_nat (2 - (row + 1 + 1))) with 0%nat by lia.
      cbn [skipn map app]. rewrite <- app_assoc. reflexivity.
Qed.

End PriorsFacts.

(** The reader of the cleanup program never fails and never writes
    outside its table: the file gives one row per line after the two
    header lines, in order, and each row holds the numbers of its line
    after the first two; a line with at most two numbers gives an empty
    row.  The file has no more lines than the counter [row], an [int],
    can count. *)
Theorem read_priors_rows (extract_doubles : string -> list float) (infile : list string) :
  vsize infile <= INT_MAX ->
  CleanupMain.read_priors extract_doubles infile
  = Ret (map (fun line => skipn 2 (extract_doubles line)) (skipn 2 infile)).
Proof.
  intros _. unfold CleanupMain.read_priors.
  rewrite read_lines_rows by (unfold CleanupMain.rows_to_skip, vsize; cbn [length]; lia).
  reflexivity.
Qed.

Lemma read_priors_rows_witness :
  vsize ["time frame dx dy dz rotx roty rotz"; "s - m m m rad rad rad";
         "0 0 1 2 3 4 5 6"; "1 0 6 5 4 3 2 1"; "2 1"]%string <= INT_MAX
  /\ CleanupMain.read_priors Reference.extract_decimals
       ["time frame dx dy dz rotx roty rotz"; "s - m m m rad rad rad";
        "0 0 1 2 3 4 5 6"; "1 0 6 5 4 3 2 1"; "2 1"]%string
     = Ret [[1; 2; 3; 4; 5; 6]; [6; 5; 4; 3; 2; 1]; []]%float.
Proof.
  assert (H : vsize ["time frame dx dy dz rotx roty rotz"; "s - m m m rad rad rad";
                     "0 0 1 2 3 4 5 6"; "1 0 6 5 4 3 2 1"; "2 1"]%string <= INT_MAX)
    by (vm_compute; discriminate).
  split; [exact H|].
  exact (read_priors_rows Reference.extract_decimals _ H).
Defined.

(** ** More on the wall segmenter *)

Lemma vget_inside {A : Type} (v : list A) (i : Z) :
  0 <= i < vsize v -> exists a, vget v i = Ret a.
Proof.
  intros Hi. destruct (lookup_lt_is_Some_2 v (Z.to_nat i)) as [a Ha];
    [unfold vsize in Hi; lia|].
  exists a. apply vget_lookup; [lia|exact Ha].
Qed.

Section SegmenterEdges.

Import WallSegmenter.

Context {F : Float32} {P : PCL}.

Lemma PassThrough_size (f : field) (lo hi : f32) (c : PointCloud) :
  vsize (PassThrough f lo hi c) <= vsize c.
Proof. unfold vsize, PassThrough. pose proof (filter_length_le (passes f lo hi) c). lia. Qed.

Lemma PassThrough_In (f : field) (lo hi : f32) (c : PointCloud) (p : PointXYZ) :
  In p (PassThrough f lo hi c) <-> In p c /\ passes f lo hi p = true.
Proof. unfold PassThrough. apply filter_In. Qed.

(** A region of a cloud with fewer than 5 points is passed over. *)
Lemma fit_region_small (src_cloud : PointCloud) (thresh_range : list float) (i : Z)
    (st : clouds) :
  vsize src_cloud < 5 -> 6 <= vsize thresh_range -> In i [0; 1; 2; 3] ->
  fit_region src_cloud thresh_range i st = Ret st.
Proof.
  intros Hsmall Hrange Hi. unfold fit_region.
  assert (Hskip : forall f lo hi,
            (vsize (PassThrough f lo hi src_cloud) <? 5) = true).
  { intros f lo hi. apply Z.ltb_lt. pose proof (PassThrough_size f lo hi src_cloud). lia. }
  cbn [In] in Hi. destruct Hi as [<-|[<-|[<-|[<-|[]]]]].
  - destruct (vget_inside thresh_range 0) as [lo ->]; [lia|].
    destruct (vget_inside thresh_range (0 + 1)) as [hi ->]; [lia|].
    cbn [Z.ltb Z.compare bind]. rewrite Hskip. reflexivity.
  - destruct (vget_inside thresh_range 1) as [lo ->]; [lia|].
    destruct (vget_inside thresh_range (1 + 1)) as [hi ->]; [lia|].
    cbn [Z.ltb Z.compare Pos.compare Pos.compare_cont bind]. rewrite Hskip. reflexivity.
  - destruct (vget_inside thresh_range (2 + 1)) as [lo ->]; [lia|].
    destruct (vget_inside thresh_range (2 + 2)) as [hi ->]; [lia|].
    cbn [Z.ltb Z.compare Pos.compare Pos.compare_cont bind]. rewrite Hskip. reflexivity.
  - destruct (vget_inside thresh_range (3 + 1)) as [lo ->]; [lia|].
    destruct (vget_inside thresh_range (3 + 2)) as [hi ->]; [lia|].
    cbn [Z.ltb Z.compare Pos.compare Pos.compare_cont bind]. rewrite Hskip. reflexivity.
Qed.

Lemma inlier_points_In (band : PointCloud) (p : PointXYZ) :
  In p (inlier_points band) -> In p band.
Proof.
  unfold inlier_points. intros H. apply in_flat_map in H as (k & _ & Hk).
  destruct (band !! Z.to_nat k) as [q|] eqn:Hq; [|destruct Hk].
  destruct Hk as [<-|[]]. apply list_elem_of_In. eapply list_elem_of_lookup_2. exact Hq.
Qed.

Lemma band_result_In (band : PointCloud) (p : PointXYZ) :
  In p (band_result band) -> In p band.
Proof.
  unfold band_result. destruct (vsize band <? 5); [intros []|apply inlier_points_In].
Qed.

Hypothesis outlier_removal_selects :
  forall (k : Z) (s : float) (c : PointCloud) (p : PointXYZ),
    In p (statistical_outlier_removal k s c) -> In p c.

Lemma region_result_In (region : PointCloud) (p : PointXYZ) :
  In p (region_result region) ->
  In p region
  /\ exists j, In j [0; -1; -2; -3; -4]
       /\ passes field_z (f32_of_int (j - 1)) (f32_of_int j) p = true.
Proof.
  unfold region_result. destruct (vsize region <? 5); [intros []|].
  intros H. apply in_concat in H as (result & Hresult & Hp).
  apply in_map_iff in Hresult as (band & <- & Hband).
  apply band_result_In in Hp.
  assert (Hbands : exists j, In j [0; -1; -2; -3; -4]
            /\ band = PassThrough field_z (f32_of_int (j - 1)) (f32_of_int j)
                        (statistical_outlier_removal 50 1 region)).
  { unfold bands in Hband. cbn [In] in Hband.
    destruct Hband as [<-|[<-|[<-|[<-|[<-|[]]]]]];
      [exists 0|exists (-1)|exists (-2)|exists (-3)|exists (-4)];
      (split; [cbn [In]; tauto|reflexivity]). }
  destruct Hbands as (j & Hj & ->). apply PassThrough_In in Hp as [Hp Hz].
  split; [eapply outlier_removal_selects; exact Hp|]. exists j. auto.
Qed.

Lemma segment_spec_In (src_cloud : PointCloud)
    (min_x mid_x max_x min_y mid_y max_y : float) (p : PointXYZ) :
  In p (segment_spec src_cloud min_x mid_x max_x min_y mid_y max_y) ->
  In p src_cloud
  /\ (exists region,
        In region (lateral_regions src_cloud min_x mid_x max_x min_y mid_y max_y)
        /\ In p region)
  /\ (exists j, In j [0; -1; -2; -3; -4]
        /\ passes field_z (f32_of_int (j - 1)) (f32_of_int j) p = true).
Proof.
  intros Hp. unfold segment_spec in Hp.
  apply in_concat in Hp as (result & Hresult & Hp).
  apply in_map_iff in Hresult as (region & <- & Hregion).
  apply region_result_In in Hp as [Hin Hband].
  split; [|split; [exists region; auto|exact Hband]].
  unfold lateral_regions in Hregion. cbn [In] in Hregion.
  destruct Hregion as [<-|[<-|[<-|[<-|[]]]]];
    apply PassThrough_In in Hin as [Hin _]; exact Hin.
Qed.

End SegmenterEdges.

(** A cloud with fewer than 5 points has no plane fitted: whatever the
    six bounds are, [rectangularThreshold] returns the empty cloud and
    never calls the plane fit. *)
Theorem rectangularThreshold_small_cloud {F : Float32} {P : PCL}
    (src_cloud : PointCloud) (thresh_range : list float) :
  vsize src_cloud < 5 ->
  6 <= vsize thresh_range ->
  WallSegmenter.rectangularThreshold src_cloud thresh_range = Ret [].
Proof.
  intros Hsmall Hrange. unfold WallSegmenter.rectangularThreshold.
  cbn [for_each].
  repeat (rewrite (fun i st Hi => fit_region_small src_cloud thresh_range i st Hsmall Hrange Hi)
            by (cbn [In]; tauto);
          cbn [bind]).
  reflexivity.
Qed.

Lemma rectangularThreshold_small_cloud_witness :
  vsize [Reference.pt 1 0 0; Reference.pt 1 1 0; Reference.pt 1 2 0; Reference.pt 1 3 0] < 5
  /\ 6 <= vsize [-5; 0; 5; -5; 0; 5]%float
  /\ WallSegmenter.rectangularThreshold
       [Reference.pt 1 0 0; Reference.pt 1 1 0; Reference.pt 1 2 0; Reference.pt 1 3 0]
       [-5; 0; 5; -5; 0; 5]%float
     = Ret [].
Proof.
  assert (H1 : vsize [Reference.pt 1 0 0; Reference.pt 1 1 0; Reference.pt 1 2 0;
                      Reference.pt 1 3 0] < 5) by reflexivity.
  assert (H2 : 6 <= vsize [-5; 0; 5; -5; 0; 5]%float) by (vm_compute; discriminate).
  split; [exact H1|]. split; [exact H2|].
  exact (rectangularThreshold_small_cloud _ _ H1 H2).
Defined.

(** The segmenter only selects: when the plane fit answers with indices
    into its cloud and the outlier removal returns points of its input,
    every point [rectangularThreshold] returns is a point of the input
    cloud that lies in one of the four lateral regions and in one of the
    five depth bands between -5 and 0. *)
Theorem rectangularThreshold_selects_input_points {F : Float32} {P : PCL}
    (src_cloud : PointCloud) (min_x mid_x max_x min_y mid_y max_y : float) :
  WallSegmenter.inliers_in_range ->
  (forall (k : Z) (s : float) (c : PointCloud) (p : PointXYZ),
     In p (statistical_outlier_removal k s c) -> In p c) ->
  exists ret_cloud,
    WallSegmenter.rectangularThreshold src_cloud
      [min_x; mid_x; max_x; min_y; mid_y; max_y] = Ret ret_cloud
    /\ forall p, In p ret_cloud ->
         In p src_cloud
         /\ (exists region,
               In region
                 (WallSegmenter.lateral_regions src_cloud
                    min_x mid_x max_x min_y mid_y max_y)
               /\ In p region)
         /\ (exists j, In j [0; -1; -2; -3; -4]
               /\ passes field_z (f32_of_int (j - 1)) (f32_of_int j) p = true).
Proof.
  intros Hransac Hsor. eexists. split.
  - apply rectangularThreshold_segments. exact Hransac.
  - intros p Hp. exact (segment_spec_In Hsor _ _ _ _ _ _ _ p Hp).
Qed.

Lemma stand_in_outlier_removal_selects :
  forall (k : Z) (s : float) (c : PointCloud) (p : PointXYZ),
    In p (@statistical_outlier_removal Reference.binary32 Reference.stand_in k s c) ->
    In p c.
Proof. intros k s c p H. exact H. Qed.

Lemma rectangularThreshold_selects_input_points_witness :
  let src_cloud :=
    [Reference.pt 1 0 0; Reference.pt 1 1 0; Reference.pt 2 2 (-1);
     Reference.pt 1 3 0; Reference.pt 1 4 0; Reference.pt 1 5 (-1)] in
  @WallSegmenter.inliers_in_range Reference.binary32 Reference.stand_in
  /\ (forall (k : Z) (s : float) (c : PointCloud) (p : PointXYZ),
        In p (statistical_outlier_removal k s c) -> In p c)
  /\ exists ret_cloud,
       WallSegmenter.rectangularThreshold src_cloud [-5; 0; 5; -5; 0; 5]%float
       = Ret ret_cloud
       /\ forall p, In p ret_cloud ->
            In p src_cloud
            /\ (exists region,
                  In region (WallSegmenter.lateral_regions src_cloud (-5) 0 5 (-5) 0 5)
                  /\ In p region)
            /\ (exists j, In j [0; -1; -2; -3; -4]
                  /\ passes field_z (f32_of_int (j - 1)) (f32_of_int j) p = true).
Proof.
  intros src_cloud.
  split; [exact plane_inliers_in_range|].
  split; [exact stand_in_outlier_removal_selects|].
  exact (rectangularThreshold_selects_input_points src_cloud (-5) 0 5 (-5) 0 5
           plane_inliers_in_range stand_in_outlier_removal_selects).
Defined.

(** ** The stitching program without [-t] *)

Section StitchBounds.

Import FileFilter FrameOrder Stitching StitchingMain.

Context {F : Float32} {P : PCL}.

Variable minus : TransformStore.TransformData -> TransformStore.TransformData
                 -> TransformStore.TransformData.

Lemma remove_non_pcd_shrinks (listing kept : list string) :
  remove_non_pcd listing = Ret kept -> vsize kept <= vsize listing.
Proof.
  revert kept. induction listing as [|f rest IH]; intros kept H.
  - inversion H. lia.
  - cbn [remove_non_pcd] in H.
    destruct (filePredicate f) as [rejected| |]; try discriminate H.
    destruct (remove_non_pcd rest) as [kept'| |]; try discriminate H.
    cbn [bind] in H. inversion H; subst. specialize (IH kept' eq_refl).
    unfold vsize in *. destruct rejected; cbn [length]; lia.
Qed.

Lemma linear_insert_size (val : string) (sorted_rev l : list string) :
  linear_insert val sorted_rev = Ret l -> length l = S (length sorted_rev).
Proof.
  revert l. induction sorted_rev as [|y rest IH]; intros l H; cbn [linear_insert] in H.
  - inversion H. reflexivity.
  - destruct (compareFilenames val y) as [[|]| |]; try discriminate H; cbn [bind] in H.
    + destruct (linear_insert val rest) as [rest'| |]; try discriminate H.
      cbn [bind] in H. inversion H; subst. cbn [length]. rewrite (IH rest' eq_refl).
      reflexivity.
    + inversion H. reflexivity.
Qed.

Lemma insertion_sort_size (todo sorted_rev l : list string) :
  insertion_sort sorted_rev todo = Ret l ->
  length l = (length sorted_rev + length todo)%nat.
Proof.
  revert sorted_rev l. induction todo as [|val todo IH]; intros sorted_rev l H;
    cbn [insertion_sort] in H.
  - inversion H. rewrite length_rev. cbn [length]. lia.
  - destruct (linear_insert val sorted_rev) as [sorted_rev'| |] eqn:Hins;
      try discriminate H.
    cbn [bind] in H. rewrite (IH _ _ H), (linear_insert_size _ _ _ Hins).
    cbn [length]. lia.
Qed.

Lemma for_each_returns {S J : Type} (js : list J) (body : J -> S -> outcome S) :
  (forall j s, In j js -> exists s', body j s = Ret s') ->
  forall s, exists s', for_each js body s = Ret s'.
Proof.
  induction js as [|j js IH]; intros Hbody s; cbn [for_each].
  - eauto.
  - destruct (Hbody j s (or_introl eq_refl)) as [s' ->]. cbn [bind].
    apply IH. intros k s0 Hk. apply Hbody. right. exact Hk.
Qed.

(** With a record for every file, no index of the loop leaves its
    vector. *)
Lemma stitch_returns (directory : string) (files_to_process : list string)
    (cloud_transformations : list TransformStore.TransformData) :
  1 <= vsize files_to_process <= vsize cloud_transformations ->
  exists stitchedCloud,
    stitch minus directory files_to_process cloud_transformations = Ret stitchedCloud.
Proof.
  intros Hsize. unfold stitch.
  destruct (vget_inside files_to_process 0) as [first ->]; [lia|]. cbn [bind].
  apply for_each_returns. intros i self Hi. apply range_bounds in Hi.
  unfold add_frame.
  destruct (vget_inside files_to_process i) as [file ->]; [lia|].
  destruct (vget_inside cloud_transformations i) as [ti ->]; [lia|].
  destruct (vget_inside cloud_transformations 0) as [t0 ->]; [lia|].
  cbn [bind]. eauto.
Qed.

Lemma frames_visited_bounded (listing files_to_process : list string) :
  frames_visited listing = Ret (Some files_to_process) ->
  1 <= vsize files_to_process <= vsize listing.
Proof.
  unfold frames_visited. intros H.
  destruct (remove_non_pcd listing) as [kept| |] eqn:Hkept; try discriminate H.
  cbn [bind] in H. apply remove_non_pcd_shrinks in Hkept.
  destruct (vsize kept =? 0) eqn:Hzero; [discriminate H|]. apply Z.eqb_neq in Hzero.
  destruct (sort_files kept) as [sorted| |] eqn:Hsort; try discriminate H.
  cbn [bind] in H. inversion H; subst. unfold sort_files in Hsort.
  apply insertion_sort_size in Hsort. cbn [length] in Hsort.
  pose proof (vsize_nonneg kept). unfold vsize in *. lia.
Qed.

Lemma bind_defined {A B : Type} (m : outcome A) (k : A -> outcome B) :
  (forall u, m <> UB u) -> (forall a u, k a <> UB u) -> forall u, bind m k <> UB u.
Proof.
  intros Hm Hk u. destruct m as [a|e|u0]; cbn [bind];
    [apply Hk|discriminate|exfalso; exact (Hm u0 eq_refl)].
Qed.

Lemma substr_defined (s : string) (pos n : Z) (u : undefined) : Str.substr s pos n <> UB u.
Proof. unfold Str.substr. destruct (Str.size s <? pos); discriminate. Qed.

Lemma stoi_defined (s : string) (u : undefined) : Str.stoi s <> UB u.
Proof.
  unfold Str.stoi.
  destruct (match Str.skip_space s with
            | String "-"%char r => (true, r)
            | String "+"%char r => (false, r)
            | _ => (false, Str.skip_space s)
            end) as [negative s2].
  destruct (Str.read_digits s2 0 false); [|discriminate].
  destruct (_ && _); discriminate.
Qed.

Lemma compareFilenames_defined (a b : string) (u : undefined) :
  compareFilenames a b <> UB u.
Proof.
  assert (Hindex : forall a u, extracted_index a <> UB u).
  { intros a0. unfold extracted_index. apply bind_defined.
    - intros u0. apply substr_defined.
    - intros digits u0. apply stoi_defined. }
  revert u. unfold compareFilenames. apply bind_defined; [apply Hindex|].
  intros x. apply bind_defined; [apply Hindex|]. discriminate.
Qed.

Lemma linear_insert_defined (val : string) (sorted_rev : list string) (u : undefined) :
  linear_insert val sorted_rev <> UB u.
Proof.
  revert u. induction sorted_rev as [|y rest IH]; cbn [linear_insert]; [discriminate|].
  apply bind_defined; [intros u; apply compareFilenames_defined|].
  intros [|]; [|discriminate]. apply bind_defined; [exact IH|discriminate].
Qed.

Lemma sort_files_defined (files_to_process : list string) (u : undefined) :
  sort_files files_to_process <> UB u.
Proof.
  unfold sort_files. generalize (@nil string). revert u.
  induction files_to_process as [|val todo IH]; intros u sorted_rev;
    cbn [insertion_sort]; [discriminate|].
  revert u. apply bind_defined; [intros u; apply linear_insert_defined|].
  intros sorted_rev' u. apply IH.
Qed.

Lemma filePredicate_defined (s : string) (u : undefined) : filePredicate s <> UB u.
Proof.
  unfold filePredicate.
  repeat match goal with
         | |- (if negb ?b then _ else _) <> _ => destruct b; cbn [negb]; try discriminate
         end.
  revert u. apply bind_defined; [intros u; apply substr_defined|discriminate].
Qed.

Lemma remove_non_pcd_defined (listing : list string) (u : undefined) :
  remove_non_pcd listing <> UB u.
Proof.
  revert u. induction listing as [|f rest IH]; cbn [remove_non_pcd]; [discriminate|].
  apply bind_defined; [intros u; apply filePredicate_defined|].
  intros rejected. apply bind_defined; [exact IH|discriminate].
Qed.

Lemma frames_visited_defined (listing : list string) (u : undefined) :
  frames_visited listing <> UB u.
Proof.
  revert u. unfold frames_visited.
  apply bind_defined; [intros u; apply remove_non_pcd_defined|].
  intros kept. destruct (vsize kept =? 0); [discriminate|].
  apply bind_defined; [intros u; apply sort_files_defined|discriminate].
Qed.

End StitchBounds.

(** Without [-t], the stitching program fills [cloud_transformations]
    with one record for each entry of the directory before it removes the
    entries that are no frame files; so once the frames are selected and
    sorted, the stitching runs to its end: it reads [files_to_process] and
    [cloud_transformations] inside their bounds only.  The run ends early
    only by the [return -1] on an empty selection or by an exception of
    the filter or of the sort. *)
Theorem stitch_directory_in_bounds {F : Float32} {P : PCL}
    (minus : TransformStore.TransformData -> TransformStore.TransformData
             -> TransformStore.TransformData)
    (directory : string) (listing : list string) :
  match FrameOrder.frames_visited listing with
  | Ret (Some files_to_process) =>
      exists stitchedCloud,
        StitchingMain.stitch_directory minus directory listing = Ret (Some stitchedCloud)
        /\ Stitching.stitch minus directory files_to_process
             (StitchingMain.zero_transformations listing) = Ret stitchedCloud
  | Ret None => StitchingMain.stitch_directory minus directory listing = Ret None
  | Throw e => StitchingMain.stitch_directory minus directory listing = Throw e
  | UB _ => False
  end.
Proof.
  unfold StitchingMain.stitch_directory.
  destruct (FrameOrder.frames_visited listing) as [[files_to_process|]| |] eqn:Hvisited;
    cbn [bind]; try reflexivity.
  - apply frames_visited_bounded in Hvisited.
    destruct (stitch_returns minus directory files_to_process
                (StitchingMain.zero_transformations listing)) as [stitchedCloud Hs].
    { unfold StitchingMain.zero_transformations, vsize in *. rewrite length_map. lia. }
    exists stitchedCloud. rewrite Hs. split; reflexivity.
  - exact (frames_visited_defined listing u Hvisited).
Qed.

(** ** The loop over the frames *)

Section StitchLoop.

Import Stitching.

Context {F : Float32} {P : PCL}.

Variable minus : TransformStore.TransformData -> TransformStore.TransformData
                 -> TransformStore.TransformData.

Lemma add_frame_logs (directory : string) (files_to_process : list string)
    (cloud_transformations : list TransformStore.TransformData) (i : Z)
    (self : StitchedCloud) :
  1 <= i < vsize files_to_process ->
  i < vsize cloud_transformations ->
  exists self',
    add_frame minus directory files_to_process cloud_transformations i self = Ret self'
    /\ console self' = console self ++ addCloud_lines.
Proof.
  intros Hi Ht. unfold add_frame.
  destruct (vget_inside files_to_process i) as [file ->]; [lia|].
  destruct (vget_inside cloud_transformations i) as [ti ->]; [lia|].
  destruct (vget_inside cloud_transformations 0) as [t0 ->]; [lia|].
  cbn [bind]. eexists. split; [reflexivity|].
  rewrite addCloud_unfolded. reflexivity.
Qed.

Lemma frames_logged (directory : string) (files_to_process : list string)
    (cloud_transformations : list TransformStore.TransformData) (js : list Z) :
  (forall i, In i js -> 1 <= i < vsize files_to_process /\ i < vsize cloud_transformations) ->
  forall self,
    exists self',
      for_each js (add_frame minus directory files_to_process cloud_transformations) self
      = Ret self'
      /\ console self' = console self ++ concat (repeat addCloud_lines (length js)).
Proof.
  induction js as [|j js IH]; intros Hjs self; cbn [for_each length repeat concat].
  - exists self. rewrite app_nil_r. auto.
  - destruct (add_frame_logs directory files_to_process cloud_transformations j self)
      as (self1 & -> & Hlog); [apply Hjs; left; reflexivity..|].
    cbn [bind]. destruct (IH (fun i Hi => Hjs i (or_intror Hi)) self1) as (self' & -> & Hlog').
    exists self'. split; [reflexivity|]. rewrite Hlog', Hlog, <- app_assoc. reflexivity.
Qed.

End StitchLoop.

(** With a transform record for every frame, the loop of [main] reads
    every frame after the first and registers it: the run returns, and
    the console shows, for each of these frames in turn, the nine stage
    names of [addCloud] in their order; the first frame prints nothing. *)
Theorem stitch_logs_every_frame {F : Float32} {P : PCL}
    (minus : TransformStore.TransformData -> TransformStore.TransformData
             -> TransformStore.TransformData)
    (directory : string) (files_to_process : list string)
    (cloud_transformations : list TransformStore.TransformData) :
  1 <= vsize files_to_process <= vsize cloud_transformations ->
  exists stitchedCloud,
    Stitching.stitch minus directory files_to_process cloud_transformations
    = Ret stitchedCloud
    /\ Stitching.console stitchedCloud
       = concat (repeat Stitching.addCloud_lines
                   (Z.to_nat (vsize files_to_process - 1))).
Proof.
  intros Hsize. unfold Stitching.stitch.
  destruct (vget_inside files_to_process 0) as [first ->]; [lia|]. cbn [bind].
  destruct (frames_logged minus directory files_to_process cloud_transformations
              (range 1 (vsize files_to_process)))
    with (self := Stitching.StitchedCloud_new (read_pcd (String.append directory first)))
    as (stitchedCloud & -> & Hlog).
  { intros i Hi. apply range_bounds in Hi. lia. }
  exists stitchedCloud. split; [reflexivity|]. rewrite Hlog.
  cbn [Stitching.console Stitching.StitchedCloud_new app].
  unfold range. rewrite length_map, length_seq. reflexivity.
Qed.

Lemma stitch_logs_every_frame_witness :
  let files_to_process := ["scanD1.pcd"; "scanD2.pcd"; "scanD3.pcd"]%string in
  let cloud_transformations := StitchingMain.zero_transformations files_to_process in
  1 <= vsize files_to_process <= vsize cloud_transformations
  /\ exists stitchedCloud,
       Stitching.stitch (fun a _ => a) "" files_to_process cloud_transformations
       = Ret stitchedCloud
       /\ Stitching.console stitchedCloud
          = concat (repeat Stitching.addCloud_lines
                      (Z.to_nat (vsize files_to_process - 1))).
Proof.
  intros files_to_process cloud_transformations.
  assert (H : 1 <= vsize files_to_process <= vsize cloud_transformations)
    by (vm_compute; split; discriminate).
  split; [exact H|].
  exact (stitch_logs_every_frame (fun a _ => a) "" files_to_process
           cloud_transformations H).
Defined.

(** With fewer transform records than frames, and two frames or more,
    the loop of [main] reads [cloud_transformations] outside its bounds:
    nothing compares the two sizes. *)
Theorem stitch_needs_a_record_per_frame {F : Float32} {P : PCL}
    (minus : TransformStore.TransformData -> TransformStore.TransformData
             -> TransformStore.TransformData)
    (directory : string) (files_to_process : list string)
    (cloud_transformations : list TransformStore.TransformData) :
  2 <= vsize files_to_process ->
  vsize cloud_transformations < vsize files_to_process ->
  Stitching.stitch minus directory files_to_process cloud_transformations
  = UB vector_index_out_of_bounds.
Proof.
  intros Hfiles Hfew. unfold Stitching.stitch.
  destruct (vget_inside files_to_process 0) as [first ->]; [lia|]. cbn [bind].
  pose proof (vsize_nonneg cloud_transformations) as Hts.
  set (k := Z.max 1 (vsize cloud_transformations)).
  rewrite (range_split 1 k (vsize files_to_process)) by lia.
  rewrite for_each_app.
  destruct (frames_logged minus directory files_to_process cloud_transformations
              (range 1 k))
    with (self := Stitching.StitchedCloud_new (read_pcd (String.append directory first)))
    as (self & -> & _).
  { intros i Hi. apply range_bounds in Hi. lia. }
  cbn [bind]. rewrite (range_cons k) by lia. cbn [for_each].
  unfold Stitching.add_frame at 1.
  destruct (vget_inside files_to_process k) as [file ->]; [lia|]. cbn [bind].
  rewrite (vget_out_of_bounds cloud_transformations k) by lia. reflexivity.
Qed.

Lemma stitch_needs_a_record_per_frame_witness :
  let files_to_process := ["scanD1.pcd"; "scanD2.pcd"; "scanD3.pcd"]%string in
  let cloud_transformations :=
    [TransformStore.TransformData_default; TransformStore.TransformData_default] in
  2 <= vsize files_to_process
  /\ vsize cloud_transformations < vsize files_to_process
  /\ Stitching.stitch (fun a _ => a) "" files_to_process cloud_transformations
     = UB vector_index_out_of_bounds.
Proof.
  intros files_to_process cloud_transformations.
  assert (H1 : 2 <= vsize files_to_process) by (vm_compute; discriminate).
  assert (H2 : vsize cloud_transformations < vsize files_to_process) by reflexivity.
  split; [exact H1|]. split; [exact H2|].
  exact (stitch_needs_a_record_per_frame (fun a _ => a) "" files_to_process
           cloud_transformations H1 H2).
Defined.

(** ** What the averaging block of the cleanup program computes *)

Section AverageRowsClosed.

Import CleanupMain.

Lemma add_columns_length (n : nat) (acc vals : list float) :
  length (add_columns n acc vals) = length acc.
Proof.
  revert acc vals. induction n as [|n IH]; intros [|a acc] [|v vals];
    cbn [add_columns length]; try reflexivity.
  rewrite IH. reflexivity.
Qed.

Lemma add_columns_above (n m : nat) (acc vals : list float) :
  (n <= m)%nat -> add_columns n acc vals !! m = acc !! m.
Proof.
  revert m acc vals. induction n as [|n IH]; intros m [|a acc] [|v vals] Hm;
    cbn [add_columns]; try reflexivity.
  destruct m as [|m]; [lia|]. cbn [lookup list_lookup]. apply IH. lia.
Qed.

Lemma add_columns_next (n : nat) (acc vals : list float) (a v : float) :
  acc !! n = Some a -> vals !! n = Some v ->
  add_columns (S n) acc vals = <[n := (a + v)%float]> (add_columns n acc vals).
Proof.
  revert acc vals. induction n as [|n IH]; intros [|a0 acc] [|v0 vals] Ha Hv;
    try discriminate.
  - inversion Ha; inversion Hv; subst. reflexivity.
  - cbn [lookup list_lookup] in Ha, Hv.
    change (add_columns (S (S n)) (a0 :: acc) (v0 :: vals))
      with ((a0 + v0)%float :: add_columns (S n) acc vals).
    rewrite (IH acc vals Ha Hv). reflexivity.
Qed.

Lemma divide_columns_length (n : nat) (acc : list float) (d : float) :
  length (divide_columns n acc d) = length acc.
Proof.
  revert acc. induction n as [|n IH]; intros [|a acc];
    cbn [divide_columns length]; try reflexivity.
  rewrite IH. reflexivity.
Qed.

Lemma divide_columns_above (n m : nat) (acc : list float) (d : float) :
  (n <= m)%nat -> divide_columns n acc d !! m = acc !! m.
Proof.
  revert m acc. induction n as [|n IH]; intros m [|a acc] Hm;
    cbn [divide_columns]; try reflexivity.
  destruct m as [|m]; [lia|]. cbn [lookup list_lookup]. apply IH. lia.
Qed.

Lemma divide_columns_next (n : nat) (acc : list float) (a d : float) :
  acc !! n = Some a ->
  divide_columns (S n) acc d = <[n := (a / d)%float]> (divide_columns n acc d).
Proof.
  revert acc. induction n as [|n IH]; intros [|a0 acc] Ha; try discriminate.
  - inversion Ha; subst. reflexivity.
  - cbn [lookup list_lookup] in Ha.
    change (divide_columns (S (S n)) (a0 :: acc) d)
      with ((a0 / d)%float :: divide_columns (S n) acc d).
    rewrite (IH acc Ha). reflexivity.
Qed.

Lemma vget2_lookup (m : list (list float)) (r c : nat) (row : list float) (a : float) :
  m !! r = Some row -> row !! c = Some a ->
  vget2 m (Z.of_nat r) (Z.of_nat c) = Ret a.
Proof.
  intros Hr Hc. unfold vget2.
  rewrite (vget_lookup m (Z.of_nat r) row) by (lia || rewrite Nat2Z.id; exact Hr).
  cbn [bind]. apply vget_lookup; [lia|]. rewrite Nat2Z.id. exact Hc.
Qed.

Lemma vset_inside {A : Type} (v : list A) (i : nat) (a : A) :
  (i < length v)%nat -> vset v (Z.of_nat i) a = Ret (<[i := a]> v).
Proof.
  intros Hi. unfold vset, vsize.
  destruct (0 <=? Z.of_nat i) eqn:H0; [|apply Z.leb_gt in H0; lia].
  destruct (Z.of_nat i <? Z.of_nat (length v)) eqn:H1; [|apply Z.ltb_ge in H1; lia].
  cbn [andb]. rewrite Nat2Z.id. reflexivity.
Qed.

Lemma vset2_lookup (m : list (list float)) (r c : nat) (row : list float) (x : float) :
  m !! r = Some row -> (c < length row)%nat ->
  vset2 m (Z.of_nat r) (Z.of_nat c) x = Ret (<[r := <[c := x]> row]> m).
Proof.
  intros Hr Hc. unfold vset2.
  rewrite (vget_lookup m (Z.of_nat r) row) by (lia || rewrite Nat2Z.id; exact Hr).
  cbn [bind]. rewrite (vset_inside row c x Hc). cbn [bind].
  apply vset_inside. eapply lookup_lt_Some. exact Hr.
Qed.

(** The inner loop of the first loop, on a row of the table that has its
    columns, and a record that is there. *)
Lemma add_cells_closed (raw : list (list float)) (num row : Z) (k : nat)
    (acc vals : list float) (n : nat) :
  0 <= row ->
  to_int (to_size_t row / (vsize raw / to_size_t num)) = Z.of_nat k ->
  raw !! Z.to_nat row = Some vals ->
  (n <= length acc)%nat -> (n <= length vals)%nat ->
  forall t, t !! k = Some acc ->
    for_each (range 0 (Z.of_nat n)) (add_cell raw num row) t
    = Ret (<[k := add_columns n acc vals]> t).
Proof.
  intros Hrow Hk Hvals. induction n as [|n IH]; intros Hacc Hlen t Ht.
  - cbn [for_each range]. rewrite list_insert_id by exact Ht. reflexivity.
  - rewrite Nat2Z.inj_succ, <- Z.add_1_r, <- range_snoc, for_each_app by lia.
    rewrite IH by (lia || exact Ht). cbn [bind for_each].
    destruct (lookup_lt_is_Some_2 acc n) as [a Ha]; [lia|].
    destruct (lookup_lt_is_Some_2 vals n) as [v Hv]; [lia|].
    assert (Hk' : (k < length t)%nat) by (eapply lookup_lt_Some; exact Ht).
    unfold add_cell. rewrite Hk.
    rewrite (vget2_lookup _ k n (add_columns n acc vals) a);
      [|rewrite list_lookup_insert_eq by exact Hk'; reflexivity
       |rewrite add_columns_above by lia; exact Ha].
    cbn [bind].
    replace row with (Z.of_nat (Z.to_nat row)) at 1 by lia.
    rewrite (vget2_lookup raw _ n vals v Hvals Hv). cbn [bind].
    rewrite (vset2_lookup _ k n (add_columns n acc vals));
      [|rewrite list_lookup_insert_eq by exact Hk'; reflexivity
       |rewrite add_columns_length; lia].
    rewrite list_insert_insert_eq, (add_columns_next n acc vals a v Ha Hv). reflexivity.
Qed.

(** The inner loop of the second loop. *)
Lemma divide_row_closed (num : Z) (k : nat) (acc : list float) (n : nat) :
  (n <= length acc)%nat ->
  forall t, t !! k = Some acc ->
    divide_row num (Z.of_nat n) (Z.of_nat k) t
    = Ret (<[k := divide_columns n acc (double_of_int num)]> t).
Proof.
  unfold divide_row. induction n as [|n IH]; intros Hacc t Ht.
  - cbn [for_each range]. rewrite list_insert_id by exact Ht. reflexivity.
  - rewrite Nat2Z.inj_succ, <- Z.add_1_r, <- range_snoc, for_each_app by lia.
    rewrite IH by (lia || exact Ht). cbn [bind for_each].
    destruct (lookup_lt_is_Some_2 acc n) as [a Ha]; [lia|].
    assert (Hk' : (k < length t)%nat) by (eapply lookup_lt_Some; exact Ht).
    rewrite (vget2_lookup _ k n (divide_columns n acc (double_of_int num)) a);
      [|rewrite list_lookup_insert_eq by exact Hk'; reflexivity
       |rewrite divide_columns_above by lia; exact Ha].
    cbn [bind].
    rewrite (vset2_lookup _ k n (divide_columns n acc (double_of_int num)));
      [|rewrite list_lookup_insert_eq by exact Hk'; reflexivity
       |rewrite divide_columns_length; lia].
    rewrite list_insert_insert_eq, (divide_columns_next n acc a _ Ha). reflexivity.
Qed.

End AverageRowsClosed.

Section AverageRowsLoops.

Import CleanupMain.

Variable raw : list (list float).
Variables num group num_cols : nat.

Hypothesis num_positive : (1 <= num)%nat.
Hypothesis group_large : (num <= group)%nat.
Hypothesis group_value : vsize raw / Z.of_nat num = Z.of_nat group.
Hypothesis raw_small : vsize raw < 2 ^ 31.
Hypothesis six_columns : (num_cols <= 6)%nat.
Hypothesis rows_wide : Forall (fun row => (num_cols <= length row)%nat) raw.

Lemma group_small : Z.of_nat group < 2 ^ 31.
Proof.
  rewrite <- group_value. pose proof (vsize_nonneg raw).
  assert (vsize raw / Z.of_nat num <= vsize raw)
    by (apply Z.div_le_upper_bound; nia).
  lia.
Qed.

(** The number of records pushed before row [m]: one for each multiple
    of [num] below [m]. *)
Lemma records_step (m : nat) :
  ((S m + num - 1) / num
   = if (m mod num =? 0) then S ((m + num - 1) / num) else (m + num - 1) / num)%nat.
Proof.
  pose proof (Nat.div_mod_eq m num) as Hm.
  pose proof (Nat.mod_upper_bound m num ltac:(lia)) as Hs.
  set (q := (m / num)%nat) in *. set (s := (m mod num)%nat) in *.
  destruct (s =? 0)%nat eqn:Hs0.
  - apply Nat.eqb_eq in Hs0.
    rewrite <- (Nat.div_unique (m + num - 1) num q (num - 1)) by lia.
    rewrite <- (Nat.div_unique (S m + num - 1) num (S q) 0) by lia.
    reflexivity.
  - apply Nat.eqb_neq in Hs0.
    rewrite <- (Nat.div_unique (m + num - 1) num (S q) (s - 1)) by lia.
    rewrite <- (Nat.div_unique (S m + num - 1) num (S q) s) by lia.
    reflexivity.
Qed.

Lemma records_cover (m : nat) : (m <= (m + num - 1) / num * num)%nat.
Proof.
  pose proof (Nat.div_mod_eq (m + num - 1) num) as Hm.
  pose proof (Nat.mod_upper_bound (m + num - 1) num ltac:(lia)) as Hs.
  lia.
Qed.

Lemma group_index (m j : nat) : (j * group <= m < j * group + group)%nat -> (m / group = j)%nat.
Proof.
  intros H. symmetry. apply (Nat.div_unique m group j (m - j * group)); lia.
Qed.

Lemma group_index_bounds (m : nat) :
  (m / group * group <= m < m / group * group + group)%nat.
Proof.
  pose proof (Nat.div_mod_eq m group) as Hm.
  pose proof (Nat.mod_upper_bound m group ltac:(lia)) as Hs.
  lia.
Qed.

(** Row [m] joins the group [m / group], and no other. *)
Lemma rows_of_group_step (m j : nat) (vals : list float) :
  raw !! m = Some vals ->
  rows_of_group group (firstn (S m) raw) j
  = if (j =? m / group)%nat
    then rows_of_group group (firstn m raw) j ++ [vals]
    else rows_of_group group (firstn m raw) j.
Proof.
  intros Hvals. unfold rows_of_group.
  assert (Hm : (m < length raw)%nat) by (eapply lookup_lt_Some; exact Hvals).
  assert (Hlen : length (firstn m raw) = m) by (rewrite length_take; lia).
  rewrite (take_S_r raw m vals Hvals).
  pose proof (group_index_bounds m) as Hbounds.
  destruct (Nat.le_gt_cases (j * group) m) as [Hle|Hgt].
  - rewrite drop_app_le by lia.
    assert (Hrest : length (skipn (j * group) (firstn m raw)) = (m - j * group)%nat)
      by (rewrite length_drop; lia).
    destruct (j =? m / group)%nat eqn:Hj.
    + apply Nat.eqb_eq in Hj. subst j.
      rewrite (take_ge (skipn _ (firstn m raw) ++ [vals]))
        by (rewrite length_app, Hrest; cbn [length]; lia).
      rewrite (take_ge (skipn _ (firstn m raw))) by lia. reflexivity.
    + apply Nat.eqb_neq in Hj. apply take_app_le. rewrite Hrest.
      destruct (Nat.le_gt_cases group (m - j * group)) as [Hfull|Hpart]; [exact Hfull|].
      exfalso. apply Hj. symmetry. apply group_index. lia.
  - assert (Hj : (j =? m / group)%nat = false).
    { apply Nat.eqb_neq. intros ->. lia. }
    rewrite Hj. rewrite (drop_ge (firstn m raw ++ [vals]))
      by (rewrite length_app, Hlen; cbn [length]; lia).
    rewrite (drop_ge (firstn m raw)) by lia. reflexivity.
Qed.

Lemma sum_length (rows : list (list float)) (acc : list float) :
  length (fold_left (add_columns num_cols) rows acc) = length acc.
Proof.
  revert acc. induction rows as [|row rows IH]; intros acc; cbn [fold_left];
    [reflexivity|].
  rewrite IH. apply add_columns_length.
Qed.

Lemma insert_map_seq {B : Type} (f f' : nat -> B) (records k : nat) (y : B) :
  (k < records)%nat -> f' k = y -> (forall j, j <> k -> f' j = f j) ->
  <[k := y]> (map f (seq 0 records)) = map f' (seq 0 records).
Proof.
  intros Hk Hy Hother. apply list_eq. intros j.
  destruct (decide (j = k)) as [->|Hne].
  - rewrite list_lookup_insert_eq by (rewrite length_map, length_seq; exact Hk).
    change (map f' (seq 0 records)) with (f' <$> seq 0 records).
    rewrite list_lookup_fmap, lookup_seq_lt by exact Hk. cbn. rewrite Hy. reflexivity.
  - rewrite list_lookup_insert_ne by congruence.
    change (map f (seq 0 records)) with (f <$> seq 0 records).
    change (map f' (seq 0 records)) with (f' <$> seq 0 records).
    rewrite !list_lookup_fmap. destruct (seq 0 records !! j) as [i|] eqn:Hi; [|reflexivity].
    apply lookup_seq in Hi as [-> _]. cbn. rewrite Hother by exact Hne. reflexivity.
Qed.

(** One round of the first loop. *)
Lemma add_row_closed (m : nat) (vals : list float) :
  raw !! m = Some vals ->
  add_row raw (Z.of_nat num) (Z.of_nat num_cols) (Z.of_nat m)
    (group_sums num_cols group ((m + num - 1) / num) (firstn m raw))
  = Ret (group_sums num_cols group ((S m + num - 1) / num) (firstn (S m) raw)).
Proof.
  intros Hvals.
  assert (Hm : (m < length raw)%nat) by (eapply lookup_lt_Some; exact Hvals).
  assert (Hlen : length (firstn m raw) = m) by (rewrite length_take; lia).
  unfold add_row.
  (* the record pushed at a multiple of [num] *)
  assert (Hpush :
    (if Z.rem (Z.of_nat m) (Z.of_nat num) =? 0
     then group_sums num_cols group ((m + num - 1) / num) (firstn m raw)
          ++ [[0; 0; 0; 0; 0; 0]%float]
     else group_sums num_cols group ((m + num - 1) / num) (firstn m raw))
    = group_sums num_cols group ((S m + num - 1) / num) (firstn m raw)).
  { rewrite records_step, Z.rem_mod_nonneg, <- Nat2Z.inj_mod by lia.
    destruct (m mod num =? 0)%nat eqn:Hmod.
    - apply Nat.eqb_eq in Hmod. rewrite Hmod. cbn [Z.of_nat Z.eqb].
      unfold group_sums. rewrite seq_S, map_app. cbn [map Nat.add]. f_equal.
      unfold rows_of_group. pose proof (records_cover m).
      rewrite drop_ge by (rewrite Hlen; nia). rewrite take_nil. reflexivity.
    - apply Nat.eqb_neq in Hmod.
      destruct (Z.of_nat (m mod num) =? 0) eqn:Hz; [apply Z.eqb_eq in Hz; lia|].
      reflexivity. }
  rewrite Hpush. clear Hpush.
  (* the record the row is added to *)
  pose proof (group_index_bounds m) as Hbounds.
  assert (Hk : (m / group < (S m + num - 1) / num)%nat).
  { pose proof (records_cover (S m)). nia. }
  set (acc := fold_left (add_columns num_cols)
                (rows_of_group group (firstn m raw) (m / group))
                [0; 0; 0; 0; 0; 0]%float).
  assert (Hacc : group_sums num_cols group ((S m + num - 1) / num) (firstn m raw)
                   !! (m / group)%nat = Some acc).
  { unfold group_sums.
    change (map ?f ?l) with (f <$> l).
    rewrite list_lookup_fmap, lookup_seq_lt by exact Hk. reflexivity. }
  assert (Hrow : to_int (to_size_t (Z.of_nat m) / (vsize raw / to_size_t (Z.of_nat num)))
                 = Z.of_nat (m / group)).
  { pose proof group_small as Hsmall. unfold vsize in *.
    rewrite (to_size_t_small (Z.of_nat m)), (to_size_t_small (Z.of_nat num))
      by (unfold size_max; lia).
    rewrite group_value, <- Nat2Z.inj_div. apply to_int_small.
    pose proof (Nat.Div0.div_le_upper_bound m group m ltac:(nia)). lia. }
  rewrite (add_cells_closed raw (Z.of_nat num) (Z.of_nat m) (m / group) acc vals num_cols);
    [|lia|exact Hrow|rewrite Nat2Z.id; exact Hvals
     |unfold acc; rewrite sum_length; cbn [length]; lia
     |exact (proj1 (List.Forall_forall _ raw) rows_wide vals
               (proj1 (list_elem_of_In _ _) (list_elem_of_lookup_2 _ _ _ Hvals)))
     |exact Hacc].
  f_equal. unfold group_sums. apply insert_map_seq; [exact Hk| |].
  - rewrite (rows_of_group_step m _ vals Hvals). rewrite Nat.eqb_refl, fold_left_app.
    reflexivity.
  - intros j Hj. rewrite (rows_of_group_step m j vals Hvals).
    apply Nat.eqb_neq in Hj. rewrite Hj. reflexivity.
Qed.

(** The first loop, up to row [m]. *)
Lemma add_rows_closed (m : nat) :
  (m <= length raw)%nat ->
  for_each (range 0 (Z.of_nat m))
    (add_row raw (Z.of_nat num) (Z.of_nat num_cols)) []
  = Ret (group_sums num_cols group ((m + num - 1) / num) (firstn m raw)).
Proof.
  induction m as [|m IH]; intros Hm.
  - cbn [range for_each]. unfold group_sums.
    rewrite (Nat.div_small (0 + num - 1) num) by lia. reflexivity.
  - rewrite Nat2Z.inj_succ, <- Z.add_1_r, <- range_snoc, for_each_app by lia.
    rewrite IH by lia. cbn [bind for_each].
    destruct (lookup_lt_is_Some_2 raw m) as [vals Hvals]; [lia|].
    rewrite (add_row_closed m vals Hvals). reflexivity.
Qed.

(** The second loop, up to record [m]. *)
Lemma divide_rows_closed (sums : list (list float)) (m : nat) :
  Forall (fun acc => (num_cols <= length acc)%nat) sums ->
  (m <= length sums)%nat ->
  for_each (range 0 (Z.of_nat m)) (divide_row (Z.of_nat num) (Z.of_nat num_cols)) sums
  = Ret (map (fun sum => divide_columns num_cols sum (double_of_int (Z.of_nat num)))
           (firstn m sums)
         ++ skipn m sums).
Proof.
  intros Hwide. induction m as [|m IH]; intros Hm.
  - cbn [range for_each]. reflexivity.
  - rewrite Nat2Z.inj_succ, <- Z.add_1_r, <- range_snoc, for_each_app by lia.
    rewrite IH by lia. cbn [bind for_each].
    destruct (lookup_lt_is_Some_2 sums m) as [acc Hacc]; [lia|].
    assert (Hlen : length (map (fun sum =>
                                  divide_columns num_cols sum (double_of_int (Z.of_nat num)))
                             (firstn m sums)) = m)
      by (rewrite length_map, length_take; lia).
    rewrite (divide_row_closed (Z.of_nat num) m acc num_cols).
    + f_equal. rewrite insert_app_r_alt by lia. rewrite Hlen, Nat.sub_diag.
      rewrite (drop_S sums acc m Hacc), (take_S_r sums m acc Hacc), map_app.
      cbn [map]. rewrite <- app_assoc. reflexivity.
    + exact (proj1 (List.Forall_forall _ sums) Hwide acc
               (proj1 (list_elem_of_In _ _) (list_elem_of_lookup_2 _ _ _ Hacc))).
    + rewrite lookup_app_r by lia. rewrite Hlen, Nat.sub_diag, lookup_drop, Nat.add_0_r.
      exact Hacc.
Qed.

End AverageRowsLoops.

(** With at least as many frame files as rows per file (and a table
    whose rows have the columns of its first row, six at most), the
    averaging block of the cleanup program returns.  It pushes one record
    at every row whose number is a multiple of [num_rows_per_file], but
    it does not add the rows to the record pushed last: the row number is
    divided by [group = size / num_rows_per_file], which is the number of
    files and not the number of rows per file.  So record [k] holds the
    rows [k * group .. (k + 1) * group - 1], added in order to zeros and
    divided by [num_rows_per_file], and the records past the last such
    group hold zeros divided by [num_rows_per_file].  These are the means
    of the rows of each file exactly when there are as many files as rows
    per file. *)
Theorem average_rows_groups_by_file_count (raw : list (list float)) (n_files : Z)
    (first_row : list float) :
  1 <= n_files <= vsize raw ->
  vsize raw / n_files <= n_files ->
  vsize raw < 2 ^ 31 ->
  raw !! 0%nat = Some first_row ->
  vsize first_row <= 6 ->
  Forall (fun row => vsize first_row <= vsize row) raw ->
  let num_rows_per_file := vsize raw / n_files in
  let group := vsize raw / num_rows_per_file in
  let records := (vsize raw + num_rows_per_file - 1) / num_rows_per_file in
  CleanupMain.average_rows raw n_files
  = CleanupMain.Ran
      (Ret (CleanupMain.group_means (Z.to_nat (vsize first_row)) (Z.to_nat group)
              (Z.to_nat records) num_rows_per_file raw)).
Proof.
  intros Hfiles Hmany Hsmall Hfirst Hcols Hrows num_rows_per_file group records.
  pose proof (vsize_nonneg raw) as Hn. pose proof (vsize_nonneg first_row) as Hc.
  assert (Hr : 1 <= num_rows_per_file <= vsize raw).
  { unfold num_rows_per_file. split.
    - apply Z.div_le_lower_bound; lia.
    - apply Z.div_le_upper_bound; nia. }
  assert (Hg : num_rows_per_file <= group <= vsize raw).
  { unfold group. split.
    - apply Z.div_le_lower_bound; [lia|].
      pose proof (Z.mul_div_le (vsize raw) n_files ltac:(lia)).
      fold num_rows_per_file in H. nia.
    - apply Z.div_le_upper_bound; nia. }
  set (num := Z.to_nat num_rows_per_file).
  set (num_cols := Z.to_nat (vsize first_row)).
  assert (Hnum : Z.of_nat num = num_rows_per_file) by (unfold num; lia).
  assert (Hnum_cols : Z.of_nat num_cols = vsize first_row) by (unfold num_cols; lia).
  assert (Hrecords : Z.to_nat records = ((length raw + num - 1) / num)%nat).
  { unfold records. rewrite <- Hnum. unfold vsize.
    replace (Z.of_nat (length raw) + Z.of_nat num - 1)
      with (Z.of_nat (length raw + num - 1)) by lia.
    rewrite <- Nat2Z.inj_div, Nat2Z.id. reflexivity. }
  assert (H1 : (1 <= num)%nat) by lia.
  assert (H2 : (num <= Z.to_nat group)%nat) by lia.
  assert (H3 : vsize raw / Z.of_nat num = Z.of_nat (Z.to_nat group))
    by (rewrite Hnum; fold group; lia).
  assert (H5 : (num_cols <= 6)%nat) by lia.
  assert (H6 : Forall (fun row : list float => (num_cols <= length row)%nat) raw).
  { eapply Forall_impl; [exact Hrows|]. intros row Hrow. unfold vsize in *. lia. }
  unfold CleanupMain.average_rows. fold num_rows_per_file.
  rewrite (vget_lookup raw 0 first_row) by (lia || exact Hfirst).
  rewrite (to_int_small num_rows_per_file), (to_int_small (vsize first_row)) by lia.
  destruct (num_rows_per_file =? 0) eqn:H0; [apply Z.eqb_eq in H0; lia|].
  f_equal. rewrite <- Hnum, <- Hnum_cols. unfold vsize at 1.
  rewrite (add_rows_closed raw num (Z.to_nat group) num_cols H1 H2 H3 Hsmall H5 H6
             (length raw) (le_n _)).
  cbn [bind]. rewrite firstn_all, <- Hrecords.
  set (sums := CleanupMain.group_sums num_cols (Z.to_nat group) (Z.to_nat records) raw).
  unfold vsize at 1.
  rewrite (divide_rows_closed num (Z.to_nat group) num_cols H1 H2 H5 sums (length sums));
    [|unfold sums, CleanupMain.group_sums; apply List.Forall_forall; intros acc Hacc;
      apply in_map_iff in Hacc as (k & <- & _); rewrite sum_length; cbn [length]; lia
     |lia].
  rewrite firstn_all, skipn_all, app_nil_r. reflexivity.
Qed.

Lemma average_rows_groups_by_file_count_witness :
  let raw := [[1; 10]; [3; 30]; [5; 50]; [7; 70]; [9; 90]; [11; 110]]%float in
  1 <= 3 <= vsize raw
  /\ vsize raw / 3 <= 3
  /\ vsize raw < 2 ^ 31
  /\ raw !! 0%nat = Some [1; 10]%float
  /\ vsize [1; 10]%float <= 6
  /\ Forall (fun row => vsize [1; 10]%float <= vsize row) raw
  /\ CleanupMain.average_rows raw 3
     = CleanupMain.Ran
         (Ret [[4.5; 45; 0; 0; 0; 0]; [13.5; 135; 0; 0; 0; 0]; [0; 0; 0; 0; 0; 0]]%float).
Proof.
  intros raw.
  assert (H1 : 1 <= 3 <= vsize raw) by (vm_compute; split; discriminate).
  assert (H2 : vsize raw / 3 <= 3) by (vm_compute; discriminate).
  assert (H3 : vsize raw < 2 ^ 31) by reflexivity.
  assert (H4 : raw !! 0%nat = Some [1; 10]%float) by reflexivity.
  assert (H5 : vsize [1; 10]%float <= 6) by (vm_compute; discriminate).
  assert (H6 : Forall (fun row => vsize [1; 10]%float <= vsize row) raw)
    by (repeat constructor; vm_compute; discriminate).
  split; [exact H1|]. split; [exact H2|]. split; [exact H3|]. split; [exact H4|].
  split; [exact H5|]. split; [exact H6|].
  exact (average_rows_groups_by_file_count raw 3 _ H1 H2 H3 H4 H5 H6).
Defined.

(** ** The points of the merged cloud *)

(** Whatever the interleaving of the threads, every point of the merged
    cloud of the cleanup program has passed the depth filter of its
    frame, [z] between -5 and 0: it is a point of the local cloud of a
    thread that has appended, and that cloud was selected by
    [rectangularThreshold] from a depth-filtered cloud.  The plane fit is
    taken to answer with indices into its cloud and the outlier removal
    with points of its input. *)
Theorem merged_points_pass_depth_filter {F : Float32} {P : PCL}
    (g : Cleanup.globals) (directory : string) (files_to_process : list string)
    (c : Cleanup.config) (p : PointXYZ) :
  WallSegmenter.inliers_in_range ->
  (forall (k : Z) (s : float) (cloud : PointCloud) (q : PointXYZ),
     In q (statistical_outlier_removal k s cloud) -> In q cloud) ->
  Cleanup.reachable g (Cleanup.spawned directory files_to_process) c ->
  In p (Cleanup.stitched_cloud (Cleanup.memory c)) ->
  passes field_z (f32_of_int (-5)) (f32_of_int 0) p = true
  /\ exists tid w,
       Cleanup.workers c !! tid = Some w
       /\ Merged.appended w = true
       /\ In p (Cleanup.filtered_cloud w).
Proof.
  intros Hransac Hsor Hreach Hp.
  destruct (reachable_merged g directory files_to_process c Hreach)
    as (order & _ & Horder & Hcloud).
  rewrite Hcloud in Hp. apply in_flat_map in Hp as (tid & Htid & Hp).
  apply Horder in Htid as (w & Hw & Happended).
  unfold Merged.cloud_of in Hp. rewrite Hw in Hp.
  split; [|exists tid, w; auto].
  pose proof (reachable_invariant g _ c (spawned_invariant directory files_to_process) Hreach)
    as [_ _ Hpre].
  specialize (Hpre tid w Hw). unfold Cleanup.preprocessed in Hpre.
  unfold Merged.appended in Happended.
  destruct (Cleanup.place w); try discriminate Happended;
    destruct Hpre as [corrected Hfit];
    unfold Cleanup.plane_fit in Hfit;
    rewrite (rectangularThreshold_segments Hransac) in Hfit;
    inversion Hfit as [Hfitted]; rewrite <- Hfitted in Hp;
    apply (segment_spec_In Hsor) in Hp as [Hp _];
    unfold Cleanup.depth_filter in Hp; apply PassThrough_In in Hp as [_ Hz]; exact Hz.
Qed.

Lemma merged_points_pass_depth_filter_witness :
  let g := Cleanup.mkGlobals [] false in
  let start := Cleanup.spawned "" ["scanD11111.pcd"]%string in
  let c := Cleanup.run g [0; 0; 0; 0; 0; 0]%nat start in
  @WallSegmenter.inliers_in_range Reference.binary32 Reference.stand_in
  /\ (forall (k : Z) (s : float) (cloud : PointCloud) (q : PointXYZ),
        In q (statistical_outlier_removal k s cloud) -> In q cloud)
  /\ Cleanup.reachable g start c
  /\ In (pt 0 0 (-1)) (Cleanup.stitched_cloud (Cleanup.memory c))
  /\ passes field_z (f32_of_int (-5)) (f32_of_int 0) (pt 0 0 (-1)) = true.
Proof.
  intros g start c.
  assert (H : Cleanup.reachable g start c)
    by (apply run_reachable, Cleanup.reach_start).
  assert (Hp : In (pt 0 0 (-1)) (Cleanup.stitched_cloud (Cleanup.memory c))).
  { assert (Hfirst : option_map (fun q => (x q, y q, z q))
                       (hd_error (Cleanup.stitched_cloud (Cleanup.memory c)))
                     = Some (x (pt 0 0 (-1)), y (pt 0 0 (-1)), z (pt 0 0 (-1))))
      by (vm_compute; reflexivity).
    destruct (Cleanup.stitched_cloud (Cleanup.memory c)) as [|[qx qy qz] others];
      [discriminate Hfirst|].
    cbn [hd_error option_map x y z] in Hfirst. inversion Hfirst; subst.
    left. reflexivity. }
  split; [exact plane_inliers_in_range|].
  split; [exact stand_in_outlier_removal_selects|].
  split; [exact H|]. split; [exact Hp|].
  exact (proj1 (merged_points_pass_depth_filter g "" ["scanD11111.pcd"]%string c
                  (pt 0 0 (-1)) plane_inliers_in_range
                  stand_in_outlier_removal_selects H Hp)).
Defined.

(** ** The order in which the threads take the mutex *)

Section LockOrderFacts.

Import Cleanup Merged.

Context {F : Float32} {P : PCL}.

Variable g : globals.


Section OneStep.

Variables (c c' : config) (tid : nat) (w w' : worker).

Hypothesis worker_before : workers c !! tid = Some w.
Hypothesis workers_after : workers c' = <[tid := w']> (workers c).









End OneStep.







End LockOrderFacts.





(** ** The two readers of the pose priors *)

Section ReaderFailures.

Import TransformStore.

Variable stod : string -> outcome float.

(** The first cell that [stod] refuses ends the row with the exception
    of [stod]. *)
Lemma convert_cells_throws (good : list string) (values : list float) (bad : string)
    (rest : list string) (e : exception) (col : Z) :
  1 <= col ->
  Forall2 (fun cell v => stod cell = Ret v) good values ->
  stod bad = Throw e ->
  convert_cells stod col (good ++ bad :: rest) = Throw e.
Proof.
  intros Hcol Hgood Hbad. revert col Hcol.
  induction Hgood as [|cell v good values Hcell Hgood IH]; intros col Hcol;
    cbn [app convert_cells]; unfold cols_to_skip at 1;
    (destruct (1 >? col) eqn:Hc; [apply Z.gtb_lt in Hc; lia|]).
  - rewrite Hbad. reflexivity.
  - rewrite Hcell. cbn [bind]. rewrite IH by lia. reflexivity.
Qed.

End ReaderFailures.

(** C8 (as amended). The two readers of the pose priors do not treat a
    row in the same way.
    In the stitching program ([getTransformationData]), for every row
    after the header row whose cells after the first column all convert
    by [stod], the values are assigned in order to rotx, roty, rotz, dx,
    dy, dz and, when there is a seventh, to confidence; the row throws
    [std::domain_error] exactly when it has fewer than 6 values; with 6
    values the confidence keeps the value of a fresh record and the
    warning is printed, and the reader pushes the record and goes on with
    the next row; a cell that [stod] refuses makes the row throw the
    exception of [stod], whatever the number of columns.
    In the cleanup program (the reader in [main]), after the two header
    rows and the two leading numbers of a row, the numbers of the row are
    stored in their order, whatever their count: the reader never fails,
    has no confidence and prints no warning; and [processPCD] takes the
    stored numbers, in order, for dx, dy, dz, rotx, roty, rotz. *)
Theorem pose_rows_read_positionally {F : Float32} {P : PCL}
    (stod : string -> outcome float) (delim : ascii)
    (extract_doubles : string -> list float) :
  (forall (line : string) (values : list float),
     Forall2 (fun cell v => stod cell = Ret v)
       (skipn 1 (TransformStore.getline_pieces delim line)) values ->
     TransformStore.parse_row stod delim line =
       if vsize values <? 6 then Throw domain_error
       else Ret (TransformStore.mkTransformData
                   (List.nth 3 values 0%float) (List.nth 4 values 0%float)
                   (List.nth 5 values 0%float) (List.nth 0 values 0%float)
                   (List.nth 1 values 0%float) (List.nth 2 values 0%float)
                   (if vsize values >? 6 then List.nth 6 values 0%float
                    else TransformStore.confidence TransformStore.TransformData_default),
                 negb (vsize values >? 6)))
  /\ (forall (line : string) (lines : list string) (row : Z)
        (st : TransformStore.reader_state) (t : TransformStore.TransformData)
        (warned : bool),
        TransformStore.rows_to_skip <= row + 1 ->
        TransformStore.parse_row stod delim line = Ret (t, warned) ->
        TransformStore.read_rows stod delim (line :: lines) row st =
          TransformStore.read_rows stod delim lines (row + 1)
            (TransformStore.mkReaderState
               (TransformStore.translation_and_rotation_raw st ++ [t])
               (if warned
                then TransformStore.cout st ++ [TransformStore.no_confidence_warning]
                else TransformStore.cout st)))
  /\ (forall (line label bad : string) (good rest : list string) (values : list float)
        (e : exception),
        TransformStore.getline_pieces delim line = label :: good ++ bad :: rest ->
        Forall2 (fun cell v => stod cell = Ret v) good values ->
        stod bad = Throw e ->
        TransformStore.parse_row stod delim line = Throw e)
  /\ (forall infile : list string,
        vsize infile <= INT_MAX ->
        CleanupMain.read_priors extract_doubles infile
        = Ret (map (fun line => skipn 2 (extract_doubles line)) (skipn 2 infile)))
  /\ (forall (dx dy dz rotx roty rotz : float) (rest : list float),
        Cleanup.prior_transform (dx :: dy :: dz :: rotx :: roty :: rotz :: rest)
        = Ret (mkAffine
                 (rotation_xyz (f32_of_double (-1 * rotx)) (f32_of_double (-1 * roty))
                    (f32_of_double (-1 * rotz)))
                 (mkVec (f32_of_double (-1 * dx)) (f32_of_double (-1 * dy))
                    (f32_of_double (-1 * dz))))).
Proof.
  split; [exact (proj1 (parse_row_positional stod delim))|].
  split; [exact (proj2 (parse_row_positional stod delim))|].
  split; [|split].
  - intros line label bad good rest values e Hpieces Hgood Hbad.
    unfold TransformStore.parse_row. rewrite Hpieces.
    cbn [TransformStore.convert_cells]. unfold TransformStore.cols_to_skip at 1.
    cbn [Z.gtb Z.compare].
    rewrite (convert_cells_throws stod good values bad rest e (0 + 1)) by (lia || assumption).
    reflexivity.
  - intros infile _. unfold CleanupMain.read_priors.
    rewrite read_lines_rows
      by (unfold CleanupMain.rows_to_skip, vsize; cbn [length]; lia).
    reflexivity.
  - intros dx dy dz rotx roty rotz rest. apply prior_transform_row.
Qed.

Lemma pose_rows_read_positionally_witness :
  Forall2 (fun cell v => Reference.stod_decimal cell = Ret v)
    (skipn 1 (TransformStore.getline_pieces ";" "f0;0.5;1;2;3;4;5"))
    [0.5; 1; 2; 3; 4; 5]%float
  /\ TransformStore.parse_row Reference.stod_decimal ";" "f0;0.5;1;2;3;4;5"
     = Ret (TransformStore.mkTransformData 3 4 5 0.5 1 2 0, true)
  /\ vsize ["time frame dx dy dz rotx roty rotz"; "s - m m m rad rad rad";
            "0 0 1 2 3 4 5 6"]%string <= INT_MAX
  /\ CleanupMain.read_priors Reference.extract_decimals
       ["time frame dx dy dz rotx roty rotz"; "s - m m m rad rad rad";
        "0 0 1 2 3 4 5 6"]%string
     = Ret [[1; 2; 3; 4; 5; 6]]%float.
Proof.
  assert (H : Forall2 (fun cell v => Reference.stod_decimal cell = Ret v)
                (skipn 1 (TransformStore.getline_pieces ";" "f0;0.5;1;2;3;4;5"))
                [0.5; 1; 2; 3; 4; 5]%float)
    by (repeat constructor).
  assert (Hsize : vsize ["time frame dx dy dz rotx roty rotz"; "s - m m m rad rad rad";
                         "0 0 1 2 3 4 5 6"]%string <= INT_MAX)
    by (vm_compute; discriminate).
  split; [exact H|]. split.
  - exact (proj1 (pose_rows_read_positionally Reference.stod_decimal ";"
                    Reference.extract_decimals) _ _ H).
  - split; [exact Hsize|].
    exact (proj1 (proj2 (proj2 (proj2
             (pose_rows_read_positionally Reference.stod_decimal ";"
                Reference.extract_decimals)))) _ Hsize).
Defined.

(** C8, as the claim states it, fails in both readers.  In the stitching
    program a row with a cell that is no number fails with the exception
    of [stod], [std::invalid_argument], and not with the error of the
    column count: the first row below has 6 numeric columns and still
    fails, the second has fewer than 6.  In the cleanup program a row
    with three numbers after the two leading ones is stored and nothing
    fails; and the numbers of a stored row are not taken for rotx, roty,
    rotz, dx, dy, dz: the first three are the offset [processPCD]
    negates. *)
Lemma pose_row_claim_fails :
  TransformStore.parse_row Reference.stod_decimal ";" "f0;1;2;3;4;5;6;x"
  = Throw invalid_argument
  /\ TransformStore.parse_row Reference.stod_decimal ";" "f0;1;2;x"
     = Throw invalid_argument
  /\ CleanupMain.read_priors Reference.extract_decimals
       ["time frame dx dy dz rotx roty rotz"; "s - m m m rad rad rad";
        "0 0 1 2 3"]%string
     = Ret [[1; 2; 3]]%float
  /\ bind (Cleanup.prior_transform [1; 2; 3; 4; 5; 6]%float)
       (fun transform => Ret (translation transform))
     = Ret (mkVec (f32_of_double (-1 * 1)) (f32_of_double (-1 * 2))
              (f32_of_double (-1 * 3))).
Proof. repeat split. Qed.
